(** * mcp-project-tracker: a shallow embedding of the MCP server, its SQLite
    data layer and the smoke-test client.

    Sources embedded here:
    - [src/mcp-server.js]  : class [MCPServer] (framing, dispatch, validation);
    - [src/database.js]    : class [Database]  (the CRUD layer over sqlite3);
    - [src/schema.sql]     : the two tables, their constraints and the cascade;
    - the smoke test       : class [MCPTestClient] (request correlation).

    What the JavaScript host provides (JSON.parse, the wall clock behind
    CURRENT_TIMESTAMP, the LIKE operator, IEEE rounding, toString of objects)
    is gathered in the record [platform] and stays abstract in every general
    statement.

    Modelling choices:
    - the server's 'data' handler is asynchronous; a chunk is handled to
      completion here, so the handlers of two chunks do not interleave at
      the awaits of the database calls;
    - the promise of a call is represented by what settles it: database
      errors are thrown values of the monad [M], the client's promises are
      the entries of [settled];
    - SQLite's column affinity is not represented.  The handlers'
      validation lets only an INTEGER reach an integer column and a TEXT
      or NULL a text column (a falsy status or priority apart, which the
      CHECK refuses under either reading); a due date that reads as a
      number would be stored as one by SQLite, and stays a text here;
    - the clock is read once per statement, counted in [statements];
    - strings are byte strings, and numbers are rationals: NaN and the
      infinities, which JSON cannot carry, have no representation. *)

From Stdlib Require Import String Ascii List ZArith QArith Qround Bool Arith Lia.
From Stdlib Require Import Permutation Sorted.
Import ListNotations.

Set Warnings "-register-all".
Local Open Scope Z_scope.

(* ====================================================================== *)
(** ** Strings, as the framing code uses them *)

Module Str.

Definition LF : ascii := ascii_of_nat 10.

(** [s.indexOf(c)]; [None] stands for -1. *)
Fixpoint indexOf (c : ascii) (s : string) : option nat :=
  match s with
  | EmptyString => None
  | String a r => if Ascii.eqb a c then Some O else option_map S (indexOf c r)
  end.

(** [s.slice(0, n)] *)
Fixpoint slice_to (n : nat) (s : string) : string :=
  match n, s with
  | S n', String a r => String a (slice_to n' r)
  | _, _ => EmptyString
  end.

(** [s.slice(n)] *)
Fixpoint slice_from (n : nat) (s : string) : string :=
  match n, s with
  | S n', String _ r => slice_from n' r
  | _, _ => s
  end.

(** The white space [trim] strips, restricted to ASCII: TAB, LF, VT, FF, CR
    and SPACE (strings are byte strings here; the non-ASCII white space of
    ECMAScript is not represented). *)
Definition is_space (a : ascii) : bool :=
  let n := nat_of_ascii a in
  (((9 <=? n) && (n <=? 13)) || (n =? 32))%nat.

Fixpoint trimStart (s : string) : string :=
  match s with
  | EmptyString => EmptyString
  | String a r => if is_space a then trimStart r else s
  end.

Fixpoint trimEnd (s : string) : string :=
  match s with
  | EmptyString => EmptyString
  | String a r =>
      match trimEnd r with
      | EmptyString => if is_space a then EmptyString else String a EmptyString
      | r' => String a r'
      end
  end.

(** [s.trim()] *)
Definition trim (s : string) : string := trimEnd (trimStart s).

Definition is_empty (s : string) : bool :=
  match s with EmptyString => true | _ => false end.

End Str.

(* ====================================================================== *)
(** ** JavaScript values *)

(** A JSON document after [JSON.parse], plus [undefined] and the one kind of
    non-JSON value the server can meet: a built-in function inherited from a
    prototype.  A number carries the exact rational value of its double. *)
Inductive value : Type :=
| VUndefined
| VNull
| VBool (b : bool)
| VNum (q : Q)
| VStr (s : string)
| VArr (items : list value)
| VObj (props : list (string * value))
| VFun (name : string).

(** What can be thrown.  Each constructor stands for the [Error] whose
    [message] the source builds; the text is given beside it. *)
Inductive error : Type :=
| SyntaxError                     (* JSON.parse: the engine's own message *)
| TypeError                       (* destructuring undefined or null *)
| UnknownMethod (method : value)  (* `Unknown method: ${method}` *)
| UnknownTool (name : value)      (* `Unknown tool: ${name}` *)
| InvalidStatus (status : value)  (* `Invalid status: ${status}. Must be one of: ...` *)
| InvalidPriority (priority : value) (* `Invalid priority: ${priority}. Must be one of: ...` *)
| InvalidId (fieldName : string)  (* `Invalid ${fieldName}: must be a positive integer` *)
| RequiredString (fieldName : string) (* `${fieldName} is required and must be a non-empty string` *)
| MustBeString (fieldName : string)   (* `${fieldName} must be a string` *)
| ProjectNotFound (id : value)    (* `Project with ID ${id} not found` *)
| TaskNotFound (id : value)       (* `Task with ID ${id} not found` *)
| NoValidFields                   (* 'No valid fields to update' *)
| SqliteConstraint (constraint : string) (* SQLITE_CONSTRAINT: ... failed *)
| SqliteError (reason : string).  (* SQLITE_ERROR: ... *)

Inductive outcome (A : Type) : Type :=
| Ok (a : A)
| Throw (e : error).
Arguments Ok {A} a.
Arguments Throw {A} e.

Module JS.

(** ToBoolean *)
Definition truthy (v : value) : bool :=
  match v with
  | VUndefined | VNull => false
  | VBool b => b
  | VNum q => negb (Qnum q =? 0)
  | VStr s => negb (Str.is_empty s)
  | VArr _ | VObj _ | VFun _ => true
  end.

Definition is_undefined (v : value) : bool :=
  match v with VUndefined => true | _ => false end.

Definition is_null (v : value) : bool :=
  match v with VNull => true | _ => false end.

(** [typeof v === 'string'] *)
Definition is_string (v : value) : bool :=
  match v with VStr _ => true | _ => false end.

(** [Number.isInteger(q)] on the value of a finite double. *)
Definition Number_isInteger (q : Q) : bool :=
  (Qnum q mod Zpos (Qden q)) =? 0.

(** The integer a whole number denotes. *)
Definition to_int (q : Q) : Z := Qnum q / Zpos (Qden q).

Fixpoint lookup (k : string) (props : list (string * value)) : value :=
  match props with
  | [] => VUndefined
  | (k', v) :: rest => if String.eqb k k' then v else lookup k rest
  end.

(** Property read [v.k], as destructuring [const { k } = v] performs it.
    Reading from [undefined] or [null] throws.  An object yields its own
    property; of the names the server reads (method, params, id, name,
    arguments and the tool argument names) none is inherited from
    Object.prototype, Array.prototype, Number.prototype or
    Boolean.prototype, and exactly one is inherited by a string:
    String.prototype.search. *)
Definition get (v : value) (k : string) : outcome value :=
  match v with
  | VUndefined | VNull => Throw TypeError
  | VObj props => Ok (lookup k props)
  | VStr _ => if String.eqb k "search" then Ok (VFun "search") else Ok VUndefined
  | VBool _ | VNum _ | VArr _ | VFun _ => Ok VUndefined
  end.

(** [list.includes(v)] for a list of string literals (SameValueZero). *)
Definition includes (l : list string) (v : value) : bool :=
  match v with
  | VStr s => existsb (String.eqb s) l
  | _ => false
  end.

(** [Math.round]: the nearest integer, ties towards +infinity. *)
Definition Math_round (q : Q) : Z := Qfloor (q + (1 # 2)).

End JS.

(* ====================================================================== *)
(** ** The host platform *)

(** Everything the program takes from Node.js and SQLite without defining
    it.  General statements quantify over the platform. *)
Record platform : Type := {
  (** The value of CURRENT_TIMESTAMP seen by the n-th SQL statement the
      connection executes. *)
  CURRENT_TIMESTAMP : nat -> Z;
  (** [JSON.parse]; [None] when it throws a SyntaxError. *)
  JSON_parse : string -> option value;
  (** The ToString conversion, used where a template literal or the
      sqlite3 binding turns a non-string value into text. *)
  ToString : value -> string;
  (** [text LIKE pattern] of SQLite. *)
  LIKE : string -> string -> bool;
  (** Rounding of a real result to the nearest double. *)
  fl : Q -> Q
}.

(* ====================================================================== *)
(** ** The store: schema.sql under SQLite, with foreign keys switched on *)

Module Sqlite.

Inductive sqlval : Type :=
| SNull
| SInt (z : Z)
| SReal (q : Q)
| SText (s : string).

(** Table [projects]. *)
Record project : Type := {
  p_id : Z;                 (* INTEGER PRIMARY KEY AUTOINCREMENT *)
  p_name : sqlval;          (* TEXT NOT NULL *)
  p_client : sqlval;        (* TEXT *)
  p_description : sqlval;   (* TEXT *)
  p_created_at : Z;         (* DATETIME DEFAULT CURRENT_TIMESTAMP *)
  p_updated_at : Z          (* DATETIME DEFAULT CURRENT_TIMESTAMP *)
}.

(** Table [tasks]. *)
Record task : Type := {
  t_id : Z;                 (* INTEGER PRIMARY KEY AUTOINCREMENT *)
  t_project_id : sqlval;    (* INTEGER NOT NULL, REFERENCES projects(id) ON DELETE CASCADE *)
  t_description : sqlval;   (* TEXT NOT NULL *)
  t_priority : sqlval;      (* TEXT DEFAULT 'medium' CHECK(priority IN (...)) *)
  t_status : sqlval;        (* TEXT DEFAULT 'pending' CHECK(status IN (...)) *)
  t_category : sqlval;      (* TEXT *)
  t_assignee : sqlval;      (* TEXT *)
  t_due_date : sqlval;      (* DATE *)
  t_notes : sqlval;         (* TEXT *)
  t_created_at : Z;
  t_updated_at : Z
}.

(** The two tables in rowid order, and the sqlite_sequence entries that
    AUTOINCREMENT keeps (the largest rowid ever handed out per table). *)
Record database : Type := {
  projects : list project;
  tasks : list task;
  seq_projects : Z;
  seq_tasks : Z
}.

Definition empty : database :=
  {| projects := []; tasks := []; seq_projects := 0; seq_tasks := 0 |}.

(** What [this.lastID] and [this.changes] hold after [db.run].  [lastID] is
    read by the callers after an INSERT only; it is 0 otherwise. *)
Record run_result : Type := { lastID : Z; changes : Z }.

(** [a = b] evaluating to true.  NULL equals nothing.  Values of different
    storage classes are compared numerically when both are numbers and are
    unequal otherwise (the server compares a column only with a value of
    the column's own class). *)
Definition sql_eq (a b : sqlval) : bool :=
  match a, b with
  | SInt x, SInt y => x =? y
  | SText x, SText y => String.eqb x y
  | SReal x, SReal y => Qeq_bool x y
  | SInt x, SReal y => Qeq_bool (inject_Z x) y
  | SReal x, SInt y => Qeq_bool x (inject_Z y)
  | _, _ => false
  end.

Definition is_null (a : sqlval) : bool :=
  match a with SNull => true | _ => false end.

(** [CHECK(col IN (...))]: satisfied by NULL and by a listed text. *)
Definition check_in (allowed : list string) (a : sqlval) : bool :=
  match a with
  | SNull => true
  | SText s => existsb (String.eqb s) allowed
  | SInt _ | SReal _ => false
  end.

Definition priorities : list string := ["low"; "medium"; "high"; "critical"]%string.
Definition statuses : list string :=
  ["pending"; "in-progress"; "developed"; "tested"; "deployed"; "blocked"]%string.

Definition count {A : Type} (f : A -> bool) (l : list A) : Z :=
  Z.of_nat (length (filter f l)).

Definition max_id (ids : list Z) : Z := fold_right Z.max 0 ids.

(** The rowid AUTOINCREMENT assigns: one more than the largest rowid the
    table holds or has ever held. *)
Definition next_rowid (seq : Z) (ids : list Z) : Z := Z.max seq (max_id ids) + 1.

Definition project_matches (id : sqlval) (p : project) : bool := sql_eq (SInt (p_id p)) id.
Definition task_matches (id : sqlval) (t : task) : bool := sql_eq (SInt (t_id t)) id.
Definition task_of_project (id : sqlval) (t : task) : bool := sql_eq (t_project_id t) id.

(** NOT NULL and CHECK constraints of a [tasks] row. *)
Definition task_violation (t : task) : option string :=
  if is_null (t_project_id t) then Some "NOT NULL constraint failed: tasks.project_id"%string
  else if is_null (t_description t) then Some "NOT NULL constraint failed: tasks.description"%string
  else if negb (check_in priorities (t_priority t)) then Some "CHECK constraint failed: priority"%string
  else if negb (check_in statuses (t_status t)) then Some "CHECK constraint failed: status"%string
  else None.

(** FOREIGN KEY (project_id) REFERENCES projects(id), checked on insertion. *)
Definition has_parent (d : database) (t : task) : bool :=
  existsb (project_matches (t_project_id t)) (projects d).

Definition project_violation (p : project) : option string :=
  if is_null (p_name p) then Some "NOT NULL constraint failed: projects.name"%string else None.

Fixpoint first_violation {A : Type} (f : A -> option string) (l : list A) : option string :=
  match l with
  | [] => None
  | x :: r => match f x with Some c => Some c | None => first_violation f r end
  end.

(** INSERT INTO projects (name, client, description, updated_at)
    VALUES (?, ?, ?, CURRENT_TIMESTAMP) *)
Definition insert_project (name client description : sqlval) (now : Z) (d : database)
  : outcome (run_result * database) :=
  let id := next_rowid (seq_projects d) (map p_id (projects d)) in
  let row := {| p_id := id; p_name := name; p_client := client;
                p_description := description;
                p_created_at := now; p_updated_at := now |} in
  match project_violation row with
  | Some c => Throw (SqliteConstraint c)
  | None =>
      Ok ({| lastID := id; changes := 1 |},
          {| projects := projects d ++ [row]; tasks := tasks d;
             seq_projects := id; seq_tasks := seq_tasks d |})
  end.

(** SELECT * FROM projects WHERE id = ? (first row, or undefined) *)
Definition select_project (id : sqlval) (d : database) : option project :=
  find (project_matches id) (projects d).

(** The columns a SET clause of database.js can name, besides updated_at. *)
Definition project_columns : list string := ["name"; "client"; "description"]%string.

Definition set_project_column (column : string) (v : sqlval) (p : project) : project :=
  if String.eqb column "name" then
    {| p_id := p_id p; p_name := v; p_client := p_client p;
       p_description := p_description p;
       p_created_at := p_created_at p; p_updated_at := p_updated_at p |}
  else if String.eqb column "client" then
    {| p_id := p_id p; p_name := p_name p; p_client := v;
       p_description := p_description p;
       p_created_at := p_created_at p; p_updated_at := p_updated_at p |}
  else if String.eqb column "description" then
    {| p_id := p_id p; p_name := p_name p; p_client := p_client p;
       p_description := v;
       p_created_at := p_created_at p; p_updated_at := p_updated_at p |}
  else p.

Definition stamp_project (now : Z) (p : project) : project :=
  {| p_id := p_id p; p_name := p_name p; p_client := p_client p;
     p_description := p_description p;
     p_created_at := p_created_at p; p_updated_at := now |}.

(** The assignments of a SET clause, left to right. *)
Definition assign {A : Type} (set : string -> sqlval -> A -> A)
  (sets : list (string * sqlval)) (row : A) : A :=
  fold_left (fun r cv => set (fst cv) (snd cv) r) sets row.

Definition known_columns (columns : list string) (sets : list (string * sqlval)) : bool :=
  forallb (fun cv => existsb (String.eqb (fst cv)) columns) sets.

(** UPDATE projects SET c1 = ?, ..., updated_at = CURRENT_TIMESTAMP WHERE id = ?
    ([sets] is empty in the statement that only touches updated_at). *)
Definition update_projects (sets : list (string * sqlval)) (id : sqlval) (now : Z)
  (d : database) : outcome (run_result * database) :=
  let upd p :=
    if project_matches id p then stamp_project now (assign set_project_column sets p)
    else p in
  if negb (known_columns project_columns sets) then Throw (SqliteError "no such column")
  else
    let rows := map upd (projects d) in
    match first_violation project_violation (filter (project_matches id) rows) with
    | Some c => Throw (SqliteConstraint c)
    | None =>
        Ok ({| lastID := 0; changes := count (project_matches id) (projects d) |},
            {| projects := rows; tasks := tasks d;
               seq_projects := seq_projects d; seq_tasks := seq_tasks d |})
    end.

(** DELETE FROM projects WHERE id = ?  The foreign key of [tasks] is
    ON DELETE CASCADE and the connection runs PRAGMA foreign_keys = ON, so
    the tasks of every deleted project go with it; [changes] counts the
    project rows only. *)
Definition delete_project (id : sqlval) (d : database) : outcome (run_result * database) :=
  let gone := filter (project_matches id) (projects d) in
  let orphaned t := existsb (fun p => task_of_project (SInt (p_id p)) t) gone in
  Ok ({| lastID := 0; changes := Z.of_nat (length gone) |},
      {| projects := filter (fun p => negb (project_matches id p)) (projects d);
         tasks := filter (fun t => negb (orphaned t)) (tasks d);
         seq_projects := seq_projects d; seq_tasks := seq_tasks d |}).

Definition task_columns : list string :=
  ["status"; "notes"; "priority"; "category"; "description"; "assignee"; "due_date"]%string.

Definition set_task_column (column : string) (v : sqlval) (t : task) : task :=
  let mk description priority status category assignee due_date notes :=
    {| t_id := t_id t; t_project_id := t_project_id t; t_description := description;
       t_priority := priority; t_status := status; t_category := category;
       t_assignee := assignee; t_due_date := due_date; t_notes := notes;
       t_created_at := t_created_at t; t_updated_at := t_updated_at t |} in
  if String.eqb column "status" then
    mk (t_description t) (t_priority t) v (t_category t) (t_assignee t) (t_due_date t) (t_notes t)
  else if String.eqb column "notes" then
    mk (t_description t) (t_priority t) (t_status t) (t_category t) (t_assignee t) (t_due_date t) v
  else if String.eqb column "priority" then
    mk (t_description t) v (t_status t) (t_category t) (t_assignee t) (t_due_date t) (t_notes t)
  else if String.eqb column "category" then
    mk (t_description t) (t_priority t) (t_status t) v (t_assignee t) (t_due_date t) (t_notes t)
  else if String.eqb column "description" then
    mk v (t_priority t) (t_status t) (t_category t) (t_assignee t) (t_due_date t) (t_notes t)
  else if String.eqb column "assignee" then
    mk (t_description t) (t_priority t) (t_status t) (t_category t) v (t_due_date t) (t_notes t)
  else if String.eqb column "due_date" then
    mk (t_description t) (t_priority t) (t_status t) (t_category t) (t_assignee t) v (t_notes t)
  else t.

Definition stamp_task (now : Z) (t : task) : task :=
  {| t_id := t_id t; t_project_id := t_project_id t; t_description := t_description t;
     t_priority := t_priority t; t_status := t_status t; t_category := t_category t;
     t_assignee := t_assignee t; t_due_date := t_due_date t; t_notes := t_notes t;
     t_created_at := t_created_at t; t_updated_at := now |}.

(** INSERT INTO tasks (project_id, description, priority, category, assignee,
    due_date, updated_at) VALUES (?, ?, ?, ?, ?, ?, CURRENT_TIMESTAMP)
    status takes its default, notes is NULL. *)
Definition insert_task (project_id description priority category assignee due_date : sqlval)
  (now : Z) (d : database) : outcome (run_result * database) :=
  let id := next_rowid (seq_tasks d) (map t_id (tasks d)) in
  let row := {| t_id := id; t_project_id := project_id; t_description := description;
                t_priority := priority; t_status := SText "pending";
                t_category := category; t_assignee := assignee;
                t_due_date := due_date; t_notes := SNull;
                t_created_at := now; t_updated_at := now |} in
  match task_violation row with
  | Some c => Throw (SqliteConstraint c)
  | None =>
      if has_parent d row then
        Ok ({| lastID := id; changes := 1 |},
            {| projects := projects d; tasks := tasks d ++ [row];
               seq_projects := seq_projects d; seq_tasks := id |})
      else Throw (SqliteConstraint "FOREIGN KEY constraint failed")
  end.

(** UPDATE tasks SET c1 = ?, ..., updated_at = CURRENT_TIMESTAMP WHERE id = ? *)
Definition update_tasks (sets : list (string * sqlval)) (id : sqlval) (now : Z)
  (d : database) : outcome (run_result * database) :=
  let upd t :=
    if task_matches id t then stamp_task now (assign set_task_column sets t) else t in
  if negb (known_columns task_columns sets) then Throw (SqliteError "no such column")
  else
    let rows := map upd (tasks d) in
    match first_violation task_violation (filter (task_matches id) rows) with
    | Some c => Throw (SqliteConstraint c)
    | None =>
        Ok ({| lastID := 0; changes := count (task_matches id) (tasks d) |},
            {| projects := projects d; tasks := rows;
               seq_projects := seq_projects d; seq_tasks := seq_tasks d |})
    end.

(** SELECT project_id FROM tasks WHERE id = ? *)
Definition select_task_project_id (id : sqlval) (d : database) : option sqlval :=
  option_map t_project_id (find (task_matches id) (tasks d)).

(** DELETE FROM tasks WHERE id = ? *)
Definition delete_task (id : sqlval) (d : database) : outcome (run_result * database) :=
  Ok ({| lastID := 0; changes := count (task_matches id) (tasks d) |},
      {| projects := projects d;
         tasks := filter (fun t => negb (task_matches id t)) (tasks d);
         seq_projects := seq_projects d; seq_tasks := seq_tasks d |}).

(** ORDER BY key DESC.  Rows with equal keys keep their rowid order (SQL
    leaves their order open). *)
Fixpoint insert_desc {A : Type} (key : A -> Z) (x : A) (l : list A) : list A :=
  match l with
  | [] => [x]
  | y :: r => if key y <=? key x then x :: l else y :: insert_desc key x r
  end.

Definition order_by_desc {A : Type} (key : A -> Z) (l : list A) : list A :=
  fold_right (insert_desc key) [] l.

(** SELECT * FROM tasks WHERE 1=1 AND c1 AND ... ORDER BY created_at DESC *)
Definition select_tasks (conditions : list (task -> bool)) (d : database) : list task :=
  order_by_desc t_created_at
    (filter (fun t => forallb (fun c => c t) conditions) (tasks d)).

Definition has_status (s : string) (t : task) : bool := sql_eq (t_status t) (SText s).
Definition has_priority (s : string) (t : task) : bool := sql_eq (t_priority t) (SText s).

(** A row of the listing query of [getProjects]: p.* and the COUNTs over the
    LEFT JOIN with tasks. *)
Record project_row : Type := {
  pr_project : project;
  total_tasks : Z;
  pending_tasks : Z;
  in_progress_tasks : Z;
  developed_tasks : Z;
  tested_tasks : Z;
  deployed_tasks : Z;
  blocked_tasks : Z
}.

(** SELECT p.*, COUNT(t.id) ..., FROM projects p LEFT JOIN tasks t
    ON p.id = t.project_id [WHERE p.client = ?]
    GROUP BY p.id ORDER BY p.updated_at DESC *)
Definition select_projects (client : option sqlval) (d : database) : list project_row :=
  let row p :=
    let ts := filter (task_of_project (SInt (p_id p))) (tasks d) in
    {| pr_project := p;
       total_tasks := Z.of_nat (length ts);
       pending_tasks := count (has_status "pending") ts;
       in_progress_tasks := count (has_status "in-progress") ts;
       developed_tasks := count (has_status "developed") ts;
       tested_tasks := count (has_status "tested") ts;
       deployed_tasks := count (has_status "deployed") ts;
       blocked_tasks := count (has_status "blocked") ts |} in
  let kept p := match client with
                | Some c => sql_eq (p_client p) c
                | None => true
                end in
  order_by_desc (fun r => p_updated_at (pr_project r))
    (map row (filter kept (projects d))).

(** The row of the aggregate query of [getProjectSummary]. *)
Record counts : Type := {
  c_total : Z;
  c_pending : Z;
  c_in_progress : Z;
  c_developed : Z;
  c_tested : Z;
  c_deployed : Z;
  c_blocked : Z;
  c_critical : Z;
  c_high : Z;
  c_medium : Z;
  c_low : Z
}.

(** SELECT COUNT( * ) as total, COUNT(CASE WHEN status = 'pending' THEN 1 END)
    as pending, ... FROM tasks WHERE project_id = ? *)
Definition select_counts (project_id : sqlval) (d : database) : counts :=
  let ts := filter (task_of_project project_id) (tasks d) in
  {| c_total := Z.of_nat (length ts);
     c_pending := count (has_status "pending") ts;
     c_in_progress := count (has_status "in-progress") ts;
     c_developed := count (has_status "developed") ts;
     c_tested := count (has_status "tested") ts;
     c_deployed := count (has_status "deployed") ts;
     c_blocked := count (has_status "blocked") ts;
     c_critical := count (has_priority "critical") ts;
     c_high := count (has_priority "high") ts;
     c_medium := count (has_priority "medium") ts;
     c_low := count (has_priority "low") ts |}.

End Sqlite.

(* ====================================================================== *)
(** ** Effects: the open connection, exceptions *)

(** The connection: the stored tables and the number of statements executed
    so far (the index at which the platform clock is read). *)
Record world : Type := {
  store : Sqlite.database;
  statements : nat
}.

(** A computation that may read and write the store and may throw.  The
    store reached is returned in both cases: what was written before a
    throw stays written. *)
Definition M (A : Type) : Type := world -> outcome A * world.

Definition ret {A : Type} (a : A) : M A := fun w => (Ok a, w).

Definition throw {A : Type} (e : error) : M A := fun w => (Throw e, w).

Definition bind {A B : Type} (c : M A) (k : A -> M B) : M B :=
  fun w =>
    match c w with
    | (Ok a, w') => k a w'
    | (Throw e, w') => (Throw e, w')
    end.

Definition lift {A : Type} (o : outcome A) : M A := fun w => (o, w).

(** [try { c } catch (error) { handler error }] *)
Definition try_catch {A : Type} (c : M A) (handler : error -> M A) : M A :=
  fun w =>
    match c w with
    | (Ok a, w') => (Ok a, w')
    | (Throw e, w') => handler e w'
    end.

Declare Scope js_scope.
Delimit Scope js_scope with js.
Notation "x <- c ;; k" := (bind c (fun x => k))
  (at level 61, c at next level, right associativity) : js_scope.
Notation "c ;;; k" := (bind c (fun _ => k))
  (at level 61, right associativity) : js_scope.

(* ====================================================================== *)
(** ** class Database (database.js) *)

Module Database.
Section WithPlatform.
Variable P : platform.
Local Open Scope js_scope.

(** How the sqlite3 binding binds a JavaScript value to a [?]: strings as
    TEXT, whole numbers as INTEGER, other numbers as REAL, booleans as 0 or
    1, null as NULL; an undefined parameter is left unbound, which reads as
    NULL; anything else is bound as the text of its ToString. *)
Definition bind_param (v : value) : Sqlite.sqlval :=
  match v with
  | VStr s => Sqlite.SText s
  | VNum q => if JS.Number_isInteger q then Sqlite.SInt (JS.to_int q) else Sqlite.SReal q
  | VBool b => Sqlite.SInt (if b then 1 else 0)
  | VNull | VUndefined => Sqlite.SNull
  | VArr _ | VObj _ | VFun _ => Sqlite.SText (ToString P v)
  end.

(** A default parameter value: [x = d] in a parameter list. *)
Definition default (d v : value) : value :=
  if JS.is_undefined v then d else v.

(** [run(sql, params)]: executes one statement; resolves with lastID and
    changes, rejects with the engine's error. *)
Definition run (stmt : Z -> Sqlite.database -> outcome (Sqlite.run_result * Sqlite.database))
  : M Sqlite.run_result :=
  fun w =>
    match stmt (CURRENT_TIMESTAMP P (statements w)) (store w) with
    | Ok (r, d) => (Ok r, {| store := d; statements := S (statements w) |})
    | Throw e => (Throw e, {| store := store w; statements := S (statements w) |})
    end.

(** [get(sql, params)] and [all(sql, params)]: one query. *)
Definition query {A : Type} (q : Sqlite.database -> A) : M A :=
  fun w => (Ok (q (store w)), {| store := store w; statements := S (statements w) |}).

Definition createProject (name client description : value) : M Z :=
  let client := default VNull client in
  let description := default VNull description in
  result <- run (Sqlite.insert_project (bind_param name) (bind_param client)
                   (bind_param description)) ;;
  ret (Sqlite.lastID result).

Definition getProjects (client : value) : M (list Sqlite.project_row) :=
  let client := default VNull client in
  query (Sqlite.select_projects
           (if JS.truthy client then Some (bind_param client) else None)).

Definition getProject (id : value) : M (option Sqlite.project) :=
  query (Sqlite.select_project (bind_param id)).

(** The loop over [Object.entries(updates)] that fills [setClause] and
    [params]: one pair per entry whose field is allowed, in entry order. *)
Fixpoint setClause (allowedFields : list string) (entries : list (string * value))
  : list (string * Sqlite.sqlval) :=
  match entries with
  | [] => []
  | (field, v) :: rest =>
      if existsb (String.eqb field) allowedFields
      then (field, bind_param v) :: setClause allowedFields rest
      else setClause allowedFields rest
  end.

Definition project_allowedFields : list string := ["name"; "client"; "description"]%string.

Definition task_allowedFields : list string :=
  ["status"; "notes"; "priority"; "category"; "description"; "assignee"; "due_date"]%string.

Definition updateProject (id : value) (updates : list (string * value)) : M bool :=
  let sets := setClause project_allowedFields updates in
  if (length sets =? 0)%nat then throw NoValidFields
  else
    result <- run (Sqlite.update_projects sets (bind_param id)) ;;
    ret (Sqlite.changes result >? 0).

Definition deleteProject (id : value) : M bool :=
  result <- run (fun _ => Sqlite.delete_project (bind_param id)) ;;
  ret (Sqlite.changes result >? 0).

(** UPDATE projects SET updated_at = CURRENT_TIMESTAMP WHERE id = ? *)
Definition touch_project (project_id : Sqlite.sqlval) : M Sqlite.run_result :=
  run (Sqlite.update_projects [] project_id).

Definition addTask (projectId description priority category assignee dueDate : value) : M Z :=
  let priority := default (VStr "medium") priority in
  let category := default VNull category in
  let assignee := default VNull assignee in
  let dueDate := default VNull dueDate in
  result <- run (Sqlite.insert_task (bind_param projectId) (bind_param description)
                   (bind_param priority) (bind_param category) (bind_param assignee)
                   (bind_param dueDate)) ;;
  (* Update project timestamp *)
  touch_project (bind_param projectId) ;;;
  ret (Sqlite.lastID result).

Definition updateTask (id : value) (updates : list (string * value)) : M bool :=
  let sets := setClause task_allowedFields updates in
  if (length sets =? 0)%nat then throw NoValidFields
  else
    result <- run (Sqlite.update_tasks sets (bind_param id)) ;;
    (* Update project timestamp *)
    task <- query (Sqlite.select_task_project_id (bind_param id)) ;;
    match task with
    | Some project_id => touch_project project_id ;;; ret tt
    | None => ret tt
    end ;;;
    ret (Sqlite.changes result >? 0).

(** The text a template literal gives a value. *)
Definition template (v : value) : string :=
  match v with VStr s => s | _ => ToString P v end.

(** [col LIKE pattern]: false on NULL (a text column holds text or NULL). *)
Definition like (pattern : string) (col : Sqlite.sqlval) : bool :=
  match col with
  | Sqlite.SText s => LIKE P s pattern
  | _ => false
  end.

Definition getTasks (filters : value) : M (list Sqlite.task) :=
  let filters := default (VObj []) filters in
  project_id <- lift (JS.get filters "project_id") ;;
  status <- lift (JS.get filters "status") ;;
  priority <- lift (JS.get filters "priority") ;;
  category <- lift (JS.get filters "category") ;;
  assignee <- lift (JS.get filters "assignee") ;;
  search <- lift (JS.get filters "search") ;;
  let on v (c : Sqlite.task -> bool) := if JS.truthy v then [c] else [] in
  let searchTerm := ("%" ++ template search ++ "%")%string in
  query (Sqlite.select_tasks
    (on project_id (fun t => Sqlite.sql_eq (Sqlite.t_project_id t) (bind_param project_id))
     ++ on status (fun t => Sqlite.sql_eq (Sqlite.t_status t) (bind_param status))
     ++ on priority (fun t => Sqlite.sql_eq (Sqlite.t_priority t) (bind_param priority))
     ++ on category (fun t => Sqlite.sql_eq (Sqlite.t_category t) (bind_param category))
     ++ on assignee (fun t => Sqlite.sql_eq (Sqlite.t_assignee t) (bind_param assignee))
     ++ on search (fun t => like searchTerm (Sqlite.t_description t)
                            || like searchTerm (Sqlite.t_notes t)))).

Definition deleteTask (id : value) : M bool :=
  (* Get project_id before deletion *)
  task <- query (Sqlite.select_task_project_id (bind_param id)) ;;
  result <- run (fun _ => Sqlite.delete_task (bind_param id)) ;;
  (* Update project timestamp if task was deleted *)
  match task with
  | Some project_id =>
      if Sqlite.changes result >? 0 then touch_project project_id ;;; ret tt else ret tt
  | None => ret tt
  end ;;;
  ret (Sqlite.changes result >? 0).

(** Double arithmetic: the exact result, rounded. *)
Definition fdiv (a b : Q) : Q := fl P (a / b).
Definition fmul (a b : Q) : Q := fl P (a * b).
Definition fadd (a b : Q) : Q := fl P (a + b).

Record summary : Type := {
  row : Sqlite.counts;
  completion_percentage : Z;
  progress_percentage : Z
}.

Definition getProjectSummary (projectId : value) : M summary :=
  c <- query (Sqlite.select_counts (bind_param projectId)) ;;
  let total := inject_Z (Sqlite.c_total c) in
  let developed := inject_Z (Sqlite.c_developed c) in
  let tested := inject_Z (Sqlite.c_tested c) in
  let deployed := inject_Z (Sqlite.c_deployed c) in
  ret {| row := c;
         (* Calculate completion percentage (deployed = completed) *)
         completion_percentage :=
           if Sqlite.c_total c >? 0
           then JS.Math_round (fmul (fdiv deployed total) 100)
           else 0;
         progress_percentage :=
           if Sqlite.c_total c >? 0
           then JS.Math_round (fmul (fdiv (fadd (fadd developed tested) deployed) total) 100)
           else 0 |}.

End WithPlatform.
End Database.

(* ====================================================================== *)
(** ** class MCPServer (mcp-server.js) *)

Module MCPServer.

(** What a tool handler returns.  Each constructor stands for the object
    literal the handler builds; its [message] text is a function of the
    fields kept here. *)
Inductive tool_result : Type :=
| ProjectCreated (project_id : Z) (name : value)
    (* { success: true, project_id, message: `Project "${name}" created with ID ${id}` } *)
| ProjectList (projects : list Sqlite.project_row)
    (* { projects } *)
| TaskAdded (task_id : Z) (project_name : Sqlite.sqlval)
    (* { success: true, task_id, message: `Task added with ID ${id} to project "${project.name}"` } *)
| TaskUpdated (id : value)
    (* { success: true, message: `Task ${id} updated successfully` } *)
| TaskList (tasks : list Sqlite.task)
    (* { tasks } *)
| ProjectSummary (project_name : Sqlite.sqlval) (project_id : value)
    (summary : Database.summary)
    (* { project_name, project_id, summary } *)
| TaskDeleted (id : value)
    (* { success: true, message: `Task ${id} deleted successfully` } *)
| ProjectDeleted (project_name : Sqlite.sqlval).
    (* { success: true, message: `Project "${project.name}" and all its tasks deleted successfully` } *)

(** The [result] member of a response. *)
Inductive result_body : Type :=
| InitializeResult
    (* { protocolVersion: '2024-11-05', capabilities: { tools: {} },
         serverInfo: { name: 'mcp-project-tracker', version: '1.0.0' } } *)
| ToolsList (tools : list string)
    (* { tools }: the catalog, of which the tool names are kept *)
| ToolContent (text : tool_result).
    (* { content: [{ type: 'text', text: JSON.stringify(result, null, 2) }] } *)

(** The [error] member of a response; [message] is the thrown error's. *)
Record rpc_error : Type := { code : Z; message : error }.

(** A response object.  An absent member is [None]; an [id] that is
    [VUndefined] is dropped by JSON.stringify. *)
Record response : Type := {
  jsonrpc : string;
  id : value;
  result : option result_body;
  error_ : option rpc_error
}.

(** The server object: the database connection, the input buffer, and the
    lines written to standard output so far, oldest first (each response
    stands for the line [JSON.stringify(response) + '\n']). *)
Record server : Type := {
  db : world;
  inputBuffer : string;
  stdout : list response
}.

Definition tool_names : list string :=
  ["create_project"; "list_projects"; "add_task"; "update_task"; "get_tasks";
   "get_project_summary"; "delete_task"; "delete_project"]%string.

Definition validStatuses : list string :=
  ["pending"; "in-progress"; "developed"; "tested"; "deployed"; "blocked"]%string.

Definition validPriorities : list string := ["low"; "medium"; "high"; "critical"]%string.

(** Input validation helpers *)

Definition validateStatus (status : value) : outcome unit :=
  if JS.truthy status && negb (JS.includes validStatuses status)
  then Throw (InvalidStatus status)
  else Ok tt.

Definition validatePriority (priority : value) : outcome unit :=
  if JS.truthy priority && negb (JS.includes validPriorities priority)
  then Throw (InvalidPriority priority)
  else Ok tt.

Definition validateId (id : value) (fieldName : string) : outcome unit :=
  match id with
  | VNum q =>
      if Qle_bool q 0 || negb (JS.Number_isInteger q)
      then Throw (InvalidId fieldName)
      else Ok tt
  | _ => Throw (InvalidId fieldName)
  end.

Definition validateString (v : value) (fieldName : string) (required : bool) : outcome unit :=
  if required
     && (negb (JS.truthy v) || negb (JS.is_string v)
         || match v with VStr s => Str.is_empty (Str.trim s) | _ => false end)
  then Throw (RequiredString fieldName)
  else if negb required && negb (JS.is_undefined v) && negb (JS.is_null v)
          && negb (JS.is_string v)
  then Throw (MustBeString fieldName)
  else Ok tt.

Section WithPlatform.
Variable P : platform.
Local Open Scope js_scope.

(** Tool implementations *)

Definition createProject (args : value) : M tool_result :=
  name <- lift (JS.get args "name") ;;
  client <- lift (JS.get args "client") ;;
  description <- lift (JS.get args "description") ;;
  (* Validate inputs *)
  lift (validateString name "Name" true) ;;;
  lift (validateString client "Client" false) ;;;
  lift (validateString description "Description" false) ;;;
  id <- Database.createProject P name client description ;;
  ret (ProjectCreated id name).

Definition listProjects (args : value) : M tool_result :=
  client <- lift (JS.get args "client") ;;
  (* Validate inputs *)
  lift (validateString client "Client" false) ;;;
  projects <- Database.getProjects P client ;;
  ret (ProjectList projects).

Definition addTask (args : value) : M tool_result :=
  project_id <- lift (JS.get args "project_id") ;;
  description <- lift (JS.get args "description") ;;
  priority <- lift (JS.get args "priority") ;;
  let priority := Database.default (VStr "medium") priority in
  category <- lift (JS.get args "category") ;;
  assignee <- lift (JS.get args "assignee") ;;
  due_date <- lift (JS.get args "due_date") ;;
  (* Validate inputs *)
  lift (validateId project_id "Project ID") ;;;
  lift (validateString description "Description" true) ;;;
  lift (validatePriority priority) ;;;
  lift (validateString category "Category" false) ;;;
  lift (validateString assignee "Assignee" false) ;;;
  lift (validateString due_date "Due date" false) ;;;
  (* Verify project exists *)
  project <- Database.getProject P project_id ;;
  match project with
  | None => throw (ProjectNotFound project_id)
  | Some project =>
      id <- Database.addTask P project_id description priority category assignee due_date ;;
      ret (TaskAdded id (Sqlite.p_name project))
  end.

(** [if (v !== undefined) updates.field = v] *)
Definition put (field : string) (v : value) (updates : list (string * value))
  : list (string * value) :=
  if JS.is_undefined v then updates else updates ++ [(field, v)].

Definition updateTask (args : value) : M tool_result :=
  id <- lift (JS.get args "id") ;;
  status <- lift (JS.get args "status") ;;
  notes <- lift (JS.get args "notes") ;;
  priority <- lift (JS.get args "priority") ;;
  category <- lift (JS.get args "category") ;;
  description <- lift (JS.get args "description") ;;
  assignee <- lift (JS.get args "assignee") ;;
  due_date <- lift (JS.get args "due_date") ;;
  (* Validate inputs *)
  lift (validateId id "Case ID") ;;;
  lift (validateStatus status) ;;;
  lift (validatePriority priority) ;;;
  lift (validateString notes "Notes" false) ;;;
  lift (validateString category "Category" false) ;;;
  lift (validateString description "Description" false) ;;;
  lift (validateString assignee "Assignee" false) ;;;
  lift (validateString due_date "Due date" false) ;;;
  let updates :=
    put "due_date" due_date
      (put "assignee" assignee
        (put "description" description
          (put "category" category
            (put "priority" priority
              (put "notes" notes
                (put "status" status [])))))) in
  success <- Database.updateTask P id updates ;;
  if negb success then throw (TaskNotFound id)
  else ret (TaskUpdated id).

Definition getTasks (args : value) : M tool_result :=
  project_id <- lift (JS.get args "project_id") ;;
  status <- lift (JS.get args "status") ;;
  priority <- lift (JS.get args "priority") ;;
  category <- lift (JS.get args "category") ;;
  assignee <- lift (JS.get args "assignee") ;;
  search <- lift (JS.get args "search") ;;
  (* Validate inputs *)
  (if negb (JS.is_undefined project_id)
   then lift (validateId project_id "Project ID") else ret tt) ;;;
  lift (validateStatus status) ;;;
  lift (validatePriority priority) ;;;
  lift (validateString category "Category" false) ;;;
  lift (validateString assignee "Assignee" false) ;;;
  lift (validateString search "Search" false) ;;;
  tasks <- Database.getTasks P args ;;
  ret (TaskList tasks).

Definition getProjectSummary (args : value) : M tool_result :=
  project_id <- lift (JS.get args "project_id") ;;
  (* Validate inputs *)
  lift (validateId project_id "Project ID") ;;;
  (* Verify project exists *)
  project <- Database.getProject P project_id ;;
  match project with
  | None => throw (ProjectNotFound project_id)
  | Some project =>
      summary <- Database.getProjectSummary P project_id ;;
      ret (ProjectSummary (Sqlite.p_name project) project_id summary)
  end.

Definition deleteTask (args : value) : M tool_result :=
  id <- lift (JS.get args "id") ;;
  (* Validate inputs *)
  lift (validateId id "Task ID") ;;;
  success <- Database.deleteTask P id ;;
  if negb success then throw (TaskNotFound id)
  else ret (TaskDeleted id).

Definition deleteProject (args : value) : M tool_result :=
  id <- lift (JS.get args "id") ;;
  (* Validate inputs *)
  lift (validateId id "Project ID") ;;;
  (* Verify project exists *)
  project <- Database.getProject P id ;;
  match project with
  | None => throw (ProjectNotFound id)
  | Some project =>
      success <- Database.deleteProject P id ;;
      ret (ProjectDeleted (Sqlite.p_name project))
  end.

Definition handleInitialize (id : value) : response :=
  {| jsonrpc := "2.0"; id := id; result := Some InitializeResult; error_ := None |}.

Definition handleToolsList (id : value) : response :=
  {| jsonrpc := "2.0"; id := id; result := Some (ToolsList tool_names); error_ := None |}.

(** The [switch (name)] of [handleToolCall]: strict equality with each
    case label. *)
Definition tool (name args : value) : M tool_result :=
  match name with
  | VStr n =>
      if String.eqb n "create_project" then createProject args
      else if String.eqb n "list_projects" then listProjects args
      else if String.eqb n "add_task" then addTask args
      else if String.eqb n "update_task" then updateTask args
      else if String.eqb n "get_tasks" then getTasks args
      else if String.eqb n "get_project_summary" then getProjectSummary args
      else if String.eqb n "delete_task" then deleteTask args
      else if String.eqb n "delete_project" then deleteProject args
      else throw (UnknownTool name)
  | _ => throw (UnknownTool name)
  end.

Definition handleToolCall (params id : value) : M response :=
  name <- lift (JS.get params "name") ;;
  args <- lift (JS.get params "arguments") ;;
  try_catch
    (result <- tool name args ;;
     ret {| jsonrpc := "2.0"; id := id;
            result := Some (ToolContent result); error_ := None |})
    (fun error =>
     ret {| jsonrpc := "2.0"; id := id;
            result := None;
            error_ := Some {| code := -32000; message := error |} |}).

Definition handleMessage (message : value) : M response :=
  method <- lift (JS.get message "method") ;;
  params <- lift (JS.get message "params") ;;
  let params := Database.default (VObj []) params in
  id <- lift (JS.get message "id") ;;
  match method with
  | VStr m =>
      if String.eqb m "initialize" then ret (handleInitialize id)
      else if String.eqb m "tools/list" then ret (handleToolsList id)
      else if String.eqb m "tools/call" then handleToolCall params id
      else throw (UnknownMethod method)
  | _ => throw (UnknownMethod method)
  end.

Definition sendResponse (r : response) (s : server) : server :=
  {| db := db s; inputBuffer := inputBuffer s; stdout := stdout s ++ [r] |}.

Definition sendError (e : error) (id : value) (s : server) : server :=
  {| db := db s; inputBuffer := inputBuffer s;
     stdout := stdout s ++
       [{| jsonrpc := "2.0"; id := id; result := None;
           error_ := Some {| code := -32000; message := e |} |}] |}.

(** The [while] loop of the 'data' handler, at most [fuel] iterations;
    [None] when the fuel runs out before the loop ends.  Each iteration
    removes a line from the buffer, so one more than the buffer's length
    always suffices ([lines_fuel]). *)
Fixpoint lines (fuel : nat) (s : server) : option (outcome unit * server) :=
  match fuel with
  | O => None
  | S fuel' =>
      match Str.indexOf Str.LF (inputBuffer s) with
      | None => Some (Ok tt, s)
      | Some newlineIndex =>
          let line := Str.trim (Str.slice_to newlineIndex (inputBuffer s)) in
          let s := {| db := db s;
                      inputBuffer := Str.slice_from (S newlineIndex) (inputBuffer s);
                      stdout := stdout s |} in
          if Str.is_empty line then lines fuel' s
          else
            match JSON_parse P line with
            | None => Some (Throw SyntaxError, s)
            | Some message =>
                match handleMessage message (db s) with
                | (Ok response, w) =>
                    lines fuel'
                      (sendResponse response
                         {| db := w; inputBuffer := inputBuffer s; stdout := stdout s |})
                | (Throw e, w) =>
                    Some (Throw e,
                          {| db := w; inputBuffer := inputBuffer s; stdout := stdout s |})
                end
            end
      end
  end.

(** [process.stdin.on('data', async (chunk) => { try { ... } catch (error)
    { this.sendError(error.message, null) } })], one chunk handled to
    completion. *)
Definition on_data (chunk : string) (s : server) : server :=
  (* Accumulate chunks into buffer *)
  let s := {| db := db s; inputBuffer := (inputBuffer s ++ chunk)%string;
              stdout := stdout s |} in
  match lines (S (String.length (inputBuffer s))) s with
  | Some (Ok _, s') => s'
  | Some (Throw error, s') => sendError error VNull s'
  | None => s
  end.

End WithPlatform.

(** The server as constructed: an open connection, nothing buffered,
    nothing written. *)
Definition start (w : world) : server :=
  {| db := w; inputBuffer := EmptyString; stdout := [] |}.

End MCPServer.

(* ====================================================================== *)
(** ** class MCPTestClient (the smoke test) *)

Module MCPTestClient.

Definition REQUEST_TIMEOUT_MS : Z := 8000.

(** The errors a call's promise is rejected with. *)
Inductive failure : Type :=
| Timeout (id : Z) (method : string)
    (* `Timeout waiting response for id=${id}, method=${method}` *)
| ServerExited (id : Z) (code : value).
    (* `Server exited while waiting response for id=${id}, code=${code}` *)

Inductive settlement : Type :=
| Resolved (response : value)
| Rejected (reason : failure).

(** The [{ resolve, reject }] pair [call] stores: two closures over the
    timer handle and over the promise of that call. *)
Record callbacks : Type := { timeout : Z; promise : Z }.

(** An armed timer: its handle (the id of the call that armed it), the time
    from which the event loop runs its callback, and the [method] the
    callback closed over. *)
Record timer : Type := { handle : Z; due : Z; waiting_for : string }.

(** The client object, the timers of the event loop, how each call's
    promise was settled (a promise, named by its call's id, is settled at
    most once), what was written to the server's stdin, and the time in
    milliseconds. *)
Record client : Type := {
  nextId : Z;
  pending : list (Z * callbacks);   (* a Map, in insertion order *)
  stdoutBuffer : string;
  timers : list timer;
  settled : list (Z * settlement);
  stdin : list value;
  now : Z
}.

(** [new MCPTestClient()], at time [t]. *)
Definition new (t : Z) : client :=
  {| nextId := 1; pending := []; stdoutBuffer := EmptyString; timers := [];
     settled := []; stdin := []; now := t |}.

(** Map operations; a key of [pending] is a number. *)
Definition same_key (k : Z) (v : value) : bool :=
  match v with
  | VNum q => Qeq_bool (inject_Z k) q
  | _ => false
  end.

Definition Map_has (m : list (Z * callbacks)) (key : value) : bool :=
  existsb (fun e => same_key (fst e) key) m.

Definition Map_get (m : list (Z * callbacks)) (key : value) : option callbacks :=
  option_map snd (find (fun e => same_key (fst e) key) m).

Definition Map_delete (m : list (Z * callbacks)) (key : value) : list (Z * callbacks) :=
  filter (fun e => negb (same_key (fst e) key)) m.

Fixpoint Map_set (m : list (Z * callbacks)) (key : Z) (v : callbacks) : list (Z * callbacks) :=
  match m with
  | [] => [(key, v)]
  | (k, v') :: rest => if k =? key then (k, v) :: rest else (k, v') :: Map_set rest key v
  end.

Definition is_settled (c : client) (id : Z) : bool :=
  existsb (fun e => fst e =? id) (settled c).

(** The outcome of the promise of call [id], if it is settled. *)
Definition outcome_of (c : client) (id : Z) : option settlement :=
  option_map snd (find (fun e => fst e =? id) (settled c)).

(** Settling a promise; a second settlement has no effect. *)
Definition settle (id : Z) (how : settlement) (c : client) : client :=
  if is_settled c id then c
  else {| nextId := nextId c; pending := pending c; stdoutBuffer := stdoutBuffer c;
          timers := timers c; settled := settled c ++ [(id, how)];
          stdin := stdin c; now := now c |}.

Definition clearTimeout (h : Z) (c : client) : client :=
  {| nextId := nextId c; pending := pending c; stdoutBuffer := stdoutBuffer c;
     timers := filter (fun t => negb (handle t =? h)) (timers c);
     settled := settled c; stdin := stdin c; now := now c |}.

Definition set_pending (m : list (Z * callbacks)) (c : client) : client :=
  {| nextId := nextId c; pending := m; stdoutBuffer := stdoutBuffer c;
     timers := timers c; settled := settled c; stdin := stdin c; now := now c |}.

Definition set_stdoutBuffer (b : string) (c : client) : client :=
  {| nextId := nextId c; pending := pending c; stdoutBuffer := b;
     timers := timers c; settled := settled c; stdin := stdin c; now := now c |}.

(** The stored [resolve]: clearTimeout(timeout); resolve(response). *)
Definition resolve (cb : callbacks) (response : value) (c : client) : client :=
  settle (promise cb) (Resolved response) (clearTimeout (timeout cb) c).

(** The stored [reject]: clearTimeout(timeout); reject(error). *)
Definition reject (cb : callbacks) (reason : failure) (c : client) : client :=
  settle (promise cb) (Rejected reason) (clearTimeout (timeout cb) c).

(** [call(method, params)]: returns the id under which the request was
    sent (the returned promise is the one named by that id). *)
Definition call (method : string) (params : value) (c : client) : Z * client :=
  let id := nextId c in
  let payload := VObj [("jsonrpc", VStr "2.0"); ("id", VNum (inject_Z id));
                       ("method", VStr method); ("params", params)]%string in
  (id,
   {| nextId := nextId c + 1;
      pending := Map_set (pending c) id {| timeout := id; promise := id |};
      stdoutBuffer := stdoutBuffer c;
      timers := timers c ++ [{| handle := id; due := now c + REQUEST_TIMEOUT_MS;
                                waiting_for := method |}];
      settled := settled c;
      stdin := stdin c ++ [payload];
      now := now c |}).

(** The callback [call] hands to setTimeout, for the call [id] of
    [method]: this.pending.delete(id); reject(new Error(...)), where
    [reject] is the promise's own. *)
Definition on_timeout (id : Z) (method : string) (c : client) : client :=
  settle id (Rejected (Timeout id method))
    (set_pending (Map_delete (pending c) (VNum (inject_Z id))) c).

(** The event loop after [ms] milliseconds have passed: every armed timer
    that is due runs its callback, once, in the order armed. *)
Definition elapse (ms : Z) (c : client) : client :=
  let t := now c + ms in
  let fired := filter (fun x => due x <=? t) (timers c) in
  let c := {| nextId := nextId c; pending := pending c; stdoutBuffer := stdoutBuffer c;
              timers := filter (fun x => negb (due x <=? t)) (timers c);
              settled := settled c; stdin := stdin c; now := t |} in
  fold_left (fun c x => on_timeout (handle x) (waiting_for x) c) fired c.

Section WithPlatform.
Variable P : platform.

(** One decoded line of the server's stdout: the body of the [try]. *)
Definition on_line (line : string) (c : client) : client :=
  match JSON_parse P line with
  | None => c                                  (* ignore non-JSON lines *)
  | Some message =>
      match JS.get message "id" with
      | Throw _ => c                           (* caught by the same catch *)
      | Ok id =>
          if JS.truthy id && Map_has (pending c) id then
            match Map_get (pending c) id with
            | Some cb => resolve cb message (set_pending (Map_delete (pending c) id) c)
            | None => c
            end
          else c
      end
  end.

(** The [while] loop of the stdout 'data' handler, with fuel as in
    [MCPServer.lines]. *)
Fixpoint lines (fuel : nat) (c : client) : option client :=
  match fuel with
  | O => None
  | S fuel' =>
      match Str.indexOf Str.LF (stdoutBuffer c) with
      | None => Some c
      | Some newlineIndex =>
          let line := Str.trim (Str.slice_to newlineIndex (stdoutBuffer c)) in
          let c := set_stdoutBuffer (Str.slice_from (S newlineIndex) (stdoutBuffer c)) c in
          if Str.is_empty line then lines fuel' c
          else lines fuel' (on_line line c)
      end
  end.

(** [this.server.stdout.on('data', (chunk) => { ... })] *)
Definition on_data (chunk : string) (c : client) : client :=
  let c := set_stdoutBuffer (stdoutBuffer c ++ chunk)%string c in
  match lines (S (String.length (stdoutBuffer c))) c with
  | Some c' => c'
  | None => c
  end.

End WithPlatform.

(** [this.server.on('exit', (code) => { ... })] *)
Definition on_exit (code : value) (c : client) : client :=
  let c := fold_left (fun c e => reject (snd e) (ServerExited (fst e) code) c)
             (pending c) c in
  set_pending [] c.

(** [callTool(name, args = {})] up to its [await]: the request it has
    [call] send, [this.call('tools/call', { name, arguments: args })].
    What follows the await (the two asserts on the response and
    JSON.parse of its text) reads the response only. *)
Definition callTool (name args : value) (c : client) : Z * client :=
  let args := Database.default (VObj []) args in
  call "tools/call" (VObj [("name", name); ("arguments", args)]%string) c.

End MCPTestClient.

(* ====================================================================== *)
(** ** A platform to run the model on *)

(** [JSON.parse] for byte strings: the JSON grammar of ECMA-404.  Numbers
    keep the exact value of their literal; a \u escape is stored as the
    UTF-8 bytes of its code unit. *)
Module Json.

Definition DQUOTE : ascii := ascii_of_nat 34.
Definition BACKSLASH : ascii := ascii_of_nat 92.

Definition is_ws (a : ascii) : bool :=
  let n := nat_of_ascii a in
  ((n =? 32) || (n =? 9) || (n =? 10) || (n =? 13))%nat.

Fixpoint skip_ws (s : string) : string :=
  match s with
  | String a r => if is_ws a then skip_ws r else s
  | EmptyString => s
  end.

Definition digit (a : ascii) : option Z :=
  let n := nat_of_ascii a in
  if ((48 <=? n) && (n <=? 57))%nat then Some (Z.of_nat (n - 48)) else None.

Definition hex (a : ascii) : option nat :=
  let n := nat_of_ascii a in
  if ((48 <=? n) && (n <=? 57))%nat then Some (n - 48)%nat
  else if ((65 <=? n) && (n <=? 70))%nat then Some (n - 55)%nat
  else if ((97 <=? n) && (n <=? 102))%nat then Some (n - 87)%nat
  else None.

(** The digits at the head of [s]: their value after [acc], how many there
    are, and what follows. *)
Fixpoint digits (s : string) (acc : Z) (n : nat) : Z * nat * string :=
  match s with
  | String a r =>
      match digit a with
      | Some d => digits r (10 * acc + d) (S n)
      | None => (acc, n, s)
      end
  | EmptyString => (acc, n, s)
  end.

Definition strip (c : string) (s : string) : option string :=
  if String.prefix c s then Some (Str.slice_from (String.length c) s) else None.

(** int: 0, or a non-zero digit and more digits. *)
Definition int_part (s : string) : option (Z * string) :=
  match s with
  | String a r =>
      match digit a with
      | Some 0 => Some (0, r)
      | Some _ => let '(v, _, r') := digits s 0 0 in Some (v, r')
      | None => None
      end
  | EmptyString => None
  end.

(** frac: nothing, or a point and one digit or more. *)
Definition frac_part (s : string) : option (Z * nat * string) :=
  match strip "." s with
  | Some r =>
      let '(v, n, r') := digits r 0 0 in
      if (n =? 0)%nat then None else Some (v, n, r')
  | None => Some (0, O, s)
  end.

(** exp: nothing, or e or E, a sign or none, and one digit or more. *)
Definition exp_part (s : string) : option (Z * string) :=
  let after r :=
    let '(neg, r) := match strip "-" r with
                     | Some r' => (true, r')
                     | None => match strip "+" r with
                               | Some r' => (false, r')
                               | None => (false, r)
                               end
                     end in
    let '(v, n, r') := digits r 0 0 in
    if (n =? 0)%nat then None else Some (if neg then - v else v, r') in
  match strip "e" s with
  | Some r => after r
  | None => match strip "E" s with
            | Some r => after r
            | None => Some (0, s)
            end
  end.

Definition number (s : string) : option (value * string) :=
  let '(neg, s) := match strip "-" s with
                   | Some r => (true, r)
                   | None => (false, s)
                   end in
  match int_part s with
  | None => None
  | Some (i, s) =>
      match frac_part s with
      | None => None
      | Some (f, k, s) =>
          match exp_part s with
          | None => None
          | Some (e, s) =>
              let mantissa :=
                (inject_Z (i * 10 ^ Z.of_nat k + f) / inject_Z (10 ^ Z.of_nat k))%Q in
              let scaled := if e <? 0 then (mantissa / inject_Z (10 ^ (- e)))%Q
                            else (mantissa * inject_Z (10 ^ e))%Q in
              Some (VNum (Qred (if neg then (- scaled)%Q else scaled)), s)
          end
      end
  end.

(** The UTF-8 bytes of a code unit below 65536. *)
Definition utf8 (cp : nat) : string :=
  let b n := String (ascii_of_nat n) EmptyString in
  if (cp <? 128)%nat then b cp
  else if (cp <? 2048)%nat then
    (b (192 + cp / 64) ++ b (128 + cp mod 64))%string%nat
  else
    (b (224 + cp / 4096) ++ b (128 + (cp / 64) mod 64) ++ b (128 + cp mod 64))%string%nat.

(** The characters of a string literal after its opening quote, up to the
    closing one. *)
Fixpoint chars (s : string) : option (string * string) :=
  let more c r := match chars r with
                  | Some (t, r') => Some ((c ++ t)%string, r')
                  | None => None
                  end in
  let one n := String (ascii_of_nat n) EmptyString in
  match s with
  | EmptyString => None
  | String a r =>
      if Ascii.eqb a DQUOTE then Some (EmptyString, r)
      else if Ascii.eqb a BACKSLASH then
        match r with
        | String e r1 =>
            if Ascii.eqb e DQUOTE then more (one 34%nat) r1
            else if Ascii.eqb e BACKSLASH then more (one 92%nat) r1
            else if Ascii.eqb e "/" then more (one 47%nat) r1
            else if Ascii.eqb e "b" then more (one 8%nat) r1
            else if Ascii.eqb e "f" then more (one 12%nat) r1
            else if Ascii.eqb e "n" then more (one 10%nat) r1
            else if Ascii.eqb e "r" then more (one 13%nat) r1
            else if Ascii.eqb e "t" then more (one 9%nat) r1
            else if Ascii.eqb e "u" then
              match r1 with
              | String h1 (String h2 (String h3 (String h4 r2))) =>
                  match hex h1, hex h2, hex h3, hex h4 with
                  | Some a1, Some a2, Some a3, Some a4 =>
                      more (utf8 (((a1 * 16 + a2) * 16 + a3) * 16 + a4)) r2
                  | _, _, _, _ => None
                  end
              | _ => None
              end
            else None
        | EmptyString => None
        end
      else if (nat_of_ascii a <? 32)%nat then None
      else more (String a EmptyString) r
  end.

(** [obj[k] = v] while an object literal is read: a repeated key keeps its
    place and takes the later value. *)
Fixpoint define (k : string) (v : value) (props : list (string * value))
  : list (string * value) :=
  match props with
  | [] => [(k, v)]
  | (k', v') :: rest =>
      if String.eqb k k' then (k, v) :: rest else (k', v') :: define k v rest
  end.

Fixpoint element (fuel : nat) (s : string) : option (value * string) :=
  match fuel with
  | O => None
  | S fuel' =>
      match skip_ws s with
      | EmptyString => None
      | String a r as s' =>
          if Ascii.eqb a "{" then
            match skip_ws r with
            | String b r' as m =>
                if Ascii.eqb b "}" then Some (VObj [], r') else members fuel' m []
            | EmptyString => None
            end
          else if Ascii.eqb a "[" then
            match skip_ws r with
            | String b r' as m =>
                if Ascii.eqb b "]" then Some (VArr [], r') else elements fuel' m []
            | EmptyString => None
            end
          else if Ascii.eqb a DQUOTE then
            match chars r with
            | Some (t, r') => Some (VStr t, r')
            | None => None
            end
          else
            match strip "true" s', strip "false" s', strip "null" s' with
            | Some r', _, _ => Some (VBool true, r')
            | _, Some r', _ => Some (VBool false, r')
            | _, _, Some r' => Some (VNull, r')
            | _, _, _ => number s'
            end
      end
  end
with elements (fuel : nat) (s : string) (acc : list value) : option (value * string) :=
  match fuel with
  | O => None
  | S fuel' =>
      match element fuel' s with
      | Some (v, r) =>
          match skip_ws r with
          | String a r' =>
              if Ascii.eqb a "," then elements fuel' r' (acc ++ [v])
              else if Ascii.eqb a "]" then Some (VArr (acc ++ [v]), r')
              else None
          | EmptyString => None
          end
      | None => None
      end
  end
with members (fuel : nat) (s : string) (acc : list (string * value))
  : option (value * string) :=
  match fuel with
  | O => None
  | S fuel' =>
      match skip_ws s with
      | String q r =>
          if Ascii.eqb q DQUOTE then
            match chars r with
            | Some (k, r1) =>
                match skip_ws r1 with
                | String c r2 =>
                    if Ascii.eqb c ":" then
                      match element fuel' r2 with
                      | Some (v, r3) =>
                          match skip_ws r3 with
                          | String a r4 =>
                              if Ascii.eqb a "," then members fuel' r4 (define k v acc)
                              else if Ascii.eqb a "}" then Some (VObj (define k v acc), r4)
                              else None
                          | EmptyString => None
                          end
                      | None => None
                      end
                    else None
                | EmptyString => None
                end
            | None => None
            end
          else None
      | EmptyString => None
      end
  end.

(** One JSON text, white space allowed around it, and nothing else.  A
    call below works on a shorter rest of the text than its caller, except
    the first [element] of an [elements], which works on the same; so twice
    the length bounds every chain of calls. *)
Definition parse (text : string) : option value :=
  match element (2 * S (String.length text)) text with
  | Some (v, r) => if Str.is_empty (skip_ws r) then Some v else None
  | None => None
  end.

(** JSON text written with single quotes where JSON has double quotes (a
    way to write examples down; the text itself holds no single quote). *)
Fixpoint text (s : string) : string :=
  match s with
  | EmptyString => EmptyString
  | String a r => String (if Ascii.eqb a "'" then DQUOTE else a) (text r)
  end.

End Json.

Module Reference.

(** Upper case to lower case, ASCII letters only (what LIKE folds). *)
Definition lower (a : ascii) : ascii :=
  let n := nat_of_ascii a in
  if ((65 <=? n) && (n <=? 90))%nat then ascii_of_nat (n + 32) else a.

(** [text LIKE pattern]: [%] stands for any run of characters, [_] for any
    one character, ASCII letters match regardless of case. *)
Fixpoint like_pattern (pattern : string) : string -> bool :=
  match pattern with
  | EmptyString => Str.is_empty
  | String c p =>
      if Ascii.eqb c "%" then
        fix any (text : string) : bool :=
          like_pattern p text
          || match text with
             | String _ rest => any rest
             | EmptyString => false
             end
      else if Ascii.eqb c "_" then
        fun text => match text with
                    | String _ rest => like_pattern p rest
                    | EmptyString => false
                    end
      else
        fun text => match text with
                    | String d rest => Ascii.eqb (lower c) (lower d) && like_pattern p rest
                    | EmptyString => false
                    end
  end.

Definition decimal_digit (d : Z) : string :=
  String (ascii_of_nat (48 + Z.to_nat d)) EmptyString.

Fixpoint decimal (fuel : nat) (n : Z) : string :=
  match fuel with
  | O => EmptyString
  | S fuel' =>
      if n <? 10 then decimal_digit n
      else (decimal fuel' (n / 10) ++ decimal_digit (n mod 10))%string
  end.

(** ToString of a whole number below 10^21. *)
Definition integer_text (n : Z) : string :=
  if n <? 0 then ("-" ++ decimal 22 (- n))%string else decimal 22 n.

(** ToString, exact on undefined, null, booleans, strings, whole numbers
    below 10^21 and plain objects; other values are not converted by any
    example. *)
Definition to_string (v : value) : string :=
  match v with
  | VUndefined => "undefined"
  | VNull => "null"
  | VBool true => "true"
  | VBool false => "false"
  | VNum q => integer_text (JS.to_int q)
  | VStr s => s
  | VArr _ | VObj _ | VFun _ => "[object Object]"
  end.

(** A platform with the parser above, a clock that advances by one second
    per statement from the given start, and exact arithmetic. *)
Definition node (start : Z) : platform :=
  {| CURRENT_TIMESTAMP := fun n => start + Z.of_nat n;
     JSON_parse := Json.parse;
     ToString := to_string;
     LIKE := fun text pattern => like_pattern pattern text;
     fl := fun q => q |}.

End Reference.

(* ====================================================================== *)
(** ** Vocabulary of the statements *)

(** How the sqlite3 binding hands a column back in a row object. *)
Definition to_js (a : Sqlite.sqlval) : value :=
  match a with
  | Sqlite.SNull => VNull
  | Sqlite.SInt z => VNum (inject_Z z)
  | Sqlite.SReal q => VNum q
  | Sqlite.SText s => VStr s
  end.

(** A JavaScript number holding the integer [n]. *)
Definition number (n : Z) : value := VNum (inject_Z n).

(** An optional text argument: a string, null, or absent. *)
Definition optional_text (v : value) : bool :=
  match v with
  | VStr _ | VNull | VUndefined => true
  | _ => false
  end.

(** [typeof v === 'object' && v !== null] *)
Definition is_object (v : value) : bool :=
  match v with
  | VObj _ | VArr _ => true
  | _ => false
  end.

(** None of the supplied fields is in the whitelist. *)
Definition no_allowed_field (allowed : list string) (updates : list (string * value)) : Prop :=
  forall f v, In (f, v) updates -> ~ In f allowed.

(** The errors thrown by the validation helpers. *)
Definition is_validation_error (e : error) : bool :=
  match e with
  | InvalidStatus _ | InvalidPriority _ | InvalidId _
  | RequiredString _ | MustBeString _ => true
  | _ => false
  end.

(** A response carries a result or an error with the fixed code, and not
    both. *)
Definition well_formed_response (r : MCPServer.response) : bool :=
  match MCPServer.result r, MCPServer.error_ r with
  | Some _, None => true
  | None, Some e => MCPServer.code e =? -32000
  | _, _ => false
  end.

(** The wall clock never runs backwards. *)
Definition monotone_clock (P : platform) : Prop :=
  forall m n, (m <= n)%nat -> CURRENT_TIMESTAMP P m <= CURRENT_TIMESTAMP P n.


(** Every task row has its project row (what the foreign key maintains). *)
Definition foreign_keys_hold (d : Sqlite.database) : Prop :=
  forall t, In t (Sqlite.tasks d) -> Sqlite.has_parent d t = true.

(** No project was updated later than the present. *)
Definition stamps_in_past (P : platform) (w : world) : Prop :=
  forall p, In p (Sqlite.projects (store w)) ->
            Sqlite.p_updated_at p <= CURRENT_TIMESTAMP P (statements w).

(** The updated_at of the project with the given id. *)
Definition updated_at_of (id : Sqlite.sqlval) (d : Sqlite.database) : option Z :=
  option_map Sqlite.p_updated_at (Sqlite.select_project id d).

(** The time of the statement executed last. *)
Definition last_timestamp (P : platform) (w : world) : Z :=
  CURRENT_TIMESTAMP P (pred (statements w)).

(** The same request, made [n] times in a row: the outcomes, and the world
    reached. *)
Fixpoint repeated {A : Type} (n : nat) (request : M A) (w : world)
  : list (outcome A) * world :=
  match n with
  | O => ([], w)
  | S n' =>
      let (o, w') := request w in
      let (os, w'') := repeated n' request w' in
      (o :: os, w'')
  end.

(** What happens to the client. *)
Inductive event : Type :=
| Call (method : string) (params : value)
| Data (chunk : string)
| Elapse (ms : Z)
| Exit (code : value).

Definition step (P : platform) (c : MCPTestClient.client) (e : event)
  : MCPTestClient.client :=
  match e with
  | Call method params => snd (MCPTestClient.call method params c)
  | Data chunk => MCPTestClient.on_data P chunk c
  | Elapse ms => MCPTestClient.elapse ms c
  | Exit code => MCPTestClient.on_exit code c
  end.

(** The client after a history of events, from its construction at time [t]. *)
Definition after (P : platform) (t : Z) (history : list event) : MCPTestClient.client :=
  fold_left (step P) history (MCPTestClient.new t).

Definition is_call (e : event) : bool :=
  match e with Call _ _ => true | _ => false end.

Definition newline : string := String Str.LF EmptyString.

(** What the handler does with the first complete line of its input. *)
Inductive first_line (P : platform) (s : MCPServer.server) (line rest : string)
  : MCPServer.server -> Prop :=
| line_blank :
    Str.is_empty (Str.trim line) = true ->
    first_line P s line rest
      (MCPServer.on_data P EmptyString
         {| MCPServer.db := MCPServer.db s; MCPServer.inputBuffer := rest;
            MCPServer.stdout := MCPServer.stdout s |})
| line_malformed :
    Str.is_empty (Str.trim line) = false ->
    JSON_parse P (Str.trim line) = None ->
    first_line P s line rest
      (MCPServer.sendError SyntaxError VNull
         {| MCPServer.db := MCPServer.db s; MCPServer.inputBuffer := rest;
            MCPServer.stdout := MCPServer.stdout s |})
| line_answered message r w :
    Str.is_empty (Str.trim line) = false ->
    JSON_parse P (Str.trim line) = Some message ->
    MCPServer.handleMessage P message (MCPServer.db s) = (Ok r, w) ->
    first_line P s line rest
      (MCPServer.on_data P EmptyString
         (MCPServer.sendResponse r
            {| MCPServer.db := w; MCPServer.inputBuffer := rest;
               MCPServer.stdout := MCPServer.stdout s |}))
| line_refused message e w :
    Str.is_empty (Str.trim line) = false ->
    JSON_parse P (Str.trim line) = Some message ->
    MCPServer.handleMessage P message (MCPServer.db s) = (Throw e, w) ->
    first_line P s line rest
      (MCPServer.sendError e VNull
         {| MCPServer.db := w; MCPServer.inputBuffer := rest;
            MCPServer.stdout := MCPServer.stdout s |}).

(** A connection to an empty database. *)
Definition fresh : world := {| store := Sqlite.empty; statements := 0 |}.

(** One request line: the JSON text (written with single quotes) and the
    newline that ends it. *)
Definition request_line (json : string) : string := (Json.text json ++ newline)%string.

(** The server of the examples: started on an empty database at time 1000,
    it has received the given request lines, one chunk each. *)
Definition served (requests : list string) : MCPServer.server :=
  fold_left (fun s r => MCPServer.on_data (Reference.node 1000) (request_line r) s)
    requests (MCPServer.start fresh).

(** A server that holds project 1 with tasks 1 (deployed) and 2 (pending). *)
Definition example_server : MCPServer.server :=
  served
    ["{'jsonrpc':'2.0','id':1,'method':'tools/call','params':{'name':'create_project','arguments':{'name':'Smoke Project','client':'VSCode'}}}";
     "{'jsonrpc':'2.0','id':2,'method':'tools/call','params':{'name':'add_task','arguments':{'project_id':1,'description':'Validate end-to-end','priority':'high'}}}";
     "{'jsonrpc':'2.0','id':3,'method':'tools/call','params':{'name':'add_task','arguments':{'project_id':1,'description':'Write the report'}}}";
     "{'jsonrpc':'2.0','id':4,'method':'tools/call','params':{'name':'update_task','arguments':{'id':1,'status':'deployed'}}}"
    ]%string.

Definition example_world : world := MCPServer.db example_server.


(** The envelope [handleToolCall] builds in its catch. *)
Definition rejection (id : value) (e : error) : MCPServer.response :=
  {| MCPServer.jsonrpc := "2.0"; MCPServer.id := id; MCPServer.result := None;
     MCPServer.error_ := Some {| MCPServer.code := -32000; MCPServer.message := e |} |}.

(** The argument [k] of [args] passes the validation [check]. *)
Definition passes (args : value) (k : string) (check : value -> outcome unit) : Prop :=
  exists x, JS.get args k = Ok x /\ check x = Ok tt.

(** The arguments pass every validation of [addTask]. *)
Definition valid_add_task (args : value) : Prop :=
  passes args "project_id" (fun x => MCPServer.validateId x "Project ID")
  /\ passes args "description" (fun x => MCPServer.validateString x "Description" true)
  /\ passes args "priority"
       (fun x => MCPServer.validatePriority (Database.default (VStr "medium") x))
  /\ passes args "category" (fun x => MCPServer.validateString x "Category" false)
  /\ passes args "assignee" (fun x => MCPServer.validateString x "Assignee" false)
  /\ passes args "due_date" (fun x => MCPServer.validateString x "Due date" false).

(** The arguments pass every validation of [updateTask]. *)
Definition valid_update_task (args : value) : Prop :=
  passes args "id" (fun x => MCPServer.validateId x "Case ID")
  /\ passes args "status" MCPServer.validateStatus
  /\ passes args "priority" MCPServer.validatePriority
  /\ passes args "notes" (fun x => MCPServer.validateString x "Notes" false)
  /\ passes args "category" (fun x => MCPServer.validateString x "Category" false)
  /\ passes args "description" (fun x => MCPServer.validateString x "Description" false)
  /\ passes args "assignee" (fun x => MCPServer.validateString x "Assignee" false)
  /\ passes args "due_date" (fun x => MCPServer.validateString x "Due date" false).

(** One of the updatable fields is given a value. *)
Definition some_field_supplied (args : value) : Prop :=
  exists k x, In k Database.task_allowedFields /\ JS.get args k = Ok x /\ x <> VUndefined.

(** The arguments of tool [name] pass the validation of its handler (and
    give update_task something to write). *)
Definition valid_arguments (name : string) (args : value) : Prop :=
  if String.eqb name "add_task" then valid_add_task args
  else if String.eqb name "update_task" then valid_update_task args /\ some_field_supplied args
  else if String.eqb name "delete_task"
       then passes args "id" (fun x => MCPServer.validateId x "Task ID")
  else if String.eqb name "delete_project"
       then passes args "id" (fun x => MCPServer.validateId x "Project ID")
  else if String.eqb name "get_project_summary"
       then passes args "project_id" (fun x => MCPServer.validateId x "Project ID")
  else False.

(** When the request to tool [name] names a project or a task that the
    store [d] does not hold: the not-found error for it. *)
Definition missing_reference (P : platform) (d : Sqlite.database) (name : string)
  (args : value) : option error :=
  let project key :=
    match JS.get args key with
    | Ok id => match Sqlite.select_project (Database.bind_param P id) d with
               | None => Some (ProjectNotFound id)
               | Some _ => None
               end
    | Throw _ => None
    end in
  let task key :=
    match JS.get args key with
    | Ok id => match Sqlite.select_task_project_id (Database.bind_param P id) d with
               | None => Some (TaskNotFound id)
               | Some _ => None
               end
    | Throw _ => None
    end in
  if String.eqb name "add_task" then project "project_id"%string
  else if String.eqb name "get_project_summary" then project "project_id"%string
  else if String.eqb name "delete_project" then project "id"%string
  else if String.eqb name "update_task" then task "id"%string
  else if String.eqb name "delete_task" then task "id"%string
  else None.

(** Row by row: the same project, updated no earlier than before. *)
Definition never_earlier (before after : list Sqlite.project) : Prop :=
  Forall2 (fun p p' => Sqlite.p_id p = Sqlite.p_id p'
                       /\ Sqlite.p_updated_at p <= Sqlite.p_updated_at p')
    before after.

(** From [w] to [w']: the projects are the same rows, none updated
    earlier than it was, and none later than the present. *)
Definition advances (P : platform) (w w' : world) : Prop :=
  never_earlier (Sqlite.projects (store w)) (Sqlite.projects (store w'))
  /\ (statements w <= statements w')%nat
  /\ stamps_in_past P w'.

(** A computation that only ever advances the projects' timestamps. *)
Definition advancing (P : platform) {A : Type} (c : M A) : Prop :=
  forall w o w', stamps_in_past P w -> c w = (o, w') -> advances P w w'.
(** The foreign key, as a check. *)
Definition foreign_keys_checked (d : Sqlite.database) : bool :=
  forallb (Sqlite.has_parent d) (Sqlite.tasks d).

(** No project stamped after the present, as a check. *)
Definition stamps_checked (P : platform) (w : world) : bool :=
  forallb (fun p => Sqlite.p_updated_at p <=? CURRENT_TIMESTAMP P (statements w))
    (Sqlite.projects (store w)).

(** What holds of the client at every moment: a pending entry is stored
    under the id of its call, with the callbacks of that call, whose
    promise is not settled yet; every armed timer belongs to a pending
    call, and no two to the same; ids at or above [nextId] are unused. *)
Definition client_invariant (c : MCPTestClient.client) : Prop :=
  1 <= MCPTestClient.nextId c
  /\ (forall k cb, In (k, cb) (MCPTestClient.pending c) ->
      cb = {| MCPTestClient.timeout := k; MCPTestClient.promise := k |}
      /\ 1 <= k < MCPTestClient.nextId c
      /\ MCPTestClient.is_settled c k = false)
  /\ (forall x, In x (MCPTestClient.timers c) ->
        exists cb, In (MCPTestClient.handle x, cb) (MCPTestClient.pending c))
  /\ NoDup (map MCPTestClient.handle (MCPTestClient.timers c))
  /\ (forall k s, In (k, s) (MCPTestClient.settled c) -> k < MCPTestClient.nextId c).

(** The client once the response [message] has settled the call [id]. *)
Definition answered (id : Z) (message : value) (c : MCPTestClient.client)
  : MCPTestClient.client :=
  {| MCPTestClient.nextId := MCPTestClient.nextId c;
     MCPTestClient.pending := filter (fun e => negb (fst e =? id)) (MCPTestClient.pending c);
     MCPTestClient.stdoutBuffer := MCPTestClient.stdoutBuffer c;
     MCPTestClient.timers :=
       filter (fun t => negb (MCPTestClient.handle t =? id)) (MCPTestClient.timers c);
     MCPTestClient.settled := MCPTestClient.settled c ++ [(id, MCPTestClient.Resolved message)];
     MCPTestClient.stdin := MCPTestClient.stdin c;
     MCPTestClient.now := MCPTestClient.now c |}.

(** The callbacks of the timers [fired], run in order. *)
Definition fire (fired : list MCPTestClient.timer) (c : MCPTestClient.client)
  : MCPTestClient.client :=
  fold_left
    (fun c x => MCPTestClient.on_timeout (MCPTestClient.handle x)
                  (MCPTestClient.waiting_for x) c)
    fired c.

(** The loop of the exit handler over the entries [entries]. *)
Definition reject_all (code : value) (entries : list (Z * MCPTestClient.callbacks))
  (c : MCPTestClient.client) : MCPTestClient.client :=
  fold_left
    (fun c e => MCPTestClient.reject (snd e) (MCPTestClient.ServerExited (fst e) code) c)
    entries c.

(** A computation that keeps the property [I] of the connection. *)
Definition preserves (I : world -> Prop) {A : Type} (c : M A) : Prop :=
  forall w o w', I w -> c w = (o, w') -> I w'.

(** The server that has received the chunks [chunks], from its start on
    the connection [w]. *)
Definition received (P : platform) (w : world) (chunks : list string) : MCPServer.server :=
  fold_left (fun s chunk => MCPServer.on_data P chunk s) chunks (MCPServer.start w).

(** A computation that leaves the stored tables as they are. *)
Definition reads_only {A : Type} (c : M A) : Prop :=
  forall w o w', c w = (o, w') -> store w' = store w.

(** A computation whose every thrown error satisfies [Q]. *)
Definition throws_only (Q : error -> Prop) {A : Type} (c : M A) : Prop :=
  forall w e w', c w = (Throw e, w') -> Q e.

(** Not the error of the [default] branch of the tool switch. *)
Definition known_tool_error (e : error) : Prop :=
  match e with UnknownTool _ => False | _ => True end.

(** Why [handleMessage] throws for [message], when it does so before any
    tool is dispatched: the message is null, its method is none of the
    three, or it is a tools/call whose params is null. *)
Definition refused_before_dispatch (message : value) : option error :=
  match JS.get message "method", JS.get message "params" with
  | Ok (VStr m), Ok params =>
      if String.eqb m "initialize" then None
      else if String.eqb m "tools/list" then None
      else if String.eqb m "tools/call"
           then if JS.is_null params then Some TypeError else None
      else Some (UnknownMethod (VStr m))
  | Ok method, Ok _ => Some (UnknownMethod method)
  | _, _ => Some TypeError
  end.

(** Primary keys: in each table the ids are distinct, positive, and not
    above the table's AUTOINCREMENT sequence. *)
Definition keys_in_sequence (d : Sqlite.database) : Prop :=
  NoDup (map Sqlite.p_id (Sqlite.projects d))
  /\ (forall p, In p (Sqlite.projects d) -> 0 < Sqlite.p_id p <= Sqlite.seq_projects d)
  /\ NoDup (map Sqlite.t_id (Sqlite.tasks d))
  /\ (forall t, In t (Sqlite.tasks d) -> 0 < Sqlite.t_id t <= Sqlite.seq_tasks d).

(** Both sequences have reached at least the given values. *)
Definition sequences_from (projects tasks : Z) (w : world) : Prop :=
  projects <= Sqlite.seq_projects (store w) /\ tasks <= Sqlite.seq_tasks (store w).

(** Every row was created no later than it was last updated, and updated
    no later than the present. *)
Definition timestamps_ordered (P : platform) (w : world) : Prop :=
  (forall p, In p (Sqlite.projects (store w)) ->
     Sqlite.p_created_at p <= Sqlite.p_updated_at p <= CURRENT_TIMESTAMP P (statements w))
  /\ (forall t, In t (Sqlite.tasks (store w)) ->
        Sqlite.t_created_at t <= Sqlite.t_updated_at t <= CURRENT_TIMESTAMP P (statements w)).

(** The columns of a task that update_task can write, by name. *)
Definition task_column (column : string) (t : Sqlite.task) : Sqlite.sqlval :=
  if String.eqb column "status" then Sqlite.t_status t
  else if String.eqb column "notes" then Sqlite.t_notes t
  else if String.eqb column "priority" then Sqlite.t_priority t
  else if String.eqb column "category" then Sqlite.t_category t
  else if String.eqb column "description" then Sqlite.t_description t
  else if String.eqb column "assignee" then Sqlite.t_assignee t
  else if String.eqb column "due_date" then Sqlite.t_due_date t
  else Sqlite.SNull.


(** The NOT NULL and CHECK constraints of schema.sql hold of every row. *)
Definition constraints_hold (d : Sqlite.database) : Prop :=
  (forall p, In p (Sqlite.projects d) -> Sqlite.project_violation p = None)
  /\ (forall t, In t (Sqlite.tasks d) -> Sqlite.task_violation t = None).





(** Largest key first. *)
Definition descending {A : Type} (key : A -> Z) (l : list A) : Prop :=
  StronglySorted (fun a b => key b <= key a) l.

(** The column of a task that a filter of get_tasks is compared with. *)
Definition filtered_column (filter : string) (t : Sqlite.task) : Sqlite.sqlval :=
  if String.eqb filter "project_id" then Sqlite.t_project_id t else task_column filter t.

(** The task [t] passes the filters [args] of get_tasks: every filter
    that is given a truthy value equals the task's column, and a truthy
    search is found in the description or in the notes. *)
Definition passes_filters (P : platform) (args : value) (t : Sqlite.task) : Prop :=
  (forall k v,
      In k ["project_id"; "status"; "priority"; "category"; "assignee"]%string ->
      JS.get args k = Ok v -> JS.truthy v = true ->
      Sqlite.sql_eq (filtered_column k t) (Database.bind_param P v) = true)
  /\ (forall v,
         JS.get args "search" = Ok v -> JS.truthy v = true ->
         Database.like P ("%" ++ Database.template P v ++ "%") (Sqlite.t_description t)
         || Database.like P ("%" ++ Database.template P v ++ "%") (Sqlite.t_notes t) = true).

(** The project passes the client filter of list_projects: a truthy
    client must equal the project's. *)
Definition of_client (P : platform) (client : value) (p : Sqlite.project) : bool :=
  if JS.truthy client then Sqlite.sql_eq (Sqlite.p_client p) (Database.bind_param P client)
  else true.

(** The sum of the six counts by status. *)
Definition by_status (pending in_progress developed tested deployed blocked : Z) : Z :=
  pending + in_progress + developed + tested + deployed + blocked.

(** How many of the tasks have no status, and how many no priority. *)
Definition without_status (ts : list Sqlite.task) : Z :=
  Sqlite.count (fun t => Sqlite.is_null (Sqlite.t_status t)) ts.

Definition without_priority (ts : list Sqlite.task) : Z :=
  Sqlite.count (fun t => Sqlite.is_null (Sqlite.t_priority t)) ts.


(** The call [id] is settled, or its timer is still armed and due at
    [deadline], a time that has not come yet. *)
Definition settled_or_armed (id deadline : Z) (c : MCPTestClient.client) : Prop :=
  MCPTestClient.is_settled c id = true
  \/ (MCPTestClient.now c < deadline
      /\ exists tm, In tm (MCPTestClient.timers c)
                    /\ MCPTestClient.handle tm = id /\ MCPTestClient.due tm = deadline).





(* ====================================================================== *)
(** ** Proof support *)

Ltac inv H := inversion H; subst; clear H.

(** Case analysis on the computation a hypothesis equates with a result. *)
Ltac run_hyp H :=
  repeat (cbv beta iota in H;
          match type of H with
          | (let (_, _) := ?x in _) = _ => destruct x eqn:?
          | (match ?x with _ => _ end) = _ => destruct x eqn:?; try discriminate H
          | (match ?x with _ => _ end _) = _ => destruct x eqn:?; try discriminate H
          | (if ?x then _ else _) = _ => destruct x eqn:?; try discriminate H
          end).

Lemma existsb_eqb_In (f : string) (l : list string) :
  existsb (String.eqb f) l = true <-> In f l.
Proof.
  rewrite existsb_exists. split.
  - intros [x [Hin Heq]]. apply String.eqb_eq in Heq. now subst.
  - intros Hin. exists f. split; [assumption | apply String.eqb_refl].
Qed.

Lemma setClause_nil (P : platform) (allowed : list string) (updates : list (string * value)) :
  no_allowed_field allowed updates -> Database.setClause P allowed updates = [].
Proof.
  induction updates as [| [f v] rest IH]; intros Hno; simpl.
  - reflexivity.
  - destruct (existsb (String.eqb f) allowed) eqn:E.
    + apply existsb_eqb_In in E. exfalso. apply (Hno f v); [now left | assumption].
    + apply IH. intros f' v' Hin. apply (Hno f' v'). now right.
Qed.

(* ====================================================================== *)
(** ** Partial updates *)

(** C3: an update whose mapping holds no whitelisted field fails with
    'No valid fields to update' and runs no statement: the connection is
    exactly as before.  The same holds of [updateProject] and of
    [updateTask]. *)
Theorem C3_update_without_allowed_field_fails
  (P : platform) (id : value) (updates : list (string * value)) (w : world) :
  (no_allowed_field Database.project_allowedFields updates ->
   Database.updateProject P id updates w = (Throw NoValidFields, w))
  /\ (no_allowed_field Database.task_allowedFields updates ->
      Database.updateTask P id updates w = (Throw NoValidFields, w)).
Proof.
  split; intros Hno.
  - unfold Database.updateProject.
    rewrite (setClause_nil P _ _ Hno). reflexivity.
  - unfold Database.updateTask.
    rewrite (setClause_nil P _ _ Hno). reflexivity.
Qed.

Lemma C3_witness :
  let updates := [("id", number 7); ("title", VStr "x")]%string in
  let w := {| store := Sqlite.empty; statements := 0 |} in
  Database.updateProject (Reference.node 0) (number 7) updates w = (Throw NoValidFields, w)
  /\ Database.updateTask (Reference.node 0) (number 7) updates w = (Throw NoValidFields, w).
Proof.
  cbv zeta.
  split;
    apply (C3_update_without_allowed_field_fails (Reference.node 0) (number 7)
             [("id", number 7); ("title", VStr "x")]%string
             {| store := Sqlite.empty; statements := 0 |});
    intros f v [H | [H | []]]; inv H; simpl; intuition discriminate.
Defined.

(* ====================================================================== *)
(** ** Framing: the line loop *)

Lemma append_empty_r (s : string) : (s ++ EmptyString)%string = s.
Proof. induction s as [| a r IH]; simpl; [reflexivity | now rewrite IH]. Qed.

Lemma length_append (a b : string) :
  String.length (a ++ b) = (String.length a + String.length b)%nat.
Proof. induction a as [| c r IH]; simpl; [reflexivity | now rewrite IH]. Qed.

Lemma indexOf_first_line (line rest : string) :
  Str.indexOf Str.LF line = None ->
  Str.indexOf Str.LF (line ++ String Str.LF rest) = Some (String.length line).
Proof.
  induction line as [| a r IH]; cbn [Str.indexOf append String.length]; intros H.
  - rewrite Ascii.eqb_refl. reflexivity.
  - destruct (Ascii.eqb a Str.LF); [discriminate |].
    destruct (Str.indexOf Str.LF r); [discriminate |].
    now rewrite IH.
Qed.

Lemma slice_to_first_line (line rest : string) :
  Str.slice_to (String.length line) (line ++ rest) = line.
Proof.
  induction line as [| a r IH]; simpl.
  - destruct rest; reflexivity.
  - now rewrite IH.
Qed.

Lemma slice_from_first_line (line rest : string) :
  Str.slice_from (S (String.length line)) (line ++ String Str.LF rest) = rest.
Proof. induction line as [| a r IH]; simpl; [reflexivity | assumption]. Qed.

Lemma slice_from_shorter (n : nat) (s : string) :
  (String.length (Str.slice_from n s) <= String.length s)%nat.
Proof.
  revert s. induction n as [| n IH]; intros [| a r]; simpl; try lia.
  specialize (IH r). lia.
Qed.

Lemma slice_from_S_shorter (n : nat) (s : string) :
  Str.indexOf Str.LF s = Some n ->
  (String.length (Str.slice_from (S n) s) < String.length s)%nat.
Proof.
  destruct s as [| a r]; simpl; [discriminate |].
  intros _. pose proof (slice_from_shorter n r). lia.
Qed.

(** The loop ends within the fuel [on_data] gives it, and more fuel changes
    nothing. *)
Lemma lines_fuel (P : platform) (n m : nat) (s : MCPServer.server) :
  (String.length (MCPServer.inputBuffer s) < n)%nat ->
  (String.length (MCPServer.inputBuffer s) < m)%nat ->
  MCPServer.lines P n s = MCPServer.lines P m s
  /\ exists r, MCPServer.lines P n s = Some r.
Proof.
  revert m s. induction n as [| n IH]; intros m s Hn Hm; [lia |].
  destruct m as [| m]; [lia |].
  cbn [MCPServer.lines].
  destruct (Str.indexOf Str.LF (MCPServer.inputBuffer s)) as [i |] eqn:Ei.
  2: { split; [reflexivity | eexists; reflexivity]. }
  pose proof (slice_from_S_shorter _ _ Ei) as Hlt.
  destruct (Str.is_empty (Str.trim (Str.slice_to i (MCPServer.inputBuffer s)))).
  { apply IH; cbn [MCPServer.inputBuffer]; lia. }
  destruct (JSON_parse P _) as [message |].
  2: { split; [reflexivity | eexists; reflexivity]. }
  cbn [MCPServer.inputBuffer MCPServer.db MCPServer.stdout].
  destruct (MCPServer.handleMessage P message (MCPServer.db s)) as [[r | e] w].
  - apply IH; cbn [MCPServer.inputBuffer MCPServer.sendResponse]; lia.
  - split; [reflexivity | eexists; reflexivity].
Qed.

(** The try block and its catch, on a server whose buffer already holds
    the chunk: what [on_data] does after appending. *)
Lemma on_data_empty_chunk (P : platform) (s fallback : MCPServer.server) (n : nat) :
  (String.length (MCPServer.inputBuffer s) < n)%nat ->
  match MCPServer.lines P n s with
  | Some (Ok _, s') => s'
  | Some (Throw e, s') => MCPServer.sendError e VNull s'
  | None => fallback
  end = MCPServer.on_data P EmptyString s.
Proof.
  intros Hn. unfold MCPServer.on_data.
  cbn [MCPServer.inputBuffer MCPServer.db MCPServer.stdout].
  rewrite append_empty_r.
  destruct s as [w b out]; cbn [MCPServer.inputBuffer MCPServer.db MCPServer.stdout] in *.
  destruct (lines_fuel P (S (String.length b)) n
              {| MCPServer.db := w; MCPServer.inputBuffer := b; MCPServer.stdout := out |})
    as [E [r Er]]; cbn [MCPServer.inputBuffer]; [lia | lia |].
  rewrite <- E, Er. reflexivity.
Qed.

Lemma on_data_first_line (P : platform) (s : MCPServer.server) (chunk line rest : string) :
  (MCPServer.inputBuffer s ++ chunk)%string = (line ++ newline ++ rest)%string ->
  Str.indexOf Str.LF line = None ->
  first_line P s line rest (MCPServer.on_data P chunk s).
Proof.
  intros Hbuf Hline.
  change (line ++ newline ++ rest)%string with (line ++ String Str.LF rest)%string in Hbuf.
  unfold MCPServer.on_data. simpl MCPServer.inputBuffer. rewrite Hbuf.
  cbn [MCPServer.lines MCPServer.inputBuffer MCPServer.db MCPServer.stdout].
  rewrite (indexOf_first_line line rest Hline).
  rewrite slice_to_first_line, slice_from_first_line.
  assert (Hfuel : (String.length rest < String.length (line ++ String Str.LF rest))%nat).
  { rewrite length_append. simpl. lia. }
  destruct (Str.is_empty (Str.trim line)) eqn:Eempty.
  { rewrite on_data_empty_chunk by (simpl; exact Hfuel).
    apply line_blank; assumption. }
  destruct (JSON_parse P (Str.trim line)) as [message |] eqn:Eparse.
  2: { apply line_malformed; assumption. }
  destruct (MCPServer.handleMessage P message (MCPServer.db s)) as [[r | e] w] eqn:Eh.
  - cbn [MCPServer.inputBuffer MCPServer.db MCPServer.stdout].
    rewrite on_data_empty_chunk by (simpl; exact Hfuel).
    apply (line_answered P s line rest message r w); assumption.
  - apply (line_refused P s line rest message e w); assumption.
Qed.

Lemma on_data_idle (P : platform) (s : MCPServer.server) :
  Str.indexOf Str.LF (MCPServer.inputBuffer s) = None ->
  MCPServer.on_data P EmptyString s = s.
Proof.
  intros H. unfold MCPServer.on_data.
  cbn [MCPServer.inputBuffer MCPServer.db MCPServer.stdout MCPServer.lines].
  rewrite append_empty_r, H. destruct s; reflexivity.
Qed.


Lemma first_line_answered (P : platform) (s s' : MCPServer.server) (line rest : string)
  (message : value) (r : MCPServer.response) (w : world) :
  first_line P s line rest s' ->
  Str.is_empty (Str.trim line) = false ->
  JSON_parse P (Str.trim line) = Some message ->
  MCPServer.handleMessage P message (MCPServer.db s) = (Ok r, w) ->
  s' = MCPServer.on_data P EmptyString
         (MCPServer.sendResponse r
            {| MCPServer.db := w; MCPServer.inputBuffer := rest;
               MCPServer.stdout := MCPServer.stdout s |}).
Proof.
  intros H He Hp Hh. inv H; congruence.
Qed.

(* ====================================================================== *)
(** ** Malformed input *)




(* ====================================================================== *)
(** ** Tool calls are always answered *)

Lemma get_of_object (params : value) (k : string) :
  is_object params = true -> exists v, JS.get params k = Ok v.
Proof. destruct params; simpl; try discriminate; eexists; reflexivity. Qed.

Lemma handleToolCall_answers (P : platform) (params id : value) (w : world) :
  is_object params = true ->
  exists r w',
    MCPServer.handleToolCall P params id w = (Ok r, w')
    /\ MCPServer.id r = id
    /\ well_formed_response r = true.
Proof.
  intros Hobj.
  destruct (get_of_object params "name" Hobj) as [name Hname].
  destruct (get_of_object params "arguments" Hobj) as [args Hargs].
  unfold MCPServer.handleToolCall, bind, lift, try_catch, ret.
  rewrite Hname, Hargs.
  destruct (MCPServer.tool P name args w) as [[res | e] w'];
    eexists; eexists; (split; [reflexivity | split; reflexivity]).
Qed.

(** C10: a tools/call whose params is an object is answered, whatever the
    tool name and the arguments are and whatever the handler throws:
    [handleToolCall] returns a response with the id it was given and
    either a result or an error of code -32000; the line that carried the
    request gets that one response written, and the handler goes on with
    what follows in the buffer. *)
Theorem C10_tool_call_gets_exactly_one_response (P : platform) :
  (forall (params id : value) (w : world),
      is_object params = true ->
      exists r w',
        MCPServer.handleToolCall P params id w = (Ok r, w')
        /\ MCPServer.id r = id
        /\ well_formed_response r = true)
  /\ (forall (s : MCPServer.server) (chunk line rest : string) (message params : value),
         (MCPServer.inputBuffer s ++ chunk)%string = (line ++ newline ++ rest)%string ->
         Str.indexOf Str.LF line = None ->
         Str.is_empty (Str.trim line) = false ->
         JSON_parse P (Str.trim line) = Some message ->
         JS.get message "method" = Ok (VStr "tools/call") ->
         JS.get message "params" = Ok params ->
         is_object (Database.default (VObj []) params) = true ->
         exists r w',
           JS.get message "id" = Ok (MCPServer.id r)
           /\ well_formed_response r = true
           /\ MCPServer.on_data P chunk s =
              MCPServer.on_data P EmptyString
                {| MCPServer.db := w'; MCPServer.inputBuffer := rest;
                   MCPServer.stdout := MCPServer.stdout s ++ [r] |}
           /\ (Str.indexOf Str.LF rest = None ->
               MCPServer.stdout (MCPServer.on_data P chunk s) = MCPServer.stdout s ++ [r])).
Proof.
  split; [apply handleToolCall_answers |].
  intros s chunk line rest message params Hbuf Hline Hne Hparse Hmethod Hparams Hobj.
  assert (Hid : exists id, JS.get message "id" = Ok id).
  { destruct message; simpl in Hmethod |- *; try discriminate; eexists; reflexivity. }
  destruct Hid as [id Hid].
  destruct (handleToolCall_answers P _ id (MCPServer.db s) Hobj) as (r & w' & Hcall & Hrid & Hwf).
  assert (Hh : MCPServer.handleMessage P message (MCPServer.db s) = (Ok r, w')).
  { unfold MCPServer.handleMessage, bind, lift.
    rewrite Hmethod, Hparams, Hid. simpl. exact Hcall. }
  pose proof (on_data_first_line P s chunk line rest Hbuf Hline) as Hfirst.
  apply (first_line_answered P _ _ _ _ message r w') in Hfirst; try assumption.
  exists r, w'. subst id.
  split; [exact Hid | split; [exact Hwf |]].
  split; [exact Hfirst |].
  intros Hrest. rewrite Hfirst, on_data_idle by exact Hrest. reflexivity.
Qed.

Lemma C10_witness :
  let line := Json.text
    "{'jsonrpc':'2.0','id':7,'method':'tools/call','params':{'name':'no_such_tool','arguments':5}}" in
  let message := match Json.parse line with Some m => m | None => VNull end in
  exists r w',
    JS.get message "id" = Ok (MCPServer.id r)
    /\ well_formed_response r = true
    /\ MCPServer.on_data (Reference.node 1000) (line ++ newline) example_server =
       MCPServer.on_data (Reference.node 1000) EmptyString
         {| MCPServer.db := w'; MCPServer.inputBuffer := EmptyString;
            MCPServer.stdout := MCPServer.stdout example_server ++ [r] |}
    /\ (Str.indexOf Str.LF EmptyString = None ->
        MCPServer.stdout (MCPServer.on_data (Reference.node 1000) (line ++ newline) example_server)
        = MCPServer.stdout example_server ++ [r]).
Proof.
  intros line message.
  apply (proj2 (C10_tool_call_gets_exactly_one_response (Reference.node 1000))
           example_server (line ++ newline)%string line EmptyString message
           (VObj [("name", VStr "no_such_tool"); ("arguments", number 5)]%string));
    vm_compute; reflexivity.
Defined.

(* ====================================================================== *)
(** ** Identifiers *)

Lemma validateId_number (id : value) (f : string) :
  MCPServer.validateId id f = Ok tt ->
  exists q, id = VNum q /\ Qle_bool q 0 = false /\ JS.Number_isInteger q = true.
Proof.
  unfold MCPServer.validateId. destruct id; try discriminate.
  destruct (Qle_bool q 0) eqn:E1; [discriminate |].
  destruct (JS.Number_isInteger q) eqn:E2; [| discriminate].
  intros _. exists q. auto.
Qed.

(** A validated id is a positive whole number: it is truthy and is bound
    as an INTEGER. *)
Lemma validateId_bind (P : platform) (id : value) (f : string) :
  MCPServer.validateId id f = Ok tt ->
  JS.truthy id = true
  /\ JS.is_undefined id = false
  /\ exists n, 0 < n /\ Database.bind_param P id = Sqlite.SInt n.
Proof.
  intros H. destruct (validateId_number id f H) as (q & -> & Hpos & Hint).
  assert (Hq : (0 < Qnum q)).
  { destruct (Z_lt_le_dec 0 (Qnum q)) as [Hlt | Hle]; [assumption |].
    assert (Hle' : (q <= 0)%Q) by (unfold Qle; simpl; lia).
    apply Qle_bool_iff in Hle'. congruence. }
  simpl. rewrite Hint. repeat split.
  - apply negb_true_iff. apply Z.eqb_neq. lia.
  - exists (JS.to_int q). split; [| reflexivity].
    unfold JS.to_int, JS.Number_isInteger in *.
    apply Z.eqb_eq in Hint.
    pose proof (Z.div_mod (Qnum q) (Zpos (Qden q)) ltac:(lia)) as Hdm.
    rewrite Hint in Hdm.
    assert (0 < Zpos (Qden q)) by lia. nia.
Qed.

Lemma validateId_independent_of_name (id : value) (f g : string) :
  MCPServer.validateId id f = Ok tt -> MCPServer.validateId id g = Ok tt.
Proof.
  unfold MCPServer.validateId. destruct id; try discriminate.
  destruct (Qle_bool q 0 || negb (JS.Number_isInteger q)); [discriminate | reflexivity].
Qed.

Lemma bind_number (P : platform) (n : Z) :
  Database.bind_param P (number n) = Sqlite.SInt n.
Proof.
  unfold number, Database.bind_param, JS.Number_isInteger, JS.to_int. simpl.
  rewrite Z.mod_1_r, Z.div_1_r. reflexivity.
Qed.

(* ====================================================================== *)
(** ** Cascading delete *)

Lemma existsb_constant {A : Type} (f : A -> bool) (c : bool) (l : list A) :
  l <> [] -> (forall x, In x l -> f x = c) -> existsb f l = c.
Proof.
  induction l as [| a r IH]; intros Hne Hall; [congruence |].
  simpl. rewrite (Hall a (or_introl eq_refl)).
  destruct c; [reflexivity |]. simpl.
  destruct r as [| b r']; [reflexivity |].
  apply IH; [discriminate |]. intros x Hx. apply Hall. now right.
Qed.

Lemma filter_filter_nil {A : Type} (f g : A -> bool) (l : list A) :
  (forall x, g x = true -> f x = false) -> filter f (filter g l) = [].
Proof.
  intros H. induction l as [| a r IH]; simpl; [reflexivity |].
  destruct (g a) eqn:E; [| assumption].
  simpl. now rewrite (H a E).
Qed.

(** What a successful delete_project leaves in the store. *)
Lemma deleteProject_store (P : platform) (args idv : value) (r : MCPServer.tool_result)
  (w w' : world) :
  JS.get args "id" = Ok idv ->
  MCPServer.deleteProject P args w = (Ok r, w') ->
  MCPServer.validateId idv "Project ID" = Ok tt
  /\ Sqlite.tasks (store w') =
     filter (fun t => negb (Sqlite.task_of_project (Database.bind_param P idv) t))
       (Sqlite.tasks (store w))
  /\ Sqlite.projects (store w') =
     filter (fun p => negb (Sqlite.project_matches (Database.bind_param P idv) p))
       (Sqlite.projects (store w)).
Proof.
  intros Hget H.
  unfold MCPServer.deleteProject, bind, lift, ret, throw in H.
  rewrite Hget in H.
  destruct (MCPServer.validateId idv "Project ID") as [[] | e] eqn:Hv; [| discriminate].
  unfold Database.getProject, Database.query in H.
  destruct (Sqlite.select_project (Database.bind_param P idv) (store w)) as [p |] eqn:Hp;
    [| discriminate].
  unfold Database.deleteProject, bind, Database.run, ret in H.
  cbn [Sqlite.delete_project store statements] in H.
  inv H. cbn [store Sqlite.tasks Sqlite.projects].
  split; [reflexivity | split; [| reflexivity]].
  destruct (validateId_bind P idv _ Hv) as (_ & _ & n & _ & Hn). rewrite Hn in *.
  apply filter_ext. intros t. f_equal.
  apply existsb_constant.
  - unfold Sqlite.select_project in Hp. apply find_some in Hp.
    intros Hnil.
    assert (Hin : In p (filter (Sqlite.project_matches (Sqlite.SInt n))
                          (Sqlite.projects (store w)))).
    { apply filter_In. exact Hp. }
    rewrite Hnil in Hin. exact Hin.
  - intros x Hx. apply filter_In in Hx. destruct Hx as [_ Hx].
    unfold Sqlite.project_matches in Hx. simpl in Hx. apply Z.eqb_eq in Hx.
    now rewrite Hx.
Qed.

Lemma getTasks_of_project (P : platform) (args pid : value) (w : world) :
  JS.get args "project_id" = Ok pid ->
  MCPServer.validateId pid "Project ID" = Ok tt ->
  forall ts w', MCPServer.getTasks P args w = (Ok (MCPServer.TaskList ts), w') ->
  exists others,
    ts = Sqlite.select_tasks
           ((fun t => Sqlite.sql_eq (Sqlite.t_project_id t) (Database.bind_param P pid))
              :: others)
           (store w)
    /\ store w' = store w.
Proof.
  intros Hget Hv ts w' H.
  destruct (validateId_bind P pid _ Hv) as (Htruthy & Hdef & _).
  assert (Hobj : args <> VUndefined) by (intros ->; discriminate).
  unfold MCPServer.getTasks, bind, lift, ret in H.
  rewrite Hget in H.
  destruct (JS.get args "status") as [status |]; [| discriminate].
  destruct (JS.get args "priority") as [priority |]; [| discriminate].
  destruct (JS.get args "category") as [category |]; [| discriminate].
  destruct (JS.get args "assignee") as [assignee |]; [| discriminate].
  destruct (JS.get args "search") as [search |] eqn:Hsearch; [| discriminate].
  rewrite Hdef in H. cbn [negb] in H. rewrite Hv in H.
  destruct (MCPServer.validateStatus status) as [[] |]; [| discriminate].
  destruct (MCPServer.validatePriority priority) as [[] |]; [| discriminate].
  destruct (MCPServer.validateString category "Category" false) as [[] |]; [| discriminate].
  destruct (MCPServer.validateString assignee "Assignee" false) as [[] |]; [| discriminate].
  destruct (MCPServer.validateString search "Search" false) as [[] |]; [| discriminate].
  unfold Database.getTasks, bind, lift, Database.query in H.
  replace (Database.default (VObj []) args) with args in H
    by (destruct args; try reflexivity; congruence).
  rewrite Hget in H.
  destruct (JS.get args "status") as [status' |]; [| discriminate].
  destruct (JS.get args "priority") as [priority' |]; [| discriminate].
  destruct (JS.get args "category") as [category' |]; [| discriminate].
  destruct (JS.get args "assignee") as [assignee' |]; [| discriminate].
  rewrite Hsearch in H.
  rewrite Htruthy in H. cbn [app] in H.
  inv H. eexists. split; reflexivity.
Qed.

Lemma tool_get_tasks (P : platform) :
  MCPServer.tool P (VStr "get_tasks") = MCPServer.getTasks P.
Proof. reflexivity. Qed.

(** C4: after a successful delete_project the store holds no task of that
    project (the tasks that remain are exactly those of the other
    projects), and get_tasks filtered by that project id, whatever its
    other filters, returns the empty list. *)
Theorem C4_delete_project_removes_its_tasks
  (P : platform) (args idv : value) (r : MCPServer.tool_result) (w w' : world) :
  JS.get args "id" = Ok idv ->
  MCPServer.tool P (VStr "delete_project") args w = (Ok r, w') ->
  Sqlite.tasks (store w') =
    filter (fun t => negb (Sqlite.task_of_project (Database.bind_param P idv) t))
      (Sqlite.tasks (store w))
  /\ (forall t, In t (Sqlite.tasks (store w')) ->
                Sqlite.task_of_project (Database.bind_param P idv) t = false)
  /\ (exists w'',
        MCPServer.tool P (VStr "get_tasks") (VObj [("project_id", idv)]%string) w'
        = (Ok (MCPServer.TaskList []), w''))
  /\ (forall args2 ts w'',
        JS.get args2 "project_id" = Ok idv ->
        MCPServer.tool P (VStr "get_tasks") args2 w' = (Ok (MCPServer.TaskList ts), w'') ->
        ts = []).
Proof.
  intros Hget H.
  change (MCPServer.deleteProject P args w = (Ok r, w')) in H.
  destruct (deleteProject_store P args idv r w w' Hget H) as (Hv & Htasks & _).
  assert (Hnone : forall others,
             Sqlite.select_tasks
               ((fun t => Sqlite.sql_eq (Sqlite.t_project_id t) (Database.bind_param P idv))
                  :: others) (store w') = []).
  { intros others. unfold Sqlite.select_tasks. rewrite Htasks.
    rewrite filter_filter_nil; [reflexivity |].
    intros t Ht. apply negb_true_iff in Ht. simpl.
    unfold Sqlite.task_of_project in Ht. now rewrite Ht. }
  split; [exact Htasks |].
  split.
  { intros t Ht. rewrite Htasks in Ht. apply filter_In in Ht.
    destruct Ht as [_ Ht]. now apply negb_true_iff in Ht. }
  split.
  - destruct (validateId_bind P idv _ Hv) as (Htruthy & Hdef & _).
    eexists. rewrite tool_get_tasks.
    unfold MCPServer.getTasks, bind, lift, ret. simpl JS.get. cbv beta iota.
    rewrite Hdef. cbn [negb]. rewrite Hv. cbv beta iota.
    unfold Database.getTasks, bind, lift, Database.query. simpl JS.get. cbv beta iota.
    rewrite Htruthy. cbn [JS.truthy app Database.default JS.is_undefined].
    rewrite Hnone. reflexivity.
  - intros args2 ts w'' Hget2 H2.
    change (MCPServer.getTasks P args2 w' = (Ok (MCPServer.TaskList ts), w'')) in H2.
    destruct (getTasks_of_project P args2 idv w' Hget2 Hv ts w'' H2) as (others & -> & _).
    apply Hnone.
Qed.

Lemma C4_witness :
  exists w',
    MCPServer.tool (Reference.node 1000) (VStr "delete_project")
      (VObj [("id", number 1)]%string) example_world
    = (Ok (MCPServer.ProjectDeleted (Sqlite.SText "Smoke Project")), w')
    /\ Sqlite.tasks (store w') = []
    /\ exists w'',
         MCPServer.tool (Reference.node 1000) (VStr "get_tasks")
           (VObj [("project_id", number 1)]%string) w'
         = (Ok (MCPServer.TaskList []), w'').
Proof.
  eexists. split; [vm_compute; reflexivity |].
  split; [vm_compute; reflexivity |].
  refine (proj1 (proj2 (proj2
    (C4_delete_project_removes_its_tasks (Reference.node 1000)
       (VObj [("id", number 1)]%string) (number 1)
       (MCPServer.ProjectDeleted (Sqlite.SText "Smoke Project"))
       example_world _ eq_refl _)))).
  vm_compute; reflexivity.
Defined.

(* ====================================================================== *)
(** ** Creating a project and reading it back *)

Lemma max_id_bound (ids : list Z) (x : Z) : In x ids -> x <= Sqlite.max_id ids.
Proof.
  induction ids as [| a r IH]; simpl; intros H; [contradiction |].
  destruct H as [-> | H]; [lia | specialize (IH H); lia].
Qed.

Lemma next_rowid_fresh (seq : Z) (ids : list Z) (x : Z) :
  In x ids -> x < Sqlite.next_rowid seq ids.
Proof. intros H. apply max_id_bound in H. unfold Sqlite.next_rowid. lia. Qed.

Lemma find_last {A : Type} (f : A -> bool) (l : list A) (x : A) :
  (forall y, In y l -> f y = false) -> f x = true -> find f (l ++ [x]) = Some x.
Proof.
  intros Hl Hx. induction l as [| a r IH]; simpl.
  - now rewrite Hx.
  - rewrite (Hl a (or_introl eq_refl)). apply IH. intros y Hy. apply Hl. now right.
Qed.

(** C9: a project created with a text name and optional text client and
    description is found under the id [createProject] returned, and the
    row read back carries the name, client and description that were
    supplied (null where none was supplied). *)
Theorem C9_created_project_reads_back
  (P : platform) (name client description : value) (id : Z) (w w' : world) :
  JS.is_string name = true ->
  optional_text client = true ->
  optional_text description = true ->
  Database.createProject P name client description w = (Ok id, w') ->
  exists row w'',
    Database.getProject P (number id) w' = (Ok (Some row), w'')
    /\ Sqlite.p_id row = id
    /\ to_js (Sqlite.p_name row) = name
    /\ to_js (Sqlite.p_client row) = Database.default VNull client
    /\ to_js (Sqlite.p_description row) = Database.default VNull description.
Proof.
  intros Hname Hclient Hdescription H.
  destruct name as [| | | | name | | |]; try discriminate.
  unfold Database.createProject, bind, Database.run, ret in H.
  unfold Sqlite.insert_project, Sqlite.project_violation in H.
  cbn [Sqlite.p_name Database.bind_param Sqlite.is_null Sqlite.lastID] in H.
  inv H.
  unfold Database.getProject, Database.query. rewrite bind_number.
  unfold Sqlite.select_project. cbn [store Sqlite.projects].
  eexists. eexists. split.
  - rewrite find_last; [reflexivity | |].
    + intros p Hp. unfold Sqlite.project_matches. simpl. apply Z.eqb_neq.
      pose proof (next_rowid_fresh (Sqlite.seq_projects (store w))
                    (map Sqlite.p_id (Sqlite.projects (store w))) (Sqlite.p_id p)
                    (in_map Sqlite.p_id _ _ Hp)).
      lia.
    + unfold Sqlite.project_matches. simpl. apply Z.eqb_refl.
  - cbn [Sqlite.p_id Sqlite.p_name Sqlite.p_client Sqlite.p_description].
    repeat split.
    + destruct client; try discriminate; reflexivity.
    + destruct description; try discriminate; reflexivity.
Qed.

Lemma C9_witness :
  exists row w'',
    Database.getProject (Reference.node 1000) (number 2)
      (snd (Database.createProject (Reference.node 1000)
              (VStr "Second") VUndefined (VStr "with a description") example_world))
    = (Ok (Some row), w'')
    /\ Sqlite.p_id row = 2
    /\ to_js (Sqlite.p_name row) = VStr "Second"
    /\ to_js (Sqlite.p_client row) = VNull
    /\ to_js (Sqlite.p_description row) = VStr "with a description".
Proof.
  apply (C9_created_project_reads_back (Reference.node 1000)
           (VStr "Second") VUndefined (VStr "with a description") 2 example_world
           _ eq_refl eq_refl eq_refl).
  vm_compute; reflexivity.
Defined.

(* ====================================================================== *)
(** ** Project summary *)






(* ====================================================================== *)
(** ** Validation of status and priority *)

Lemma validateId_error (id : value) (f : string) (e : error) :
  MCPServer.validateId id f = Throw e -> is_validation_error e = true.
Proof.
  unfold MCPServer.validateId. destruct id; try (intros H; inv H; reflexivity).
  destruct (Qle_bool q 0 || negb (JS.Number_isInteger q)); intros H; inv H; reflexivity.
Qed.

Lemma validateString_error (v : value) (f : string) (required : bool) (e : error) :
  MCPServer.validateString v f required = Throw e -> is_validation_error e = true.
Proof.
  unfold MCPServer.validateString.
  destruct (required && _); [intros H; inv H; reflexivity |].
  destruct (negb required && _ && _ && _); intros H; inv H; reflexivity.
Qed.

Lemma validateStatus_error (v : value) (e : error) :
  MCPServer.validateStatus v = Throw e -> is_validation_error e = true.
Proof.
  unfold MCPServer.validateStatus. destruct (_ && _); intros H; inv H; reflexivity.
Qed.

Lemma validatePriority_error (v : value) (e : error) :
  MCPServer.validatePriority v = Throw e -> is_validation_error e = true.
Proof.
  unfold MCPServer.validatePriority. destruct (_ && _); intros H; inv H; reflexivity.
Qed.

Lemma validateStatus_rejects (v : value) :
  JS.truthy v = true -> JS.includes MCPServer.validStatuses v = false ->
  MCPServer.validateStatus v = Throw (InvalidStatus v).
Proof. intros Ht Hi. unfold MCPServer.validateStatus. now rewrite Ht, Hi. Qed.

Lemma validatePriority_rejects (v : value) :
  JS.truthy v = true -> JS.includes MCPServer.validPriorities v = false ->
  MCPServer.validatePriority v = Throw (InvalidPriority v).
Proof. intros Ht Hi. unfold MCPServer.validatePriority. now rewrite Ht, Hi. Qed.

Create HintDb validation.
#[local] Hint Resolve validateId_error validateString_error validateStatus_error
  validatePriority_error : validation.

(** A truthy property was read from an object. *)
Lemma truthy_property (args v : value) (k : string) :
  JS.get args k = Ok v -> JS.truthy v = true -> String.eqb k "search" = false ->
  exists props, args = VObj props /\ JS.lookup k props = v.
Proof.
  intros Hget Ht Hk. destruct args; simpl in Hget; try discriminate.
  - inv Hget. discriminate.
  - inv Hget. discriminate.
  - rewrite Hk in Hget. inv Hget. discriminate.
  - inv Hget. discriminate.
  - inv Hget. eexists. split; reflexivity.
  - inv Hget. discriminate.
Qed.

Lemma status_rejected (P : platform) (args v : value) (w : world) :
  JS.get args "status" = Ok v ->
  JS.truthy v = true ->
  JS.includes MCPServer.validStatuses v = false ->
  (exists e, MCPServer.updateTask P args w = (Throw e, w) /\ is_validation_error e = true)
  /\ (exists e, MCPServer.getTasks P args w = (Throw e, w) /\ is_validation_error e = true).
Proof.
  intros Hget Ht Hi.
  destruct (truthy_property args v _ Hget Ht eq_refl) as (props & -> & Hv).
  pose proof (validateStatus_rejects v Ht Hi) as Hreject. rewrite <- Hv in Hreject.
  split.
  - unfold MCPServer.updateTask, bind, lift. simpl JS.get. cbv beta iota.
    destruct (MCPServer.validateId (JS.lookup "id" props) "Case ID") as [[] | e] eqn:E;
      [| eexists; split; [reflexivity | eauto with validation]].
    rewrite Hreject. eexists; split; [reflexivity | reflexivity].
  - unfold MCPServer.getTasks, bind, lift, ret. simpl JS.get. cbv beta iota.
    destruct (negb (JS.is_undefined (JS.lookup "project_id" props))).
    + destruct (MCPServer.validateId (JS.lookup "project_id" props) "Project ID")
        as [[] | e] eqn:E; [| eexists; split; [reflexivity | eauto with validation]].
      rewrite Hreject. eexists; split; [reflexivity | reflexivity].
    + rewrite Hreject. eexists; split; [reflexivity | reflexivity].
Qed.

Lemma priority_rejected (P : platform) (args v : value) (w : world) :
  JS.get args "priority" = Ok v ->
  JS.truthy v = true ->
  JS.includes MCPServer.validPriorities v = false ->
  (exists e, MCPServer.addTask P args w = (Throw e, w) /\ is_validation_error e = true)
  /\ (exists e, MCPServer.updateTask P args w = (Throw e, w) /\ is_validation_error e = true)
  /\ (exists e, MCPServer.getTasks P args w = (Throw e, w) /\ is_validation_error e = true).
Proof.
  intros Hget Ht Hi.
  destruct (truthy_property args v _ Hget Ht eq_refl) as (props & -> & Hv).
  pose proof (validatePriority_rejects v Ht Hi) as Hreject. rewrite <- Hv in Hreject.
  assert (Hdef : Database.default (VStr "medium") (JS.lookup "priority" props)
                 = JS.lookup "priority" props).
  { rewrite Hv. destruct v; try reflexivity; discriminate. }
  split; [| split].
  - unfold MCPServer.addTask, bind, lift. simpl JS.get. cbv beta iota zeta.
    rewrite Hdef.
    destruct (MCPServer.validateId (JS.lookup "project_id" props) "Project ID")
      as [[] | e] eqn:E; [| eexists; split; [reflexivity | eauto with validation]].
    destruct (MCPServer.validateString (JS.lookup "description" props) "Description" true)
      as [[] | e] eqn:E'; [| eexists; split; [reflexivity | eauto with validation]].
    rewrite Hreject. eexists; split; [reflexivity | reflexivity].
  - unfold MCPServer.updateTask, bind, lift. simpl JS.get. cbv beta iota.
    destruct (MCPServer.validateId (JS.lookup "id" props) "Case ID") as [[] | e] eqn:E;
      [| eexists; split; [reflexivity | eauto with validation]].
    destruct (MCPServer.validateStatus (JS.lookup "status" props)) as [[] | e] eqn:E';
      [| eexists; split; [reflexivity | eauto with validation]].
    rewrite Hreject. eexists; split; [reflexivity | reflexivity].
  - unfold MCPServer.getTasks, bind, lift, ret. simpl JS.get. cbv beta iota.
    destruct (negb (JS.is_undefined (JS.lookup "project_id" props))).
    + destruct (MCPServer.validateId (JS.lookup "project_id" props) "Project ID")
        as [[] | e] eqn:E; [| eexists; split; [reflexivity | eauto with validation]].
      destruct (MCPServer.validateStatus (JS.lookup "status" props)) as [[] | e] eqn:E';
        [| eexists; split; [reflexivity | eauto with validation]].
      rewrite Hreject. eexists; split; [reflexivity | reflexivity].
    + destruct (MCPServer.validateStatus (JS.lookup "status" props)) as [[] | e] eqn:E';
        [| eexists; split; [reflexivity | eauto with validation]].
      rewrite Hreject. eexists; split; [reflexivity | reflexivity].
Qed.

Lemma lookup_define_other (k k' : string) (v : value) (props : list (string * value)) :
  String.eqb k k' = false ->
  JS.lookup k (Json.define k' v props) = JS.lookup k props.
Proof.
  intros Hk. induction props as [| [k0 v0] r IH]; simpl.
  - now rewrite Hk.
  - destruct (String.eqb k' k0) eqn:E; simpl.
    + apply String.eqb_eq in E. subst k0. now rewrite Hk.
    + now rewrite IH.
Qed.

(** [addTask] reads no status, so it does the same with one and without. *)
Lemma addTask_ignores_status (P : platform) (props : list (string * value)) (v : value) :
  MCPServer.addTask P (VObj (Json.define "status" v props))
  = MCPServer.addTask P (VObj props).
Proof.
  unfold MCPServer.addTask. cbn [JS.get].
  now rewrite !lookup_define_other by reflexivity.
Qed.

(** C2 as the code has it: a truthy status outside the enumeration, given
    to update_task or get_tasks, and a truthy priority outside the
    enumeration, given to add_task, update_task or get_tasks, make the
    handler throw a validation error before any statement is run; the
    dispatcher answers with the error envelope and the connection is
    exactly as before.  add_task reads no status: whatever status its
    arguments carry, it does what it does without one. *)
Theorem C2_truthy_values_outside_the_enumerations_are_rejected
  (P : platform) (params args v id : value) (name : string) (w : world) :
  JS.get params "name" = Ok (VStr name) ->
  JS.get params "arguments" = Ok args ->
  JS.truthy v = true ->
  (JS.get args "status" = Ok v
   /\ JS.includes MCPServer.validStatuses v = false
   /\ In name ["update_task"; "get_tasks"]%string)
  \/ (JS.get args "priority" = Ok v
      /\ JS.includes MCPServer.validPriorities v = false
      /\ In name ["add_task"; "update_task"; "get_tasks"]%string) ->
  (exists e,
      is_validation_error e = true
      /\ MCPServer.handleToolCall P params id w = (Ok (rejection id e), w))
  /\ (forall props status,
         MCPServer.tool P (VStr "add_task") (VObj (Json.define "status" status props))
         = MCPServer.tool P (VStr "add_task") (VObj props)).
Proof.
  intros Hname Hargs Ht Hcase.
  split; [| intros props status; exact (addTask_ignores_status P props status)].
  assert (Htool : exists e, MCPServer.tool P (VStr name) args w = (Throw e, w)
                            /\ is_validation_error e = true).
  { destruct Hcase as [(Hget & Hi & Hin) | (Hget & Hi & Hin)].
    - destruct (status_rejected P args v w Hget Ht Hi) as (Hu & Hg).
      destruct Hin as [<- | [<- | []]]; assumption.
    - destruct (priority_rejected P args v w Hget Ht Hi) as (Ha & Hu & Hg).
      destruct Hin as [<- | [<- | [<- | []]]]; assumption. }
  destruct Htool as (e & Htool & He).
  exists e. split; [exact He |].
  unfold MCPServer.handleToolCall, bind, lift, try_catch, ret.
  rewrite Hname, Hargs, Htool. reflexivity.
Qed.

Lemma C2_witness :
  exists e,
    is_validation_error e = true
    /\ MCPServer.handleToolCall (Reference.node 1000)
         (VObj [("name", VStr "update_task");
                ("arguments", VObj [("id", number 1); ("status", VStr "done")])]%string)
         (number 9) example_world
       = (Ok (rejection (number 9) e), example_world).
Proof.
  apply (C2_truthy_values_outside_the_enumerations_are_rejected (Reference.node 1000)
           (VObj [("name", VStr "update_task");
                  ("arguments", VObj [("id", number 1); ("status", VStr "done")])]%string)
           (VObj [("id", number 1); ("status", VStr "done")]%string)
           (VStr "done") (number 9) "update_task" example_world
           eq_refl eq_refl eq_refl).
  left. split; [reflexivity | split; [reflexivity | left; reflexivity]].
Defined.

(** C2 as the specification words it does not hold.  On the example
    store: add_task given the status 'bogus' is answered with a result
    (the handler does not read a status); update_task given the status
    null is answered with a result and leaves task 1 with a NULL status;
    update_task given the empty string as status passes validation and
    is refused by the store's CHECK constraint, after the statement was
    run. *)
Lemma C2_counterexample :
  let P := Reference.node 1000 in
  let call name arguments :=
    MCPServer.handleToolCall P
      (VObj [("name", VStr name); ("arguments", VObj arguments)]%string)
      (number 9) example_world in
  (exists w',
      call "add_task"%string
        [("project_id", number 1); ("description", VStr "x"); ("status", VStr "bogus")]%string
      = (Ok {| MCPServer.jsonrpc := "2.0"; MCPServer.id := number 9;
               MCPServer.result := Some (MCPServer.ToolContent
                  (MCPServer.TaskAdded 3 (Sqlite.SText "Smoke Project")));
               MCPServer.error_ := None |}, w'))
  /\ (exists w',
        call "update_task"%string [("id", number 1); ("status", VNull)]%string
        = (Ok {| MCPServer.jsonrpc := "2.0"; MCPServer.id := number 9;
                 MCPServer.result := Some (MCPServer.ToolContent
                    (MCPServer.TaskUpdated (number 1)));
                 MCPServer.error_ := None |}, w')
        /\ map Sqlite.t_status (Sqlite.tasks (store w'))
           = [Sqlite.SNull; Sqlite.SText "pending"])
  /\ (exists w',
        call "update_task"%string [("id", number 1); ("status", VStr "")]%string
        = (Ok (rejection (number 9) (SqliteConstraint "CHECK constraint failed: status")), w')
        /\ statements w' = S (statements example_world)).
Proof.
  cbv zeta. split; [| split]; eexists; vm_compute; repeat split; reflexivity.
Qed.

(* ====================================================================== *)
(** ** References to rows that do not exist *)

Lemma get_total (args v : value) (k k' : string) :
  JS.get args k = Ok v -> exists v', JS.get args k' = Ok v'.
Proof.
  destruct args; simpl; try discriminate; intros _;
    try (eexists; reflexivity).
  destruct (String.eqb k' "search"); eexists; reflexivity.
Qed.

Lemma passes_inv (args x : value) (k : string) (check : value -> outcome unit) (e : error) :
  passes args k check -> JS.get args k = Ok x -> check x = Throw e -> False.
Proof. intros (y & Hy & Hc) Hx He. congruence. Qed.

(** Rewrites with every equation of the context that applies. *)
Ltac use_equations :=
  repeat (match goal with
          | H : ?l = _ |- context [?l] => rewrite H
          end; cbv beta iota).

(** The goal [exists e, ...] once the validation [c] is known to throw. *)
Ltac thrown unfolding :=
  eexists; split; [right; eauto with validation |];
  split; [intros Hvalid; exfalso; unfold valid_add_task, valid_update_task in Hvalid;
          intuition (eauto using passes_inv) |];
  intros w Hw; eexists; unfolding; use_equations; split; [reflexivity | first [assumption | reflexivity]].

Lemma addTask_missing (P : platform) (args pid : value) (d : Sqlite.database) :
  JS.get args "project_id" = Ok pid ->
  Sqlite.select_project (Database.bind_param P pid) d = None ->
  exists e,
    (e = ProjectNotFound pid \/ is_validation_error e = true)
    /\ (valid_add_task args -> e = ProjectNotFound pid)
    /\ forall w, store w = d ->
         exists w', MCPServer.addTask P args w = (Throw e, w') /\ store w' = d.
Proof.
  intros Hpid Hnone.
  destruct (get_total args pid _ "description" Hpid) as [description Hdescription].
  destruct (get_total args pid _ "priority" Hpid) as [priority Hpriority].
  destruct (get_total args pid _ "category" Hpid) as [category Hcategory].
  destruct (get_total args pid _ "assignee" Hpid) as [assignee Hassignee].
  destruct (get_total args pid _ "due_date" Hpid) as [due_date Hdue_date].
  destruct (MCPServer.validateId pid "Project ID") as [[] |] eqn:V1;
    [| thrown ltac:(unfold MCPServer.addTask, bind, lift, throw)].
  destruct (MCPServer.validateString description "Description" true) as [[] |] eqn:V2;
    [| thrown ltac:(unfold MCPServer.addTask, bind, lift, throw)].
  destruct (MCPServer.validatePriority (Database.default (VStr "medium") priority))
    as [[] |] eqn:V3;
    [| thrown ltac:(unfold MCPServer.addTask, bind, lift, throw)].
  destruct (MCPServer.validateString category "Category" false) as [[] |] eqn:V4;
    [| thrown ltac:(unfold MCPServer.addTask, bind, lift, throw)].
  destruct (MCPServer.validateString assignee "Assignee" false) as [[] |] eqn:V5;
    [| thrown ltac:(unfold MCPServer.addTask, bind, lift, throw)].
  destruct (MCPServer.validateString due_date "Due date" false) as [[] |] eqn:V6;
    [| thrown ltac:(unfold MCPServer.addTask, bind, lift, throw)].
  exists (ProjectNotFound pid). split; [now left |]. split; [reflexivity |].
  intros w Hw. eexists.
  unfold MCPServer.addTask, bind, lift, throw, Database.getProject, Database.query.
  use_equations. split; [reflexivity | first [assumption | reflexivity]].
Qed.

Lemma deleteProject_missing (P : platform) (args id : value) (d : Sqlite.database) :
  JS.get args "id" = Ok id ->
  Sqlite.select_project (Database.bind_param P id) d = None ->
  exists e,
    (e = ProjectNotFound id \/ is_validation_error e = true)
    /\ (MCPServer.validateId id "Project ID" = Ok tt -> e = ProjectNotFound id)
    /\ forall w, store w = d ->
         exists w', MCPServer.deleteProject P args w = (Throw e, w') /\ store w' = d.
Proof.
  intros Hid Hnone.
  destruct (MCPServer.validateId id "Project ID") as [[] |] eqn:V1.
  - exists (ProjectNotFound id). split; [now left |]. split; [reflexivity |].
    intros w Hw. eexists.
    unfold MCPServer.deleteProject, bind, lift, throw, Database.getProject, Database.query.
    use_equations. split; [reflexivity | first [assumption | reflexivity]].
  - eexists. split; [right; eauto with validation |]. split; [discriminate |].
    intros w Hw. eexists. unfold MCPServer.deleteProject, bind, lift, throw.
    use_equations. split; [reflexivity | first [assumption | reflexivity]].
Qed.

Lemma getProjectSummary_missing (P : platform) (args id : value) (d : Sqlite.database) :
  JS.get args "project_id" = Ok id ->
  Sqlite.select_project (Database.bind_param P id) d = None ->
  exists e,
    (e = ProjectNotFound id \/ is_validation_error e = true)
    /\ (MCPServer.validateId id "Project ID" = Ok tt -> e = ProjectNotFound id)
    /\ forall w, store w = d ->
         exists w', MCPServer.getProjectSummary P args w = (Throw e, w') /\ store w' = d.
Proof.
  intros Hid Hnone.
  destruct (MCPServer.validateId id "Project ID") as [[] |] eqn:V1.
  - exists (ProjectNotFound id). split; [now left |]. split; [reflexivity |].
    intros w Hw. eexists.
    unfold MCPServer.getProjectSummary, bind, lift, throw, Database.getProject,
      Database.query.
    use_equations. split; [reflexivity | first [assumption | reflexivity]].
  - eexists. split; [right; eauto with validation |]. split; [discriminate |].
    intros w Hw. eexists. unfold MCPServer.getProjectSummary, bind, lift, throw.
    use_equations. split; [reflexivity | first [assumption | reflexivity]].
Qed.

Lemma find_none_filter {A : Type} (f : A -> bool) (l : list A) :
  find f l = None ->
  filter f l = [] /\ filter (fun x => negb (f x)) l = l
  /\ map (fun x => if f x then x else x) l = l.
Proof.
  induction l as [| a r IH]; simpl; intros H; [auto |].
  destruct (f a) eqn:E; [discriminate |].
  destruct (IH H) as (H1 & H2 & H3). simpl. rewrite H2, H3. auto.
Qed.

Lemma map_unmatched {A : Type} (f : A -> bool) (g : A -> A) (l : list A) :
  find f l = None -> map (fun x => if f x then g x else x) l = l.
Proof.
  induction l as [| a r IH]; simpl; intros H; [reflexivity |].
  destruct (f a) eqn:E; [discriminate |]. now rewrite IH.
Qed.

Lemma database_eta (d : Sqlite.database) :
  {| Sqlite.projects := Sqlite.projects d; Sqlite.tasks := Sqlite.tasks d;
     Sqlite.seq_projects := Sqlite.seq_projects d; Sqlite.seq_tasks := Sqlite.seq_tasks d |}
  = d.
Proof. destruct d; reflexivity. Qed.

Lemma select_task_none (id : Sqlite.sqlval) (d : Sqlite.database) :
  Sqlite.select_task_project_id id d = None ->
  find (Sqlite.task_matches id) (Sqlite.tasks d) = None.
Proof.
  unfold Sqlite.select_task_project_id.
  destruct (find _ _); [discriminate | reflexivity].
Qed.

(** Deleting a task that is not there changes nothing and reports it. *)
Lemma Database_deleteTask_missing (P : platform) (id : value) (w : world) :
  Sqlite.select_task_project_id (Database.bind_param P id) (store w) = None ->
  exists w', Database.deleteTask P id w = (Ok false, w') /\ store w' = store w.
Proof.
  intros Hnone. pose proof (select_task_none _ _ Hnone) as Hfind.
  destruct (find_none_filter _ _ Hfind) as (Hf & Hn & _).
  unfold Database.deleteTask, bind, Database.query, Database.run, ret.
  cbn [store statements]. rewrite Hnone.
  unfold Sqlite.delete_task, Sqlite.count. rewrite Hf, Hn.
  cbn [Sqlite.changes length Z.of_nat Z.gtb Z.compare store].
  eexists. split; [reflexivity |]. cbn [store]. apply database_eta.
Qed.

Lemma setClause_known (P : platform) (allowed : list string) (updates : list (string * value)) :
  Sqlite.known_columns allowed (Database.setClause P allowed updates) = true.
Proof.
  induction updates as [| [f v] r IH]; simpl; [reflexivity |].
  destruct (existsb (String.eqb f) allowed) eqn:E; [| exact IH].
  unfold Sqlite.known_columns in *. simpl. now rewrite E, IH.
Qed.

(** Updating a task that is not there, with something to write, changes
    nothing and reports it. *)
Lemma Database_updateTask_missing (P : platform) (id : value)
  (updates : list (string * value)) (w : world) :
  Sqlite.select_task_project_id (Database.bind_param P id) (store w) = None ->
  Database.setClause P Database.task_allowedFields updates <> [] ->
  exists w', Database.updateTask P id updates w = (Ok false, w') /\ store w' = store w.
Proof.
  intros Hnone Hsets. pose proof (select_task_none _ _ Hnone) as Hfind.
  destruct (find_none_filter _ _ Hfind) as (Hf & _ & _).
  unfold Database.updateTask.
  destruct (Database.setClause P Database.task_allowedFields updates) as [| s0 sets] eqn:Es;
    [congruence |].
  cbn [length Nat.eqb].
  unfold bind, Database.query, Database.run, ret, Sqlite.update_tasks.
  change Sqlite.task_columns with Database.task_allowedFields.
  rewrite <- Es, setClause_known. cbn [negb store statements].
  rewrite (map_unmatched _ _ _ Hfind).
  unfold Sqlite.count. rewrite Hf. cbn [Sqlite.first_violation store].
  rewrite database_eta. rewrite Hnone.
  cbn [Sqlite.changes length Z.of_nat Z.gtb Z.compare store].
  eexists. split; reflexivity.
Qed.

Lemma deleteTask_missing (P : platform) (args id : value) (d : Sqlite.database) :
  JS.get args "id" = Ok id ->
  Sqlite.select_task_project_id (Database.bind_param P id) d = None ->
  exists e,
    (e = TaskNotFound id \/ is_validation_error e = true)
    /\ (MCPServer.validateId id "Task ID" = Ok tt -> e = TaskNotFound id)
    /\ forall w, store w = d ->
         exists w', MCPServer.deleteTask P args w = (Throw e, w') /\ store w' = d.
Proof.
  intros Hid Hnone.
  destruct (MCPServer.validateId id "Task ID") as [[] |] eqn:V1.
  - exists (TaskNotFound id). split; [now left |]. split; [reflexivity |].
    intros w Hw. rewrite <- Hw in Hnone.
    destruct (Database_deleteTask_missing P id w Hnone) as (w' & Hdb & Hstore).
    exists w'. unfold MCPServer.deleteTask, bind, lift, throw.
    rewrite Hid, V1, Hdb. split; [reflexivity | congruence].
  - eexists. split; [right; eauto with validation |]. split; [discriminate |].
    intros w Hw. eexists. unfold MCPServer.deleteTask, bind, lift, throw.
    use_equations. split; [reflexivity | first [assumption | reflexivity]].
Qed.

Lemma setClause_app (P : platform) (allowed : list string) (a b : list (string * value)) :
  Database.setClause P allowed (a ++ b)
  = Database.setClause P allowed a ++ Database.setClause P allowed b.
Proof.
  induction a as [| [f v] r IH]; simpl; [reflexivity |].
  destruct (existsb (String.eqb f) allowed); simpl; now rewrite IH.
Qed.

Lemma setClause_put_length (P : platform) (k : string) (v : value)
  (updates : list (string * value)) :
  In k Database.task_allowedFields ->
  length (Database.setClause P Database.task_allowedFields (MCPServer.put k v updates))
  = (length (Database.setClause P Database.task_allowedFields updates)
     + if JS.is_undefined v then 0 else 1)%nat.
Proof.
  intros Hk. unfold MCPServer.put.
  destruct (JS.is_undefined v); [lia |].
  rewrite setClause_app, length_app. f_equal.
  cbn [Database.setClause]. apply existsb_eqb_In in Hk. now rewrite Hk.
Qed.

Lemma defined_value (v : value) : v <> VUndefined -> JS.is_undefined v = false.
Proof. destruct v; try reflexivity. congruence. Qed.

(** Closes the case where a validation of update_task throws. *)
Ltac refused H :=
  eapply H;
  [ eauto with validation
  | unfold valid_update_task; intuition (eauto using passes_inv)
  | intros w Hw; eexists; unfold MCPServer.updateTask, bind, lift, throw;
    use_equations; split; [reflexivity | first [assumption | reflexivity]] ].

Lemma updateTask_missing (P : platform) (args id : value) (d : Sqlite.database) :
  JS.get args "id" = Ok id ->
  Sqlite.select_task_project_id (Database.bind_param P id) d = None ->
  exists e,
    (e = TaskNotFound id \/ is_validation_error e = true \/ e = NoValidFields)
    /\ (valid_update_task args -> some_field_supplied args -> e = TaskNotFound id)
    /\ (valid_update_task args -> ~ some_field_supplied args -> e = NoValidFields)
    /\ forall w, store w = d ->
         exists w', MCPServer.updateTask P args w = (Throw e, w') /\ store w' = d.
Proof.
  intros Hid Hnone.
  destruct (get_total args id _ "status" Hid) as [status Hstatus].
  destruct (get_total args id _ "notes" Hid) as [notes Hnotes].
  destruct (get_total args id _ "priority" Hid) as [priority Hpriority].
  destruct (get_total args id _ "category" Hid) as [category Hcategory].
  destruct (get_total args id _ "description" Hid) as [description Hdescription].
  destruct (get_total args id _ "assignee" Hid) as [assignee Hassignee].
  destruct (get_total args id _ "due_date" Hid) as [due_date Hdue_date].
  assert (Hthrown : forall e,
             is_validation_error e = true ->
             (valid_update_task args -> False) ->
             (forall w, store w = d ->
                exists w', MCPServer.updateTask P args w = (Throw e, w') /\ store w' = d) ->
             exists e,
               (e = TaskNotFound id \/ is_validation_error e = true \/ e = NoValidFields)
               /\ (valid_update_task args -> some_field_supplied args -> e = TaskNotFound id)
               /\ (valid_update_task args -> ~ some_field_supplied args -> e = NoValidFields)
               /\ forall w, store w = d ->
                    exists w', MCPServer.updateTask P args w = (Throw e, w') /\ store w' = d).
  { intros e He Hinvalid Hrun. exists e.
    split; [right; left; exact He |].
    split; [intros Hv; destruct (Hinvalid Hv) |].
    split; [intros Hv; destruct (Hinvalid Hv) | exact Hrun]. }
  destruct (MCPServer.validateId id "Case ID") as [[] |] eqn:V1; [| refused Hthrown].
  destruct (MCPServer.validateStatus status) as [[] |] eqn:V2; [| refused Hthrown].
  destruct (MCPServer.validatePriority priority) as [[] |] eqn:V3; [| refused Hthrown].
  destruct (MCPServer.validateString notes "Notes" false) as [[] |] eqn:V4; [| refused Hthrown].
  destruct (MCPServer.validateString category "Category" false) as [[] |] eqn:V5; [| refused Hthrown].
  destruct (MCPServer.validateString description "Description" false) as [[] |] eqn:V6;
    [| refused Hthrown].
  destruct (MCPServer.validateString assignee "Assignee" false) as [[] |] eqn:V7; [| refused Hthrown].
  destruct (MCPServer.validateString due_date "Due date" false) as [[] |] eqn:V8; [| refused Hthrown].
  clear Hthrown.
  set (updates :=
         MCPServer.put "due_date" due_date
           (MCPServer.put "assignee" assignee
              (MCPServer.put "description" description
                 (MCPServer.put "category" category
                    (MCPServer.put "priority" priority
                       (MCPServer.put "notes" notes
                          (MCPServer.put "status" status []))))))).
  assert (Hlen : length (Database.setClause P Database.task_allowedFields updates)
                 = ((if JS.is_undefined status then 0 else 1)
                    + (if JS.is_undefined notes then 0 else 1)
                    + (if JS.is_undefined priority then 0 else 1)
                    + (if JS.is_undefined category then 0 else 1)
                    + (if JS.is_undefined description then 0 else 1)
                    + (if JS.is_undefined assignee then 0 else 1)
                    + (if JS.is_undefined due_date then 0 else 1))%nat).
  { unfold updates.
    rewrite !setClause_put_length by (simpl; tauto). reflexivity. }
  assert (Hsupplied : some_field_supplied args <->
                      Database.setClause P Database.task_allowedFields updates <> []).
  { split.
    - intros (k & x & Hk & Hx & Hdef) Hnil.
      rewrite Hnil in Hlen. cbn [length] in Hlen.
      apply defined_value in Hdef.
      simpl in Hk.
      destruct Hk as [<- | [<- | [<- | [<- | [<- | [<- | [<- | []]]]]]]];
        match goal with
        | H : JS.get args ?k = Ok ?v, H' : JS.get args ?k = Ok x |- _ =>
            rewrite H in H'; inv H'
        end;
        rewrite Hdef in Hlen;
        repeat match goal with
               | H : context [if ?b then _ else _] |- _ => destruct b
               end; simpl in Hlen; lia.
    - intros Hne.
      destruct (JS.is_undefined status) eqn:U1;
        [| exists "status"%string, status; repeat split;
           [simpl; tauto | assumption | intros ->; discriminate]].
      destruct (JS.is_undefined notes) eqn:U2;
        [| exists "notes"%string, notes; repeat split;
           [simpl; tauto | assumption | intros ->; discriminate]].
      destruct (JS.is_undefined priority) eqn:U3;
        [| exists "priority"%string, priority; repeat split;
           [simpl; tauto | assumption | intros ->; discriminate]].
      destruct (JS.is_undefined category) eqn:U4;
        [| exists "category"%string, category; repeat split;
           [simpl; tauto | assumption | intros ->; discriminate]].
      destruct (JS.is_undefined description) eqn:U5;
        [| exists "description"%string, description; repeat split;
           [simpl; tauto | assumption | intros ->; discriminate]].
      destruct (JS.is_undefined assignee) eqn:U6;
        [| exists "assignee"%string, assignee; repeat split;
           [simpl; tauto | assumption | intros ->; discriminate]].
      destruct (JS.is_undefined due_date) eqn:U7;
        [| exists "due_date"%string, due_date; repeat split;
           [simpl; tauto | assumption | intros ->; discriminate]].
      exfalso. apply Hne. apply length_zero_iff_nil. rewrite Hlen. reflexivity. }
  destruct (Database.setClause P Database.task_allowedFields updates) as [| s0 sets] eqn:Es.
  - exists NoValidFields.
    split; [right; right; reflexivity |].
    split; [intros _ Hs; apply Hsupplied in Hs; congruence |].
    split; [reflexivity |].
    intros w Hw. exists w.
    unfold MCPServer.updateTask, bind, lift, throw.
    use_equations. fold updates.
    unfold Database.updateTask. rewrite Es. split; [reflexivity | first [assumption | reflexivity]].
  - exists (TaskNotFound id).
    split; [left; reflexivity |].
    split; [reflexivity |].
    split; [intros _ Hs; exfalso; apply Hs; apply Hsupplied; discriminate |].
    intros w Hw. rewrite <- Hw in Hnone.
    destruct (Database_updateTask_missing P id updates w Hnone) as (w' & Hdb & Hstore);
      [rewrite Es; discriminate |].
    exists w'. unfold MCPServer.updateTask, bind, lift, throw.
    rewrite Hid, Hstatus, Hnotes, Hpriority, Hcategory, Hdescription, Hassignee, Hdue_date.
    cbv beta iota. rewrite V1, V2, V3, V4, V5, V6, V7, V8. cbv beta iota.
    fold updates. rewrite Hdb. split; [reflexivity | congruence].
Qed.

Lemma repeated_failure {A : Type} (request : M A) (e : error) (d : Sqlite.database) :
  (forall w, store w = d -> exists w', request w = (Throw e, w') /\ store w' = d) ->
  forall n w, store w = d ->
    exists w', repeated n request w = (repeat (Throw e) n, w') /\ store w' = d.
Proof.
  intros Hone. induction n as [| n IH]; intros w Hw; simpl.
  - exists w. split; [reflexivity | exact Hw].
  - destruct (Hone w Hw) as (w1 & H1 & Hs1). rewrite H1.
    destruct (IH w1 Hs1) as (w2 & H2 & Hs2). rewrite H2.
    exists w2. split; [reflexivity | exact Hs2].
Qed.

(** C6 as the code has it: a request that names a project or task the
    store does not hold fails every time it is made and leaves the store
    as it was.  The failure is the not-found error when the arguments pass
    the handler's validation and, for update_task, give some field to
    write; otherwise it is a validation error or, for update_task with
    nothing to write, 'No valid fields to update'. *)
Theorem C6_missing_reference_fails_and_changes_nothing
  (P : platform) (d : Sqlite.database) (name : string) (args : value) (not_found : error) :
  missing_reference P d name args = Some not_found ->
  exists e,
    (valid_arguments name args -> e = not_found)
    /\ (e = not_found \/ is_validation_error e = true
        \/ (name = "update_task"%string /\ e = NoValidFields))
    /\ forall n w, store w = d ->
         exists w',
           repeated n (MCPServer.tool P (VStr name) args) w = (repeat (Throw e) n, w')
           /\ store w' = d.
Proof.
  unfold missing_reference, valid_arguments. intros H.
  destruct (String.eqb name "add_task") eqn:E1.
  { apply String.eqb_eq in E1. subst name.
    destruct (JS.get args "project_id") as [id |] eqn:Hid; [| discriminate].
    destruct (Sqlite.select_project _ d) eqn:Hnone; [discriminate |]. inv H.
    destruct (addTask_missing P args id d Hid Hnone) as (e & Hkind & Hvalid & Hrun).
    exists e. split; [exact Hvalid |]. split; [tauto |].
    apply repeated_failure. exact Hrun. }
  destruct (String.eqb name "get_project_summary") eqn:E2.
  { apply String.eqb_eq in E2. subst name.
    destruct (JS.get args "project_id") as [id |] eqn:Hid; [| discriminate].
    destruct (Sqlite.select_project _ d) eqn:Hnone; [discriminate |]. inv H.
    destruct (getProjectSummary_missing P args id d Hid Hnone)
      as (e & Hkind & Hvalid & Hrun).
    exists e. split.
    - cbn. intros (x & Hx & Hv). apply Hvalid. congruence.
    - split; [tauto |]. apply repeated_failure. exact Hrun. }
  destruct (String.eqb name "delete_project") eqn:E3.
  { apply String.eqb_eq in E3. subst name.
    destruct (JS.get args "id") as [id |] eqn:Hid; [| discriminate].
    destruct (Sqlite.select_project _ d) eqn:Hnone; [discriminate |]. inv H.
    destruct (deleteProject_missing P args id d Hid Hnone) as (e & Hkind & Hvalid & Hrun).
    exists e. split.
    - cbn. intros (x & Hx & Hv). apply Hvalid. congruence.
    - split; [tauto |]. apply repeated_failure. exact Hrun. }
  destruct (String.eqb name "update_task") eqn:E4.
  { apply String.eqb_eq in E4. subst name.
    destruct (JS.get args "id") as [id |] eqn:Hid; [| discriminate].
    destruct (Sqlite.select_task_project_id _ d) eqn:Hnone; [discriminate |]. inv H.
    destruct (updateTask_missing P args id d Hid Hnone)
      as (e & Hkind & Hvalid & _ & Hrun).
    exists e. split.
    - cbn. intros (Hv & Hs). apply Hvalid; assumption.
    - split; [tauto |]. apply repeated_failure. exact Hrun. }
  destruct (String.eqb name "delete_task") eqn:E5; [| discriminate].
  apply String.eqb_eq in E5. subst name.
  destruct (JS.get args "id") as [id |] eqn:Hid; [| discriminate].
  destruct (Sqlite.select_task_project_id _ d) eqn:Hnone; [discriminate |]. inv H.
  destruct (deleteTask_missing P args id d Hid Hnone) as (e & Hkind & Hvalid & Hrun).
  exists e. split.
  - cbn. intros (x & Hx & Hv). apply Hvalid. congruence.
  - split; [tauto |]. apply repeated_failure. exact Hrun.
Qed.

Lemma C6_witness :
  exists e,
    (valid_arguments "delete_task" (VObj [("id", number 99)]%string)
     -> e = TaskNotFound (number 99))
    /\ (e = TaskNotFound (number 99) \/ is_validation_error e = true
        \/ ("delete_task"%string = "update_task"%string /\ e = NoValidFields))
    /\ forall n w, store w = store example_world ->
         exists w',
           repeated n (MCPServer.tool (Reference.node 1000) (VStr "delete_task")
                         (VObj [("id", number 99)]%string)) w
           = (repeat (Throw e) n, w')
           /\ store w' = store example_world.
Proof.
  apply (C6_missing_reference_fails_and_changes_nothing (Reference.node 1000)
           (store example_world) "delete_task" (VObj [("id", number 99)]%string)
           (TaskNotFound (number 99))).
  vm_compute; reflexivity.
Defined.

(** C6 as the specification words it does not hold: on the example store,
    which holds no task 99, update_task with the id 99 and nothing else
    fails with 'No valid fields to update', which is not the not-found
    error. *)
Lemma C6_counterexample :
  missing_reference (Reference.node 1000) (store example_world) "update_task"
    (VObj [("id", number 99)]%string) = Some (TaskNotFound (number 99))
  /\ MCPServer.tool (Reference.node 1000) (VStr "update_task")
       (VObj [("id", number 99)]%string) example_world
     = (Throw NoValidFields, example_world).
Proof. split; vm_compute; reflexivity. Qed.

(* ====================================================================== *)
(** ** Freshness of the owning project *)

Lemma find_map_matched {A : Type} (f : A -> bool) (g : A -> A) (l : list A) (p : A) :
  (forall x, f (g x) = f x) ->
  find f l = Some p ->
  find f (map (fun x => if f x then g x else x) l) = Some (g p).
Proof.
  intros Hg. induction l as [| a r IH]; simpl; intros H; [discriminate |].
  destruct (f a) eqn:E.
  - inv H. now rewrite Hg, E.
  - rewrite E. apply IH. exact H.
Qed.

(** What the statement that touches a project does to the store. *)
Lemma touch_project_run (P : platform) (pid : Sqlite.sqlval) (w w' : world)
  (r : Sqlite.run_result) :
  Database.touch_project P pid w = (Ok r, w') ->
  statements w' = S (statements w)
  /\ Sqlite.tasks (store w') = Sqlite.tasks (store w)
  /\ Sqlite.projects (store w') =
     map (fun p => if Sqlite.project_matches pid p
                   then Sqlite.stamp_project (CURRENT_TIMESTAMP P (statements w)) p
                   else p)
       (Sqlite.projects (store w)).
Proof.
  unfold Database.touch_project, Database.run, Sqlite.update_projects.
  cbn [Sqlite.known_columns forallb negb Sqlite.assign fold_left].
  destruct (Sqlite.first_violation _ _); intros H; inv H.
  cbn [store statements Sqlite.tasks Sqlite.projects]. auto.
Qed.

Lemma touched_project (P : platform) (pid : Sqlite.sqlval) (w w' : world)
  (r : Sqlite.run_result) (p : Sqlite.project) :
  Database.touch_project P pid w = (Ok r, w') ->
  Sqlite.select_project pid (store w) = Some p ->
  updated_at_of pid (store w') = Some (last_timestamp P w').
Proof.
  intros Hrun Hp. destruct (touch_project_run P pid w w' r Hrun) as (Hn & _ & Hprojects).
  unfold updated_at_of, last_timestamp, Sqlite.select_project in *.
  rewrite Hprojects, Hn.
  rewrite (find_map_matched _ _ _ p); [reflexivity | | exact Hp].
  intros x. reflexivity.
Qed.

Lemma existsb_find {A : Type} (f : A -> bool) (l : list A) :
  existsb f l = true -> exists x, find f l = Some x.
Proof.
  induction l as [| a r IH]; simpl; [discriminate |].
  destruct (f a); [eexists; reflexivity | exact IH].
Qed.

Lemma count_positive_find {A : Type} (f : A -> bool) (l : list A) :
  (Sqlite.count f l >? 0) = true -> exists x, find f l = Some x /\ In x l.
Proof.
  unfold Sqlite.count. induction l as [| a r IH]; simpl; [discriminate |].
  destruct (f a) eqn:E.
  - intros _. exists a. auto.
  - intros H. destruct (IH H) as (x & Hx & Hin). exists x. auto.
Qed.

Lemma set_task_column_keeps (c : string) (v : Sqlite.sqlval) (t : Sqlite.task) :
  Sqlite.t_id (Sqlite.set_task_column c v t) = Sqlite.t_id t
  /\ Sqlite.t_project_id (Sqlite.set_task_column c v t) = Sqlite.t_project_id t.
Proof.
  unfold Sqlite.set_task_column.
  repeat match goal with |- context [if ?b then _ else _] => destruct b end;
    split; reflexivity.
Qed.

Lemma assign_task_keeps (sets : list (string * Sqlite.sqlval)) (t : Sqlite.task) :
  Sqlite.t_id (Sqlite.assign Sqlite.set_task_column sets t) = Sqlite.t_id t
  /\ Sqlite.t_project_id (Sqlite.assign Sqlite.set_task_column sets t)
     = Sqlite.t_project_id t.
Proof.
  unfold Sqlite.assign. revert t.
  induction sets as [| [c v] r IH]; intros t; simpl; [auto |].
  destruct (IH (Sqlite.set_task_column c v t)) as [H1 H2].
  destruct (set_task_column_keeps c v t) as [H3 H4].
  split; congruence.
Qed.

(** One statement: the counter advances by one; the store is what the
    statement returns, or is unchanged when it fails. *)
Lemma run_inv (P : platform)
  (stmt : Z -> Sqlite.database -> outcome (Sqlite.run_result * Sqlite.database))
  (w w' : world) (o : outcome Sqlite.run_result) :
  Database.run P stmt w = (o, w') ->
  statements w' = S (statements w)
  /\ match stmt (CURRENT_TIMESTAMP P (statements w)) (store w) with
     | Ok (r, d) => o = Ok r /\ store w' = d
     | Throw e => o = Throw e /\ store w' = store w
     end.
Proof.
  unfold Database.run.
  destruct (stmt _ _) as [[r d] | e]; intros H; inv H; auto.
Qed.

Lemma Database_addTask_touches (P : platform)
  (projectId description priority category assignee dueDate : value)
  (id : Z) (w w' : world) (p : Sqlite.project) :
  Database.addTask P projectId description priority category assignee dueDate w
  = (Ok id, w') ->
  Sqlite.select_project (Database.bind_param P projectId) (store w) = Some p ->
  updated_at_of (Database.bind_param P projectId) (store w') = Some (last_timestamp P w').
Proof.
  intros H Hp. unfold Database.addTask, bind, ret in H.
  destruct (Database.run P _ w) as [[r |] w1] eqn:Hinsert; [| discriminate].
  destruct (Database.touch_project P _ w1) as [[r' |] w2] eqn:Htouch; [| discriminate].
  inv H.
  apply run_inv in Hinsert. destruct Hinsert as [_ Hinsert].
  unfold Sqlite.insert_task in Hinsert.
  destruct (Sqlite.task_violation _); [destruct Hinsert; discriminate |].
  destruct (Sqlite.has_parent _ _); [| destruct Hinsert; discriminate].
  destruct Hinsert as [_ Hstore].
  apply (touched_project P _ w1 w' r' p Htouch).
  rewrite Hstore. exact Hp.
Qed.

Lemma select_project_of_parent (d : Sqlite.database) (t : Sqlite.task) :
  foreign_keys_hold d -> In t (Sqlite.tasks d) ->
  exists p, Sqlite.select_project (Sqlite.t_project_id t) d = Some p.
Proof.
  intros Hfk Hin. apply existsb_find. exact (Hfk t Hin).
Qed.

Lemma Database_updateTask_touches (P : platform) (id : value)
  (updates : list (string * value)) (w w' : world) :
  Database.updateTask P id updates w = (Ok true, w') ->
  foreign_keys_hold (store w) ->
  exists pid,
    Sqlite.select_task_project_id (Database.bind_param P id) (store w') = Some pid
    /\ updated_at_of pid (store w') = Some (last_timestamp P w').
Proof.
  intros H Hfk. unfold Database.updateTask in H.
  destruct (length _ =? 0)%nat; [discriminate |].
  unfold bind, ret, Database.query in H.
  destruct (Database.run P _ w) as [[r |] w1] eqn:Hupdate; [| discriminate].
  apply run_inv in Hupdate. destruct Hupdate as [_ Hupdate].
  unfold Sqlite.update_tasks in Hupdate.
  destruct (negb _); [destruct Hupdate; discriminate |].
  destruct (Sqlite.first_violation _ _); [destruct Hupdate; discriminate |].
  destruct Hupdate as [Hr Hstore]. inv Hr.
  cbn [Sqlite.changes] in H.
  destruct (Sqlite.count _ _ >? 0) eqn:Hchanged.
  2: { destruct (Sqlite.select_task_project_id _ _);
       [destruct (Database.touch_project P _ _) as [[|] ?] |]; inv H. }
  destruct (count_positive_find _ _ Hchanged) as (t & Hfind & Hin).
  destruct (select_project_of_parent _ t Hfk Hin) as (p & Hp).
  assert (Hselect : Sqlite.select_task_project_id (Database.bind_param P id) (store w1)
                    = Some (Sqlite.t_project_id t)).
  { unfold Sqlite.select_task_project_id. rewrite Hstore. cbn [Sqlite.tasks].
    rewrite (find_map_matched _ _ _ t); [| | exact Hfind].
    - cbn [option_map Sqlite.stamp_task Sqlite.t_project_id]. f_equal.
      apply assign_task_keeps.
    - intros x. unfold Sqlite.task_matches. cbn [Sqlite.stamp_task Sqlite.t_id].
      now destruct (assign_task_keeps (Database.setClause P Database.task_allowedFields updates) x) as [-> _]. }
  cbn [store] in H. rewrite Hselect in H.
  destruct (Database.touch_project P _ _) as [[r' |] w2] eqn:Htouch; [| discriminate].
  inv H.
  destruct (touch_project_run P _ _ _ _ Htouch) as (_ & Htasks & _).
  exists (Sqlite.t_project_id t). split.
  - unfold Sqlite.select_task_project_id in *. rewrite Htasks. exact Hselect.
  - apply (touched_project P _ _ _ r' p Htouch). cbn [store].
    unfold Sqlite.select_project in *. rewrite Hstore. exact Hp.
Qed.

Lemma Database_deleteTask_touches (P : platform) (id : value) (w w' : world) :
  Database.deleteTask P id w = (Ok true, w') ->
  foreign_keys_hold (store w) ->
  exists pid,
    Sqlite.select_task_project_id (Database.bind_param P id) (store w) = Some pid
    /\ updated_at_of pid (store w') = Some (last_timestamp P w').
Proof.
  intros H Hfk. unfold Database.deleteTask, bind, ret, Database.query, Database.run in H.
  cbn [Sqlite.delete_task store statements Sqlite.changes] in H.
  destruct (Sqlite.count _ _ >? 0) eqn:Hchanged.
  2: { destruct (Sqlite.select_task_project_id _ _); inv H. }
  destruct (count_positive_find _ _ Hchanged) as (t & Hfind & Hin).
  destruct (select_project_of_parent _ t Hfk Hin) as (p & Hp).
  unfold Sqlite.select_task_project_id in *. rewrite Hfind in *.
  cbn [option_map] in *.
  destruct (Database.touch_project P _ _) as [[r' |] w2] eqn:Htouch; [| discriminate].
  inv H. exists (Sqlite.t_project_id t). split; [reflexivity |].
  apply (touched_project P _ _ _ r' p Htouch). exact Hp.
Qed.

(* ---------------------------------------------------------------------- *)
(** Timestamps only advance *)

Lemma never_earlier_refl (l : list Sqlite.project) : never_earlier l l.
Proof. induction l; constructor; [split; [reflexivity | lia] | assumption]. Qed.

Lemma never_earlier_trans (a b c : list Sqlite.project) :
  never_earlier a b -> never_earlier b c -> never_earlier a c.
Proof.
  intros Hab. revert c. induction Hab as [| x y l l' [Hid Hle] _ IH]; intros c Hbc.
  - inv Hbc. constructor.
  - inv Hbc. destruct H1 as [Hid' Hle']. constructor; [split; [congruence | lia] |].
    apply IH. assumption.
Qed.

Lemma advances_refl (P : platform) (w : world) : stamps_in_past P w -> advances P w w.
Proof. intros H. split; [apply never_earlier_refl | split; [lia | exact H]]. Qed.

Lemma advances_trans (P : platform) (a b c : world) :
  advances P a b -> advances P b c -> advances P a c.
Proof.
  intros (H1 & H2 & H3) (H4 & H5 & H6).
  split; [eapply never_earlier_trans; eassumption | split; [lia | exact H6]].
Qed.

Lemma advancing_ret (P : platform) {A : Type} (a : A) : advancing P (ret a).
Proof. intros w o w' Hw H. inv H. now apply advances_refl. Qed.

Lemma advancing_throw (P : platform) {A : Type} (e : error) : advancing P (@throw A e).
Proof. intros w o w' Hw H. inv H. now apply advances_refl. Qed.

Lemma advancing_lift (P : platform) {A : Type} (x : outcome A) : advancing P (lift x).
Proof. intros w o w' Hw H. inv H. now apply advances_refl. Qed.

Lemma advancing_bind (P : platform) {A B : Type} (c : M A) (k : A -> M B) :
  advancing P c -> (forall a, advancing P (k a)) -> advancing P (bind c k).
Proof.
  intros Hc Hk w o w' Hw H. unfold bind in H.
  destruct (c w) as [[a | e] w1] eqn:E.
  - pose proof (Hc w _ _ Hw E) as H1.
    apply (advances_trans P w w1 w'); [exact H1 |].
    apply (Hk a w1 o w'); [apply H1 | exact H].
  - inv H. apply (Hc w _ _ Hw E).
Qed.

Lemma stamps_later (P : platform) (d : Sqlite.database) (m n : nat) :
  monotone_clock P -> (m <= n)%nat ->
  stamps_in_past P {| store := d; statements := m |} ->
  stamps_in_past P {| store := d; statements := n |}.
Proof.
  intros Hmono Hmn H p Hp. specialize (H p Hp). cbn [statements] in *.
  pose proof (Hmono m n Hmn). lia.
Qed.

Lemma advancing_query (P : platform) {A : Type} (q : Sqlite.database -> A) :
  monotone_clock P -> advancing P (Database.query q).
Proof.
  intros Hmono w o w' Hw H. unfold Database.query in H. inv H.
  split; [apply never_earlier_refl | split; [cbn; lia |]].
  apply (stamps_later P _ (statements w)); [exact Hmono | lia |].
  destruct w; exact Hw.
Qed.

(** A statement that leaves the projects table alone. *)
Lemma advancing_run (P : platform)
  (stmt : Z -> Sqlite.database -> outcome (Sqlite.run_result * Sqlite.database)) :
  monotone_clock P ->
  (forall now d r d', stmt now d = Ok (r, d') -> Sqlite.projects d' = Sqlite.projects d) ->
  advancing P (Database.run P stmt).
Proof.
  intros Hmono Hsame w o w' Hw H.
  destruct (run_inv P stmt w w' o H) as [Hn Hs].
  assert (Hprojects : Sqlite.projects (store w') = Sqlite.projects (store w)).
  { destruct (stmt _ _) as [[r d] | e] eqn:E.
    - destruct Hs as [_ ->]. eapply Hsame. exact E.
    - destruct Hs as [_ ->]. reflexivity. }
  split; [rewrite Hprojects; apply never_earlier_refl | split; [lia |]].
  intros p Hp. rewrite Hprojects in Hp. specialize (Hw p Hp).
  pose proof (Hmono (statements w) (statements w') ltac:(lia)). lia.
Qed.

Lemma advancing_touch (P : platform) (pid : Sqlite.sqlval) :
  monotone_clock P -> advancing P (Database.touch_project P pid).
Proof.
  intros Hmono w o w' Hw H.
  destruct o as [r | e].
  - destruct (touch_project_run P pid w w' r H) as (Hn & _ & Hprojects).
    pose proof (Hmono (statements w) (statements w') ltac:(lia)) as Hclock.
    split; [| split; [lia |]].
    + rewrite Hprojects. unfold never_earlier.
      assert (Hall : forall l,
                 (forall p, In p l ->
                    Sqlite.p_updated_at p <= CURRENT_TIMESTAMP P (statements w)) ->
                 Forall2 (fun p p' => Sqlite.p_id p = Sqlite.p_id p'
                                      /\ Sqlite.p_updated_at p <= Sqlite.p_updated_at p')
                   l (map (fun p => if Sqlite.project_matches pid p
                                    then Sqlite.stamp_project
                                           (CURRENT_TIMESTAMP P (statements w)) p
                                    else p) l)).
      { induction l as [| a r' IH]; intros Hl; simpl; constructor.
        - destruct (Sqlite.project_matches pid a); simpl;
            [split; [reflexivity | apply Hl; now left] | split; [reflexivity | lia]].
        - apply IH. intros p Hp. apply Hl. now right. }
      apply Hall. exact Hw.
    + intros p Hp. rewrite Hprojects in Hp. apply in_map_iff in Hp.
      destruct Hp as (p0 & Hp0 & Hin). specialize (Hw p0 Hin).
      destruct (Sqlite.project_matches pid p0); subst p; simpl; lia.
  - apply run_inv in H. destruct H as [Hn Hs].
    destruct (Sqlite.update_projects _ _ _ _) as [[r d] |]; destruct Hs as [Ho Hstore];
      [discriminate |].
    split; [rewrite Hstore; apply never_earlier_refl | split; [lia |]].
    intros p Hp. rewrite Hstore in Hp. specialize (Hw p Hp).
    pose proof (Hmono (statements w) (statements w') ltac:(lia)). lia.
Qed.

Lemma insert_task_projects (a b c d0 e f : Sqlite.sqlval) (now : Z) (d d' : Sqlite.database)
  (r : Sqlite.run_result) :
  Sqlite.insert_task a b c d0 e f now d = Ok (r, d') ->
  Sqlite.projects d' = Sqlite.projects d.
Proof.
  unfold Sqlite.insert_task.
  destruct (Sqlite.task_violation _); [discriminate |].
  destruct (Sqlite.has_parent _ _); [| discriminate]. intros H. inv H. reflexivity.
Qed.

Lemma update_tasks_projects (sets : list (string * Sqlite.sqlval)) (id : Sqlite.sqlval)
  (now : Z) (d d' : Sqlite.database) (r : Sqlite.run_result) :
  Sqlite.update_tasks sets id now d = Ok (r, d') ->
  Sqlite.projects d' = Sqlite.projects d.
Proof.
  unfold Sqlite.update_tasks.
  destruct (negb _); [discriminate |].
  destruct (Sqlite.first_violation _ _); [discriminate |]. intros H. inv H. reflexivity.
Qed.

(** Applies the rules above along the structure of a handler. *)
Ltac advancing_steps Hmono :=
  repeat first
    [ apply advancing_ret
    | apply advancing_throw
    | apply advancing_lift
    | apply (advancing_query _ _ Hmono)
    | apply (advancing_touch _ _ Hmono)
    | apply advancing_bind; [| intros ?]
    | match goal with
      | |- advancing _ (match ?x with _ => _ end) => destruct x
      | |- advancing _ (if ?b then _ else _) => destruct b
      end ].

Lemma advancing_addTask (P : platform) (args : value) :
  monotone_clock P -> advancing P (MCPServer.addTask P args).
Proof.
  intros Hmono. unfold MCPServer.addTask, Database.getProject, Database.addTask.
  advancing_steps Hmono.
  apply (advancing_run P _ Hmono). intros now d r d'. apply insert_task_projects.
Qed.

Lemma advancing_updateTask (P : platform) (args : value) :
  monotone_clock P -> advancing P (MCPServer.updateTask P args).
Proof.
  intros Hmono. unfold MCPServer.updateTask, Database.updateTask.
  advancing_steps Hmono.
  apply (advancing_run P _ Hmono). intros now d r d'. apply update_tasks_projects.
Qed.

Lemma advancing_deleteTask (P : platform) (args : value) :
  monotone_clock P -> advancing P (MCPServer.deleteTask P args).
Proof.
  intros Hmono. unfold MCPServer.deleteTask, Database.deleteTask.
  advancing_steps Hmono.
  apply (advancing_run P _ Hmono). intros now d r d' H. inv H. reflexivity.
Qed.

Lemma addTask_touches (P : platform) (args pid : value) (r : MCPServer.tool_result)
  (w w' : world) :
  MCPServer.addTask P args w = (Ok r, w') ->
  JS.get args "project_id" = Ok pid ->
  updated_at_of (Database.bind_param P pid) (store w') = Some (last_timestamp P w').
Proof.
  intros H Hpid.
  unfold MCPServer.addTask, bind, lift, ret, throw in H. rewrite Hpid in H.
  run_hyp H.
  match goal with
  | Hget : Database.getProject P pid w = (Ok (Some ?p), ?w0),
    Hadd : Database.addTask P pid _ _ _ _ _ ?w0 = (Ok _, ?w1) |- _ =>
      inv H; unfold Database.getProject, Database.query in Hget; inv Hget;
      apply (Database_addTask_touches P _ _ _ _ _ _ _ _ _ p Hadd); assumption
  end.
Qed.

Lemma updateTask_touches (P : platform) (args id : value) (r : MCPServer.tool_result)
  (w w' : world) :
  MCPServer.updateTask P args w = (Ok r, w') ->
  JS.get args "id" = Ok id ->
  foreign_keys_hold (store w) ->
  exists pid,
    Sqlite.select_task_project_id (Database.bind_param P id) (store w') = Some pid
    /\ updated_at_of pid (store w') = Some (last_timestamp P w').
Proof.
  intros H Hid Hfk.
  unfold MCPServer.updateTask, bind, lift, ret, throw in H. rewrite Hid in H.
  run_hyp H.
  match goal with
  | Hupdate : Database.updateTask P id _ w = (Ok ?b, ?w1) |- _ =>
      destruct b; [| discriminate]; inv H;
      apply (Database_updateTask_touches P _ _ _ _ Hupdate Hfk)
  end.
Qed.

Lemma deleteTask_touches (P : platform) (args id : value) (r : MCPServer.tool_result)
  (w w' : world) :
  MCPServer.deleteTask P args w = (Ok r, w') ->
  JS.get args "id" = Ok id ->
  foreign_keys_hold (store w) ->
  exists pid,
    Sqlite.select_task_project_id (Database.bind_param P id) (store w) = Some pid
    /\ updated_at_of pid (store w') = Some (last_timestamp P w').
Proof.
  intros H Hid Hfk.
  unfold MCPServer.deleteTask, bind, lift, ret, throw in H. rewrite Hid in H.
  run_hyp H.
  match goal with
  | Hdelete : Database.deleteTask P id w = (Ok ?b, ?w1) |- _ =>
      destruct b; [| discriminate]; inv H;
      apply (Database_deleteTask_touches P _ _ _ Hdelete Hfk)
  end.
Qed.

(** C5: a successful add_task, update_task or delete_task leaves the
    owning project with the updated_at of the statement executed last,
    the one that touches it (add_task: the project named by project_id;
    update_task and delete_task: the project of the task, which the
    foreign key guarantees to exist).  And whatever such a call does, it
    keeps the project rows and moves no updated_at backwards, as long as
    the clock does not run backwards and no row is stamped in the
    future. *)
Theorem C5_task_mutations_touch_the_owning_project
  (P : platform) (args : value) (w w' : world) :
  (forall r pid,
      MCPServer.tool P (VStr "add_task") args w = (Ok r, w') ->
      JS.get args "project_id" = Ok pid ->
      updated_at_of (Database.bind_param P pid) (store w') = Some (last_timestamp P w'))
  /\ (forall r id,
         foreign_keys_hold (store w) ->
         MCPServer.tool P (VStr "update_task") args w = (Ok r, w') ->
         JS.get args "id" = Ok id ->
         exists pid,
           Sqlite.select_task_project_id (Database.bind_param P id) (store w') = Some pid
           /\ updated_at_of pid (store w') = Some (last_timestamp P w'))
  /\ (forall r id,
         foreign_keys_hold (store w) ->
         MCPServer.tool P (VStr "delete_task") args w = (Ok r, w') ->
         JS.get args "id" = Ok id ->
         exists pid,
           Sqlite.select_task_project_id (Database.bind_param P id) (store w) = Some pid
           /\ updated_at_of pid (store w') = Some (last_timestamp P w'))
  /\ (forall name o,
         monotone_clock P ->
         stamps_in_past P w ->
         In name ["add_task"; "update_task"; "delete_task"]%string ->
         MCPServer.tool P (VStr name) args w = (o, w') ->
         never_earlier (Sqlite.projects (store w)) (Sqlite.projects (store w'))
         /\ stamps_in_past P w').
Proof.
  split; [| split; [| split]].
  - intros r pid H Hpid. exact (addTask_touches P args pid r w w' H Hpid).
  - intros r id Hfk H Hid. exact (updateTask_touches P args id r w w' H Hid Hfk).
  - intros r id Hfk H Hid. exact (deleteTask_touches P args id r w w' H Hid Hfk).
  - intros name o Hmono Hpast Hname H.
    assert (Hadv : advances P w w').
    { destruct Hname as [<- | [<- | [<- | []]]].
      - exact (advancing_addTask P args Hmono w o w' Hpast H).
      - exact (advancing_updateTask P args Hmono w o w' Hpast H).
      - exact (advancing_deleteTask P args Hmono w o w' Hpast H). }
    destruct Hadv as (H1 & _ & H3). split; assumption.
Qed.

Lemma foreign_keys_checked_hold (d : Sqlite.database) :
  foreign_keys_checked d = true -> foreign_keys_hold d.
Proof.
  unfold foreign_keys_checked, foreign_keys_hold. rewrite forallb_forall. auto.
Qed.

Lemma stamps_checked_in_past (P : platform) (w : world) :
  stamps_checked P w = true -> stamps_in_past P w.
Proof.
  unfold stamps_checked, stamps_in_past. rewrite forallb_forall.
  intros H p Hp. apply Z.leb_le. auto.
Qed.

Lemma C5_witness :
  let P := Reference.node 1000 in
  let args := VObj [("id", number 1); ("status", VStr "tested")]%string in
  let w' := snd (MCPServer.tool P (VStr "update_task") args example_world) in
  (exists pid,
      Sqlite.select_task_project_id (Database.bind_param P (number 1)) (store w') = Some pid
      /\ updated_at_of pid (store w') = Some (last_timestamp P w'))
  /\ never_earlier (Sqlite.projects (store example_world)) (Sqlite.projects (store w'))
  /\ stamps_in_past P w'.
Proof.
  intros P args w'.
  pose proof (C5_task_mutations_touch_the_owning_project P args example_world w')
    as (_ & Hupdate & _ & Hmonotone).
  split.
  - apply (Hupdate (MCPServer.TaskUpdated (number 1)) (number 1)).
    + apply foreign_keys_checked_hold. vm_compute; reflexivity.
    + vm_compute; reflexivity.
    + reflexivity.
  - apply (Hmonotone "update_task"%string
             (Ok (MCPServer.TaskUpdated (number 1)))).
    + intros m n Hmn. subst P. cbn [CURRENT_TIMESTAMP Reference.node]. lia.
    + apply stamps_checked_in_past. vm_compute; reflexivity.
    + simpl. tauto.
    + vm_compute; reflexivity.
Defined.

(* ====================================================================== *)
(** ** The client: request correlation *)

Section Correlation.
Import MCPTestClient.

Lemma same_key_number (k j : Z) : same_key k (number j) = (k =? j).
Proof.
  unfold same_key, number, Qeq_bool. simpl.
  rewrite (Z.mul_1_r k), (Z.mul_1_r j). reflexivity.
Qed.

Lemma same_key_unique (k j : Z) (v : value) :
  same_key k v = true -> same_key j v = true -> k = j.
Proof.
  destruct v; simpl; try discriminate. intros Hk Hj.
  apply Qeq_bool_iff in Hk, Hj.
  assert (H : (inject_Z k == inject_Z j)%Q) by (rewrite Hk, Hj; reflexivity).
  unfold Qeq in H. simpl in H. lia.
Qed.

Lemma same_key_truthy (k : Z) (v : value) :
  same_key k v = true -> 1 <= k -> JS.truthy v = true.
Proof.
  destruct v; simpl; try discriminate. intros Hk Hpos.
  apply Qeq_bool_iff in Hk. apply negb_true_iff, Z.eqb_neq. intros Hzero.
  unfold Qeq in Hk. simpl in Hk. rewrite Hzero in Hk. lia.
Qed.

Lemma is_settled_false (c : client) (id : Z) :
  is_settled c id = false <-> forall s, ~ In (id, s) (settled c).
Proof.
  unfold is_settled. split.
  - intros H s Hin.
    assert (existsb (fun e => fst e =? id) (settled c) = true).
    { apply existsb_exists. exists (id, s). split; [exact Hin | apply Z.eqb_refl]. }
    congruence.
  - intros H. apply not_true_is_false. intros Ht. apply existsb_exists in Ht.
    destruct Ht as ([k s] & Hin & Hk). simpl in Hk. apply Z.eqb_eq in Hk. subst k.
    exact (H s Hin).
Qed.

Lemma outcome_of_appended (l : list (Z * settlement)) (id : Z) (s : settlement) :
  existsb (fun e => fst e =? id) l = false ->
  option_map snd (find (fun e => fst e =? id) (l ++ [(id, s)])) = Some s.
Proof.
  induction l as [| [k x] r IH]; simpl; intros H.
  - now rewrite Z.eqb_refl.
  - destruct (k =? id); [discriminate |]. apply IH. exact H.
Qed.

Lemma outcome_of_kept (l l' : list (Z * settlement)) (id : Z) (s : settlement) :
  option_map snd (find (fun e => fst e =? id) l) = Some s ->
  option_map snd (find (fun e => fst e =? id) (l ++ l')) = Some s.
Proof.
  induction l as [| [k x] r IH]; simpl; [discriminate |].
  destruct (k =? id); [auto | exact IH].
Qed.

Lemma NoDup_map_filter {A B : Type} (f : A -> B) (g : A -> bool) (l : list A) :
  NoDup (map f l) -> NoDup (map f (filter g l)).
Proof.
  induction l as [| a r IH]; simpl; intros H; [constructor |].
  inv H. destruct (g a); simpl; [| auto].
  constructor; [| auto].
  intros Hin. apply H2. apply in_map_iff in Hin. destruct Hin as (x & Hx & Hin).
  apply filter_In in Hin. apply in_map_iff. exists x. tauto.
Qed.

Lemma key_matches (id k : Z) (idv : value) :
  same_key id idv = true -> same_key k idv = (k =? id).
Proof.
  intros H. destruct (k =? id) eqn:E.
  - apply Z.eqb_eq in E. now subst k.
  - apply not_true_is_false. intros Hk. apply Z.eqb_neq in E. apply E.
    exact (same_key_unique k id idv Hk H).
Qed.

Lemma on_line_matched (P : platform) (c : client) (line : string)
  (message idv : value) (id : Z) (cb : callbacks) :
  client_invariant c ->
  JSON_parse P line = Some message ->
  JS.get message "id" = Ok idv ->
  In (id, cb) (pending c) ->
  same_key id idv = true ->
  on_line P line c = answered id message c.
Proof.
  intros (_ & I1 & _) Hparse Hget Hin Hkey.
  destruct (I1 id cb Hin) as (Hcb & Hrange & Hunsettled).
  unfold on_line. rewrite Hparse, Hget.
  rewrite (same_key_truthy id idv Hkey) by lia.
  assert (Hhas : Map_has (pending c) idv = true).
  { unfold Map_has. apply existsb_exists. exists (id, cb). auto. }
  rewrite Hhas. cbn [andb].
  unfold Map_get.
  destruct (find (fun e => same_key (fst e) idv) (pending c)) as [[k cb'] |] eqn:Hfind.
  2: { apply (find_none _ _ Hfind) in Hin. simpl in Hin. congruence. }
  apply find_some in Hfind. destruct Hfind as [Hin' Hk]. simpl in Hk.
  assert (k = id) by exact (same_key_unique k id idv Hk Hkey). subst k.
  destruct (I1 id cb' Hin') as (Hcb' & _ & _).
  cbn [option_map snd]. subst cb'.
  unfold resolve, settle, clearTimeout, set_pending, Map_delete, is_settled in *.
  cbn [promise timeout settled nextId pending stdoutBuffer timers stdin now].
  rewrite Hunsettled. unfold answered. f_equal.
  apply filter_ext. intros [k x]. simpl. now rewrite (key_matches id k idv Hkey).
Qed.

Lemma on_line_unmatched (P : platform) (c : client) (line : string)
  (message idv : value) :
  JSON_parse P line = Some message ->
  JS.get message "id" = Ok idv ->
  Map_has (pending c) idv = false ->
  on_line P line c = c.
Proof.
  intros Hparse Hget Hhas. unfold on_line. rewrite Hparse, Hget, Hhas.
  now rewrite andb_false_r.
Qed.

Lemma answered_invariant (id : Z) (message : value) (c : client) (cb : callbacks) :
  client_invariant c -> In (id, cb) (pending c) -> client_invariant (answered id message c).
Proof.
  intros (I0 & I1 & I3 & I4 & I5) Hin.
  destruct (I1 id cb Hin) as (_ & Hrange & _).
  unfold client_invariant, answered.
  cbn [nextId pending timers settled].
  split; [exact I0 |]. split; [| split; [| split]].
  - intros k x Hk. apply filter_In in Hk. destruct Hk as [Hk Hne]. simpl in Hne.
    destruct (I1 k x Hk) as (H1 & H2 & H3). split; [exact H1 | split; [exact H2 |]].
    unfold is_settled in *. cbn [settled]. rewrite existsb_app, H3. simpl.
    apply negb_true_iff in Hne. rewrite Z.eqb_sym. now rewrite Hne.
  - intros x Hx. apply filter_In in Hx. destruct Hx as [Hx Hne].
    destruct (I3 x Hx) as (cbx & Hcbx). exists cbx. apply filter_In. auto.
  - apply NoDup_map_filter. exact I4.
  - intros k s Hk. apply in_app_or in Hk. destruct Hk as [Hk | [Hk | []]].
    + exact (I5 k s Hk).
    + inv Hk. lia.
Qed.

Lemma on_line_invariant (P : platform) (line : string) (c : client) :
  client_invariant c -> client_invariant (on_line P line c).
Proof.
  intros Hinv. unfold on_line.
  destruct (JSON_parse P line) as [message |] eqn:Hparse; [| exact Hinv].
  destruct (JS.get message "id") as [idv |] eqn:Hget; [| exact Hinv].
  destruct (JS.truthy idv && Map_has (pending c) idv) eqn:Hmatch; [| exact Hinv].
  apply andb_true_iff in Hmatch. destruct Hmatch as [_ Hhas].
  unfold Map_has in Hhas. apply existsb_exists in Hhas.
  destruct Hhas as ([id cb] & Hin & Hkey). simpl in Hkey.
  pose proof (on_line_matched P c line message idv id cb Hinv Hparse Hget Hin Hkey) as E.
  unfold on_line in E. rewrite Hparse, Hget in E.
  rewrite (same_key_truthy id idv Hkey) in E
    by (destruct Hinv as (_ & I1 & _); destruct (I1 id cb Hin) as (_ & ? & _); lia).
  assert (Hhas : Map_has (pending c) idv = true).
  { unfold Map_has. apply existsb_exists. exists (id, cb). auto. }
  rewrite Hhas in E. cbn [andb] in E. rewrite E.
  exact (answered_invariant id message c cb Hinv Hin).
Qed.

Lemma set_stdoutBuffer_invariant (b : string) (c : client) :
  client_invariant c -> client_invariant (set_stdoutBuffer b c).
Proof. intros H. exact H. Qed.

Lemma client_lines_invariant (P : platform) (fuel : nat) (c c' : client) :
  client_invariant c -> lines P fuel c = Some c' -> client_invariant c'.
Proof.
  revert c. induction fuel as [| fuel IH]; intros c Hinv H; [discriminate |].
  cbn [lines] in H.
  destruct (Str.indexOf Str.LF (stdoutBuffer c)) as [i |]; [| inv H; exact Hinv].
  destruct (Str.is_empty _).
  - apply (IH _ (set_stdoutBuffer_invariant _ c Hinv) H).
  - apply (IH _ (on_line_invariant P _ _ (set_stdoutBuffer_invariant _ c Hinv)) H).
Qed.

Lemma on_data_invariant (P : platform) (chunk : string) (c : client) :
  client_invariant c -> client_invariant (on_data P chunk c).
Proof.
  intros Hinv. unfold on_data.
  destruct (lines P _ _) as [c' |] eqn:E.
  - exact (client_lines_invariant P _ _ c' (set_stdoutBuffer_invariant _ c Hinv) E).
  - exact Hinv.
Qed.

Lemma Map_set_fresh (m : list (Z * callbacks)) (key : Z) (v : callbacks) :
  (forall k cb, In (k, cb) m -> k <> key) -> Map_set m key v = m ++ [(key, v)].
Proof.
  induction m as [| [k cb] r IH]; intros H; simpl; [reflexivity |].
  destruct (k =? key) eqn:E.
  - apply Z.eqb_eq in E. exfalso. apply (H k cb); [now left | exact E].
  - f_equal. apply IH. intros k' cb' Hin. apply (H k' cb'). now right.
Qed.

Lemma call_pending (method : string) (params : value) (c : client) :
  client_invariant c ->
  pending (snd (call method params c))
  = pending c ++ [(nextId c, {| timeout := nextId c; promise := nextId c |})].
Proof.
  intros (_ & I1 & _). unfold call. cbn [snd pending].
  apply Map_set_fresh. intros k cb Hin. destruct (I1 k cb Hin) as (_ & ? & _). lia.
Qed.

Lemma call_invariant (method : string) (params : value) (c : client) :
  client_invariant c -> client_invariant (snd (call method params c)).
Proof.
  intros Hinv. pose proof (call_pending method params c Hinv) as Hp.
  destruct Hinv as (I0 & I1 & I3 & I4 & I5).
  unfold client_invariant. rewrite Hp. unfold call.
  cbn [snd nextId timers settled is_settled].
  split; [lia |]. split; [| split; [| split]].
  - intros k cb Hin. apply in_app_or in Hin. destruct Hin as [Hin | [Hin | []]].
    + destruct (I1 k cb Hin) as (H1 & H2 & H3).
      split; [exact H1 | split; [lia | exact H3]].
    + inv Hin. split; [reflexivity |].
      split.
      * lia.
      * apply is_settled_false. intros s Hs. specialize (I5 _ _ Hs). lia.
  - intros x Hx. apply in_app_or in Hx. destruct Hx as [Hx | [Hx | []]].
    + destruct (I3 x Hx) as (cb & Hcb). exists cb. apply in_or_app. now left.
    + subst x. cbn [handle]. eexists. apply in_or_app. right. left. reflexivity.
  - rewrite map_app. cbn [map handle]. apply NoDup_app.
    + exact I4.
    + constructor; [intros [] | constructor].
    + intros h Hh [Hh' | []]. subst h. apply in_map_iff in Hh.
      destruct Hh as (x & Hx & Hin). destruct (I3 x Hin) as (cb & Hcb).
      destruct (I1 _ _ Hcb) as (_ & ? & _). lia.
  - intros k s Hk. specialize (I5 k s Hk). lia.
Qed.

(* ---------------------------------------------------------------------- *)
(** Timeouts *)

Lemma settle_outcome_kept (id k : Z) (s how : settlement) (c : client) :
  outcome_of c id = Some s -> outcome_of (settle k how c) id = Some s.
Proof.
  intros H. unfold settle. destruct (is_settled c k); [exact H |].
  unfold outcome_of in *. cbn [settled]. now apply outcome_of_kept.
Qed.

Lemma settle_unsettled (id : Z) (how : settlement) (c : client) :
  is_settled c id = false -> outcome_of (settle id how c) id = Some how.
Proof.
  intros H. unfold settle. rewrite H. unfold outcome_of. cbn [settled].
  apply outcome_of_appended. exact H.
Qed.

Lemma settle_other_unsettled (id k : Z) (how : settlement) (c : client) :
  k <> id -> is_settled c id = false -> is_settled (settle k how c) id = false.
Proof.
  intros Hne H. unfold settle. destruct (is_settled c k); [exact H |].
  unfold is_settled in *. cbn [settled]. rewrite existsb_app, H. simpl.
  apply Z.eqb_neq in Hne. now rewrite Hne.
Qed.

Lemma settle_fields (id : Z) (how : settlement) (c : client) :
  nextId (settle id how c) = nextId c
  /\ pending (settle id how c) = pending c
  /\ timers (settle id how c) = timers c.
Proof. unfold settle. destruct (is_settled c id); auto. Qed.

Lemma Map_delete_number (m : list (Z * callbacks)) (id : Z) :
  Map_delete m (number id) = filter (fun e => negb (fst e =? id)) m.
Proof.
  unfold Map_delete. apply filter_ext. intros [k cb]. cbn [fst].
  now rewrite same_key_number.
Qed.

Lemma Map_has_deleted (m : list (Z * callbacks)) (id : Z) :
  Map_has (filter (fun e => negb (fst e =? id)) m) (number id) = false.
Proof.
  unfold Map_has. apply not_true_is_false. intros H. apply existsb_exists in H.
  destruct H as ([k cb] & Hin & Hk). apply filter_In in Hin. destruct Hin as [_ Hne].
  cbn [fst] in *. rewrite same_key_number in Hk. rewrite Hk in Hne. discriminate.
Qed.

Lemma Map_has_filter (m : list (Z * callbacks)) (g : Z * callbacks -> bool) (v : value) :
  Map_has m v = false -> Map_has (filter g m) v = false.
Proof.
  unfold Map_has. intros H. apply not_true_is_false. intros Ht.
  apply existsb_exists in Ht. destruct Ht as (e & Hin & He).
  apply filter_In in Hin. destruct Hin as [Hin _].
  assert (existsb (fun e => same_key (fst e) v) m = true).
  { apply existsb_exists. exists e. auto. }
  congruence.
Qed.

Lemma on_timeout_fields (id : Z) (method : string) (c : client) :
  nextId (on_timeout id method c) = nextId c
  /\ pending (on_timeout id method c) = filter (fun e => negb (fst e =? id)) (pending c)
  /\ timers (on_timeout id method c) = timers c.
Proof.
  unfold on_timeout.
  destruct (settle_fields id (Rejected (Timeout id method))
              (set_pending (Map_delete (pending c) (VNum (inject_Z id))) c))
    as (-> & -> & ->).
  cbn [set_pending nextId pending timers]. fold (number id).
  now rewrite Map_delete_number.
Qed.

Lemma on_timeout_invariant (id : Z) (method : string) (c : client) :
  client_invariant c ->
  id < nextId c ->
  ~ In id (map handle (timers c)) ->
  client_invariant (on_timeout id method c).
Proof.
  intros (I0 & I1 & I3 & I4 & I5) Hid Hnot.
  destruct (on_timeout_fields id method c) as (Hn & Hp & Ht).
  unfold client_invariant. rewrite Hn, Hp, Ht.
  split; [exact I0 |]. split; [| split; [| split]].
  - intros k cb Hin. apply filter_In in Hin. destruct Hin as [Hin Hne]. simpl in Hne.
    destruct (I1 k cb Hin) as (H1 & H2 & H3). split; [exact H1 | split; [exact H2 |]].
    unfold on_timeout. apply settle_other_unsettled.
    + apply negb_true_iff, Z.eqb_neq in Hne. congruence.
    + exact H3.
  - intros x Hx. destruct (I3 x Hx) as (cb & Hcb). exists cb.
    apply filter_In. split; [exact Hcb |]. simpl.
    apply negb_true_iff, Z.eqb_neq. intros E. apply Hnot. rewrite <- E.
    now apply in_map.
  - exact I4.
  - intros k s Hk. unfold on_timeout, settle in Hk.
    destruct (is_settled _ id); cbn [settled set_pending] in Hk.
    + exact (I5 k s Hk).
    + apply in_app_or in Hk. destruct Hk as [Hk | [Hk | []]];
        [exact (I5 k s Hk) | inv Hk; exact Hid].
Qed.

Lemma fire_invariant (fired : list timer) (c : client) :
  client_invariant c ->
  (forall x, In x fired ->
     handle x < nextId c /\ ~ In (handle x) (map handle (timers c))) ->
  client_invariant (fire fired c).
Proof.
  revert c. induction fired as [| x r IH]; intros c Hinv Hf; [exact Hinv |].
  cbn [fire fold_left]. apply IH.
  - apply on_timeout_invariant; [exact Hinv | |]; apply Hf; now left.
  - intros y Hy. destruct (on_timeout_fields (handle x) (waiting_for x) c) as (-> & _ & ->).
    apply Hf. now right.
Qed.

Lemma fire_outcome_kept (fired : list timer) (c : client) (id : Z) (s : settlement) :
  outcome_of c id = Some s -> outcome_of (fire fired c) id = Some s.
Proof.
  revert c. induction fired as [| x r IH]; intros c H; [exact H |].
  cbn [fire fold_left]. apply IH. unfold on_timeout. now apply settle_outcome_kept.
Qed.

Lemma fire_not_pending (fired : list timer) (c : client) (v : value) :
  Map_has (pending c) v = false -> Map_has (pending (fire fired c)) v = false.
Proof.
  revert c. induction fired as [| x r IH]; intros c H; [exact H |].
  cbn [fire fold_left]. apply IH.
  destruct (on_timeout_fields (handle x) (waiting_for x) c) as (_ & -> & _).
  now apply Map_has_filter.
Qed.

Lemma fire_times_out (fired : list timer) (c : client) (tm : timer) :
  In tm fired ->
  NoDup (map handle fired) ->
  is_settled c (handle tm) = false ->
  Map_has (pending (fire fired c)) (number (handle tm)) = false
  /\ outcome_of (fire fired c) (handle tm)
     = Some (Rejected (Timeout (handle tm) (waiting_for tm))).
Proof.
  revert c. induction fired as [| x r IH]; intros c Hin Hnd Hun; [destruct Hin |].
  cbn [fire fold_left]. fold (fire r (on_timeout (handle x) (waiting_for x) c)).
  cbn [map] in Hnd. inv Hnd.
  destruct Hin as [-> | Hin].
  - split.
    + apply fire_not_pending.
      destruct (on_timeout_fields (handle tm) (waiting_for tm) c) as (_ & -> & _).
      apply Map_has_deleted.
    + apply fire_outcome_kept. unfold on_timeout. apply settle_unsettled. exact Hun.
  - apply IH; [exact Hin | assumption |].
    unfold on_timeout. apply settle_other_unsettled; [| exact Hun].
    intros E. apply H1. rewrite E. now apply in_map.
Qed.

Lemma NoDup_map_injective {A B : Type} (f : A -> B) (l : list A) (x y : A) :
  NoDup (map f l) -> In x l -> In y l -> f x = f y -> x = y.
Proof.
  induction l as [| a r IH]; simpl; intros Hnd Hx Hy E; [destruct Hx |].
  inv Hnd. destruct Hx as [-> | Hx], Hy as [-> | Hy].
  - reflexivity.
  - exfalso. apply H1. rewrite E. now apply in_map.
  - exfalso. apply H1. rewrite <- E. now apply in_map.
  - now apply IH.
Qed.

Lemma elapse_fire (ms : Z) (c : client) :
  elapse ms c =
  fire (filter (fun x => due x <=? now c + ms) (timers c))
    {| nextId := nextId c; pending := pending c; stdoutBuffer := stdoutBuffer c;
       timers := filter (fun x => negb (due x <=? now c + ms)) (timers c);
       settled := settled c; stdin := stdin c; now := now c + ms |}.
Proof. reflexivity. Qed.

Lemma elapse_invariant (ms : Z) (c : client) :
  client_invariant c -> client_invariant (elapse ms c).
Proof.
  intros (I0 & I1 & I3 & I4 & I5). rewrite elapse_fire. apply fire_invariant.
  - unfold client_invariant. cbn [nextId pending timers settled is_settled].
    split; [exact I0 |]. split; [exact I1 |]. split; [| split; [| exact I5]].
    + intros x Hx. apply filter_In in Hx. apply I3. apply Hx.
    + apply NoDup_map_filter. exact I4.
  - intros x Hx. apply filter_In in Hx. destruct Hx as [Hx Hdue].
    cbn [nextId timers]. split.
    + destruct (I3 x Hx) as (cb & Hcb). destruct (I1 _ _ Hcb) as (_ & ? & _). lia.
    + intros Hin. apply in_map_iff in Hin. destruct Hin as (y & Hy & Hin).
      apply filter_In in Hin. destruct Hin as [Hin Hnot].
      assert (y = x) by (apply (NoDup_map_injective handle (timers c)); assumption).
      subst y. rewrite Hdue in Hnot. discriminate.
Qed.

Lemma elapse_times_out (ms : Z) (c : client) (tm : timer) :
  client_invariant c ->
  In tm (timers c) ->
  due tm <= now c + ms ->
  Map_has (pending (elapse ms c)) (number (handle tm)) = false
  /\ outcome_of (elapse ms c) (handle tm)
     = Some (Rejected (Timeout (handle tm) (waiting_for tm))).
Proof.
  intros (I0 & I1 & I3 & I4 & I5) Hin Hdue. rewrite elapse_fire.
  apply fire_times_out.
  - apply filter_In. split; [exact Hin | now apply Z.leb_le].
  - apply NoDup_map_filter. exact I4.
  - destruct (I3 tm Hin) as (cb & Hcb). destruct (I1 _ _ Hcb) as (_ & _ & H). exact H.
Qed.

(* ---------------------------------------------------------------------- *)
(** Exit of the server *)

Lemma reject_fields (cb : callbacks) (reason : failure) (c : client) :
  nextId (reject cb reason c) = nextId c
  /\ pending (reject cb reason c) = pending c
  /\ timers (reject cb reason c) = filter (fun t => negb (handle t =? timeout cb)) (timers c).
Proof.
  unfold reject.
  destruct (settle_fields (promise cb) (Rejected reason) (clearTimeout (timeout cb) c))
    as (-> & -> & ->).
  auto.
Qed.

Lemma clearTimeout_is_settled (h id : Z) (c : client) :
  is_settled (clearTimeout h c) id = is_settled c id.
Proof. reflexivity. Qed.

Lemma reject_all_outcome_kept (code : value) (entries : list (Z * callbacks)) (c : client)
  (id : Z) (s : settlement) :
  outcome_of c id = Some s -> outcome_of (reject_all code entries c) id = Some s.
Proof.
  revert c. induction entries as [| e r IH]; intros c H; [exact H |].
  cbn [reject_all fold_left]. apply IH. unfold reject. now apply settle_outcome_kept.
Qed.

Lemma reject_all_rejects (code : value) (entries : list (Z * callbacks)) (c : client)
  (id : Z) (cb : callbacks) :
  (forall k x, In (k, x) entries -> x = {| timeout := k; promise := k |}) ->
  In (id, cb) entries ->
  is_settled c id = false ->
  outcome_of (reject_all code entries c) id = Some (Rejected (ServerExited id code)).
Proof.
  revert c. induction entries as [| [k x] r IH]; intros c Hcb Hin Hun; [destruct Hin |].
  cbn [reject_all fold_left fst snd].
  fold (reject_all code r (reject x (ServerExited k code) c)).
  pose proof (Hcb k x (or_introl eq_refl)) as Hx. subst x.
  destruct (Z.eq_dec k id) as [-> | Hne].
  - apply reject_all_outcome_kept. unfold reject. cbn [promise timeout].
    apply settle_unsettled. exact Hun.
  - destruct Hin as [Hin | Hin]; [inv Hin; congruence |].
    apply IH; [intros k' x' H'; apply Hcb; now right | exact Hin |].
    unfold reject. cbn [promise timeout]. apply settle_other_unsettled; assumption.
Qed.

Lemma reject_all_fields (code : value) (entries : list (Z * callbacks)) (c : client) :
  nextId (reject_all code entries c) = nextId c
  /\ (forall t, In t (timers (reject_all code entries c)) ->
        In t (timers c)
        /\ forall e, In e entries -> handle t <> timeout (snd e))
  /\ (forall k s, In (k, s) (settled (reject_all code entries c)) ->
        In (k, s) (settled c) \/ exists e, In e entries /\ k = promise (snd e)).
Proof.
  revert c. induction entries as [| e r IH]; intros c.
  - cbn [reject_all fold_left]. split; [reflexivity |]. split; [| auto].
    intros t Ht. split; [exact Ht | intros e []].
  - cbn [reject_all fold_left].
    fold (reject_all code r (reject (snd e) (ServerExited (fst e) code) c)).
    destruct (IH (reject (snd e) (ServerExited (fst e) code) c)) as (Hn & Ht & Hs).
    destruct (reject_fields (snd e) (ServerExited (fst e) code) c) as (Hn' & _ & Ht').
    split; [congruence |]. split.
    + intros t Hin. destruct (Ht t Hin) as [Hin' Hr]. rewrite Ht' in Hin'.
      apply filter_In in Hin'. destruct Hin' as [Hin' Hne].
      split; [exact Hin' |]. intros e' [<- | He'].
      * now apply negb_true_iff, Z.eqb_neq in Hne.
      * now apply Hr.
    + intros k s Hin. destruct (Hs k s Hin) as [Hin' | (e' & He' & Hk)].
      * unfold reject, settle in Hin'.
        destruct (is_settled _ _); cbn [settled clearTimeout] in Hin'; [now left |].
        apply in_app_or in Hin'. destruct Hin' as [Hin' | [Hin' | []]]; [now left |].
        inv Hin'. right. exists e. split; [now left | reflexivity].
      * right. exists e'. split; [now right | exact Hk].
Qed.

Lemma on_exit_invariant (code : value) (c : client) :
  client_invariant c -> client_invariant (on_exit code c).
Proof.
  intros (I0 & I1 & I3 & I4 & I5).
  change (on_exit code c) with (set_pending [] (reject_all code (pending c) c)).
  destruct (reject_all_fields code (pending c) c) as (Hn & Ht & Hs).
  assert (Hnone : timers (reject_all code (pending c) c) = []).
  { destruct (timers (reject_all code (pending c) c)) as [| t r] eqn:E; [reflexivity |].
    destruct (Ht t (or_introl eq_refl)) as [Hin Hne].
    destruct (I3 t Hin) as (cb & Hcb). destruct (I1 _ _ Hcb) as (-> & _).
    exfalso. apply (Hne _ Hcb). reflexivity. }
  unfold client_invariant. cbn [set_pending nextId pending timers settled].
  rewrite Hn, Hnone.
  split; [exact I0 |]. split; [intros k cb [] |]. split; [intros x [] |].
  split; [constructor |].
  intros k s Hin. destruct (Hs k s Hin) as [Hin' | ([k' cb] & He & ->)].
  - exact (I5 k s Hin').
  - destruct (I1 _ _ He) as (-> & ? & _). cbn [snd promise]. lia.
Qed.

Lemma on_exit_rejects (code : value) (c : client) (id : Z) (cb : callbacks) :
  client_invariant c ->
  In (id, cb) (pending c) ->
  pending (on_exit code c) = []
  /\ outcome_of (on_exit code c) id = Some (Rejected (ServerExited id code)).
Proof.
  intros (I0 & I1 & _) Hin. split; [reflexivity |].
  change (outcome_of (reject_all code (pending c) c) id
          = Some (Rejected (ServerExited id code))).
  apply (reject_all_rejects code (pending c) c id cb).
  - intros k x Hk. apply (I1 k x Hk).
  - exact Hin.
  - apply (I1 id cb Hin).
Qed.

(* ---------------------------------------------------------------------- *)
(** Every history keeps the invariant *)

Lemma new_invariant (t : Z) : client_invariant (new t).
Proof.
  unfold client_invariant, new. cbn.
  split; [lia |]. split; [intros k cb [] |]. split; [intros x [] |].
  split; [constructor | intros k s []].
Qed.

Lemma step_invariant (P : platform) (c : client) (e : event) :
  client_invariant c -> client_invariant (step P c e).
Proof.
  intros H. destruct e; cbn [step].
  - now apply call_invariant.
  - now apply on_data_invariant.
  - now apply elapse_invariant.
  - now apply on_exit_invariant.
Qed.

Lemma after_invariant (P : platform) (t : Z) (history : list event) :
  client_invariant (after P t history).
Proof.
  unfold after. generalize (new_invariant t). generalize (new t).
  induction history as [| e r IH]; intros c Hc; [exact Hc |].
  cbn [fold_left]. apply IH. now apply step_invariant.
Qed.

Lemma on_line_nextId (P : platform) (line : string) (c : client) :
  nextId (on_line P line c) = nextId c.
Proof.
  unfold on_line.
  destruct (JSON_parse P line) as [message |]; [| reflexivity].
  destruct (JS.get message "id") as [idv |]; [| reflexivity].
  destruct (JS.truthy idv && Map_has (pending c) idv); [| reflexivity].
  destruct (Map_get (pending c) idv) as [cb |]; [| reflexivity].
  unfold resolve.
  destruct (settle_fields (promise cb) (Resolved message)
              (clearTimeout (timeout cb) (set_pending (Map_delete (pending c) idv) c)))
    as (-> & _). reflexivity.
Qed.

Lemma client_lines_nextId (P : platform) (fuel : nat) (c c' : client) :
  lines P fuel c = Some c' -> nextId c' = nextId c.
Proof.
  revert c. induction fuel as [| fuel IH]; intros c H; [discriminate |].
  cbn [lines] in H.
  destruct (Str.indexOf Str.LF (stdoutBuffer c)) as [i |]; [| now inv H].
  destruct (Str.is_empty _).
  - rewrite (IH _ H). reflexivity.
  - rewrite (IH _ H). now rewrite on_line_nextId.
Qed.

Lemma fire_nextId (fired : list timer) (c : client) : nextId (fire fired c) = nextId c.
Proof.
  revert c. induction fired as [| x r IH]; intros c; [reflexivity |].
  cbn [fire fold_left]. fold (fire r (on_timeout (handle x) (waiting_for x) c)).
  rewrite IH. apply on_timeout_fields.
Qed.

Lemma step_nextId (P : platform) (c : client) (e : event) :
  nextId (step P c e) = nextId c + (if is_call e then 1 else 0).
Proof.
  destruct e; cbn [step is_call].
  - reflexivity.
  - unfold on_data. destruct (lines P _ _) as [c' |] eqn:E.
    + rewrite (client_lines_nextId P _ _ _ E). cbn [set_stdoutBuffer nextId]. lia.
    + cbn [set_stdoutBuffer nextId]. lia.
  - rewrite elapse_fire, fire_nextId. cbn [nextId]. lia.
  - change (on_exit code c) with (set_pending [] (reject_all code (pending c) c)).
    cbn [set_pending nextId].
    destruct (reject_all_fields code (pending c) c) as (-> & _). lia.
Qed.

Lemma after_nextId (P : platform) (t : Z) (history : list event) :
  nextId (after P t history) = 1 + Z.of_nat (length (filter is_call history)).
Proof.
  unfold after. change 1 with (nextId (new t)) at 1. generalize (new t).
  induction history as [| e r IH]; intros c; cbn [fold_left filter length].
  - simpl. lia.
  - rewrite IH, step_nextId. destruct (is_call e); cbn [length]; lia.
Qed.

(* ---------------------------------------------------------------------- *)
(** One line of the server's output *)

Lemma client_on_data_line (P : platform) (c : client) (chunk line rest : string) :
  (stdoutBuffer c ++ chunk)%string = (line ++ newline ++ rest)%string ->
  Str.indexOf Str.LF line = None ->
  Str.indexOf Str.LF rest = None ->
  on_data P chunk c =
  if Str.is_empty (Str.trim line) then set_stdoutBuffer rest c
  else on_line P (Str.trim line) (set_stdoutBuffer rest c).
Proof.
  intros Hbuf Hline Hrest.
  change (line ++ newline ++ rest)%string with (line ++ String Str.LF rest)%string in Hbuf.
  unfold on_data. cbn [set_stdoutBuffer stdoutBuffer]. rewrite Hbuf.
  cbn [lines set_stdoutBuffer stdoutBuffer].
  rewrite (indexOf_first_line line rest Hline).
  rewrite slice_to_first_line, slice_from_first_line.
  assert (Hidle : forall c0, stdoutBuffer c0 = rest ->
                    lines P (String.length (line ++ String Str.LF rest)) c0 = Some c0).
  { intros c0 Hc0. rewrite length_append. cbn [String.length].
    rewrite Nat.add_succ_r. cbn [lines]. rewrite Hc0, Hrest. reflexivity. }
  destruct (Str.is_empty (Str.trim line)).
  - rewrite Hidle by reflexivity. reflexivity.
  - rewrite Hidle; [reflexivity |].
    unfold on_line.
    destruct (JSON_parse P _) as [message |]; [| reflexivity].
    destruct (JS.get message "id") as [idv |]; [| reflexivity].
    destruct (JS.truthy idv && _); [| reflexivity].
    destruct (Map_get _ idv) as [cb |]; [| reflexivity].
    unfold resolve, settle. destruct (is_settled _ _); reflexivity.
Qed.

Lemma Map_has_same_key (m : list (Z * callbacks)) (id : Z) (idv : value) :
  same_key id idv = true -> Map_has m idv = Map_has m (number id).
Proof.
  intros H. unfold Map_has. induction m as [| [k cb] r IH]; [reflexivity |].
  cbn [existsb fst]. now rewrite IH, (key_matches id k idv H), same_key_number.
Qed.

(** C8: at any moment of the client's life, after any history of calls,
    output chunks, passing time and exit.
    - A call is sent under the id one more than the number of calls made
      before it (1, 2, 3, ...), is stored as pending under that id, and
      arms a timer due REQUEST_TIMEOUT_MS later.
    - A line of output that decodes to a message whose id is that of a
      pending entry removes that entry and no other, disarms its timer and
      resolves its call with the message; a message with an id that is
      not pending changes nothing.
    - Once the time of a timer has come, its entry is gone from the
      pending table and its call is rejected with the timeout error; a
      response with that id arriving later changes nothing.
    - When the server exits, the pending table is emptied and every call
      that was pending is rejected with the process-exited error that
      carries the exit code. *)
Theorem C8_request_correlation (P : platform) (t : Z) (history : list event) :
  let c := after P t history in
  (forall method params,
      let id := fst (call method params c) in
      let c' := snd (call method params c) in
      id = 1 + Z.of_nat (length (filter is_call history))
      /\ stdin c' = stdin c ++ [VObj [("jsonrpc", VStr "2.0"); ("id", number id);
                                      ("method", VStr method); ("params", params)]%string]
      /\ pending c' = pending c ++ [(id, {| timeout := id; promise := id |})]
      /\ timers c' = timers c ++ [{| handle := id; due := now c + REQUEST_TIMEOUT_MS;
                                     waiting_for := method |}])
  /\ (forall chunk line rest message idv,
         (stdoutBuffer c ++ chunk)%string = (line ++ newline ++ rest)%string ->
         Str.indexOf Str.LF line = None ->
         Str.indexOf Str.LF rest = None ->
         Str.is_empty (Str.trim line) = false ->
         JSON_parse P (Str.trim line) = Some message ->
         JS.get message "id" = Ok idv ->
         (forall id cb,
             In (id, cb) (pending c) -> same_key id idv = true ->
             on_data P chunk c = answered id message (set_stdoutBuffer rest c)
             /\ outcome_of (on_data P chunk c) id = Some (Resolved message))
         /\ (Map_has (pending c) idv = false ->
             on_data P chunk c = set_stdoutBuffer rest c))
  /\ (forall tm ms,
         In tm (timers c) ->
         due tm <= now c + ms ->
         let c' := elapse ms c in
         Map_has (pending c') (number (handle tm)) = false
         /\ outcome_of c' (handle tm) = Some (Rejected (Timeout (handle tm) (waiting_for tm)))
         /\ forall chunk line rest message idv,
              (stdoutBuffer c' ++ chunk)%string = (line ++ newline ++ rest)%string ->
              Str.indexOf Str.LF line = None ->
              Str.indexOf Str.LF rest = None ->
              Str.is_empty (Str.trim line) = false ->
              JSON_parse P (Str.trim line) = Some message ->
              JS.get message "id" = Ok idv ->
              same_key (handle tm) idv = true ->
              on_data P chunk c' = set_stdoutBuffer rest c')
  /\ (forall code,
         pending (on_exit code c) = []
         /\ forall id cb,
              In (id, cb) (pending c) ->
              outcome_of (on_exit code c) id = Some (Rejected (ServerExited id code))).
Proof.
  intros c.
  pose proof (after_invariant P t history) as Hinv. fold c in Hinv.
  assert (Hline : forall (c0 : client) chunk line rest message idv,
             (stdoutBuffer c0 ++ chunk)%string = (line ++ newline ++ rest)%string ->
             Str.indexOf Str.LF line = None ->
             Str.indexOf Str.LF rest = None ->
             Str.is_empty (Str.trim line) = false ->
             JSON_parse P (Str.trim line) = Some message ->
             JS.get message "id" = Ok idv ->
             Map_has (pending c0) idv = false ->
             on_data P chunk c0 = set_stdoutBuffer rest c0).
  { intros c0 chunk line rest message idv Hbuf Hl Hr Hne Hparse Hget Hhas.
    rewrite (client_on_data_line P c0 chunk line rest Hbuf Hl Hr), Hne.
    apply (on_line_unmatched P _ _ message idv Hparse Hget). exact Hhas. }
  split; [| split; [| split]].
  - intros method params id c'.
    assert (Hid : id = nextId c) by reflexivity.
    split; [rewrite Hid; apply after_nextId |].
    split; [reflexivity |].
    split; [apply (call_pending method params c Hinv) | reflexivity].
  - intros chunk line rest message idv Hbuf Hl Hr Hne Hparse Hget.
    split; [| apply (Hline c chunk line rest message idv); assumption].
    intros id cb Hin Hkey.
    assert (E : on_data P chunk c = answered id message (set_stdoutBuffer rest c)).
    { rewrite (client_on_data_line P c chunk line rest Hbuf Hl Hr), Hne.
      apply (on_line_matched P _ _ message idv id cb); try assumption. }
    split; [exact E |]. rewrite E.
    unfold outcome_of, answered. cbn [settled set_stdoutBuffer].
    apply outcome_of_appended.
    destruct Hinv as (_ & I1 & _). apply (I1 id cb Hin).
  - intros tm ms Hin Hdue c'.
    destruct (elapse_times_out ms c tm Hinv Hin Hdue) as [Hgone Hout].
    split; [exact Hgone | split; [exact Hout |]].
    intros chunk line rest message idv Hbuf Hl Hr Hne Hparse Hget Hkey.
    apply (Hline c' chunk line rest message idv); try assumption.
    rewrite (Map_has_same_key _ (handle tm) idv Hkey). exact Hgone.
  - intros code. split; [reflexivity |].
    intros id cb Hin. apply (on_exit_rejects code c id cb Hinv Hin).
Qed.

Lemma C8_witness :
  let P := Reference.node 0 in
  let c := after P 0 [Call "initialize" (VObj [])] in
  let line := Json.text "{'jsonrpc':'2.0','id':1,'result':{'ok':true}}" in
  let message := match Json.parse line with Some m => m | None => VNull end in
  on_data P (line ++ newline) c = answered 1 message (set_stdoutBuffer EmptyString c)
  /\ outcome_of (on_data P (line ++ newline) c) 1 = Some (Resolved message).
Proof.
  intros P c line message.
  apply (proj1 (proj1 (proj2 (C8_request_correlation P 0 [Call "initialize" (VObj [])]))
                  (line ++ newline)%string line EmptyString message (number 1)
                  eq_refl eq_refl eq_refl eq_refl eq_refl eq_refl)
           1 {| timeout := 1; promise := 1 |}).
  - left. reflexivity.
  - reflexivity.
Defined.

End Correlation.

(* ====================================================================== *)
(** ** What the store keeps, whatever the server receives *)

Section Preservation.
Variable P : platform.
Variable I : world -> Prop.

(** [I] does not mind the passing of a statement that changes nothing. *)
Hypothesis I_tick : forall w, I w -> I {| store := store w; statements := S (statements w) |}.

Lemma preserves_ret {A : Type} (a : A) : preserves I (ret a).
Proof. intros w o w' Hw H. now inv H. Qed.

Lemma preserves_throw {A : Type} (e : error) : preserves I (@throw A e).
Proof. intros w o w' Hw H. now inv H. Qed.

Lemma preserves_lift {A : Type} (x : outcome A) : preserves I (lift x).
Proof. intros w o w' Hw H. now inv H. Qed.

Lemma preserves_bind {A B : Type} (c : M A) (k : A -> M B) :
  preserves I c -> (forall a, preserves I (k a)) -> preserves I (bind c k).
Proof.
  intros Hc Hk w o w' Hw H. unfold bind in H.
  destruct (c w) as [[a | e] w1] eqn:E.
  - exact (Hk a w1 o w' (Hc w _ _ Hw E) H).
  - inv H. exact (Hc w _ _ Hw E).
Qed.

Lemma preserves_try_catch {A : Type} (c : M A) (h : error -> M A) :
  preserves I c -> (forall e, preserves I (h e)) -> preserves I (try_catch c h).
Proof.
  intros Hc Hh w o w' Hw H. unfold try_catch in H.
  destruct (c w) as [[a | e] w1] eqn:E.
  - inv H. exact (Hc w _ _ Hw E).
  - exact (Hh e w1 o w' (Hc w _ _ Hw E) H).
Qed.

Lemma preserves_query {A : Type} (q : Sqlite.database -> A) : preserves I (Database.query q).
Proof. intros w o w' Hw H. unfold Database.query in H. inv H. now apply I_tick. Qed.

Lemma preserves_run
  (stmt : Z -> Sqlite.database -> outcome (Sqlite.run_result * Sqlite.database)) :
  (forall w r d, I w ->
     stmt (CURRENT_TIMESTAMP P (statements w)) (store w) = Ok (r, d) ->
     I {| store := d; statements := S (statements w) |}) ->
  preserves I (Database.run P stmt).
Proof.
  intros Hstmt w o w' Hw H. unfold Database.run in H.
  destruct (stmt _ _) as [[r d] | e] eqn:E; inv H.
  - exact (Hstmt w r d Hw E).
  - now apply I_tick.
Qed.

(** What [I] has to survive: the six statements that write. *)
Hypothesis I_insert_project : forall a b c,
  preserves I (Database.run P (Sqlite.insert_project a b c)).
Hypothesis I_update_projects : forall sets id,
  preserves I (Database.run P (Sqlite.update_projects sets id)).
Hypothesis I_delete_project : forall id,
  preserves I (Database.run P (fun _ => Sqlite.delete_project id)).
Hypothesis I_insert_task : forall a b c d e f,
  preserves I (Database.run P (Sqlite.insert_task a b c d e f)).
Hypothesis I_update_tasks : forall sets id,
  preserves I (Database.run P (Sqlite.update_tasks sets id)).
Hypothesis I_delete_task : forall id,
  preserves I (Database.run P (fun _ => Sqlite.delete_task id)).

(** Follows the structure of a handler. *)
Ltac preserving :=
  repeat first
    [ apply preserves_ret
    | apply preserves_throw
    | apply preserves_lift
    | apply preserves_query
    | apply I_insert_project
    | apply I_update_projects
    | apply I_delete_project
    | apply I_insert_task
    | apply I_update_tasks
    | apply I_delete_task
    | apply preserves_bind; [| intros ?]
    | apply preserves_try_catch; [| intros ?]
    | match goal with
      | |- preserves _ (match ?x with _ => _ end) => destruct x
      | |- preserves _ (if ?b then _ else _) => destruct b
      end ].

Lemma preserves_tool (name args : value) : preserves I (MCPServer.tool P name args).
Proof.
  unfold MCPServer.tool.
  destruct name; try apply preserves_throw.
  repeat match goal with
         | |- preserves _ (if ?b then _ else _) => destruct b
         end;
    [ unfold MCPServer.createProject, Database.createProject
    | unfold MCPServer.listProjects, Database.getProjects
    | unfold MCPServer.addTask, Database.getProject, Database.addTask,
        Database.touch_project
    | unfold MCPServer.updateTask, Database.updateTask, Database.touch_project
    | unfold MCPServer.getTasks, Database.getTasks
    | unfold MCPServer.getProjectSummary, Database.getProject, Database.getProjectSummary
    | unfold MCPServer.deleteTask, Database.deleteTask, Database.touch_project
    | unfold MCPServer.deleteProject, Database.getProject, Database.deleteProject
    | ];
    cbv zeta; preserving.
Qed.

Lemma preserves_handleMessage (message : value) :
  preserves I (MCPServer.handleMessage P message).
Proof.
  unfold MCPServer.handleMessage, MCPServer.handleToolCall. cbv zeta.
  preserving; apply preserves_tool.
Qed.

Lemma lines_preserve (fuel : nat) (s : MCPServer.server) (o : outcome unit)
  (s' : MCPServer.server) :
  I (MCPServer.db s) -> MCPServer.lines P fuel s = Some (o, s') -> I (MCPServer.db s').
Proof.
  revert s. induction fuel as [| fuel IH]; intros s Hs H; [discriminate |].
  cbn [MCPServer.lines] in H.
  destruct (Str.indexOf Str.LF (MCPServer.inputBuffer s)) as [i |]; [| inv H; exact Hs].
  destruct (Str.is_empty _); [eapply IH; [| exact H]; exact Hs |].
  destruct (JSON_parse P _) as [message |]; [| inv H; exact Hs].
  cbn [MCPServer.db MCPServer.inputBuffer MCPServer.stdout] in H.
  destruct (MCPServer.handleMessage P message (MCPServer.db s)) as [[r | e] w] eqn:E.
  - eapply IH; [| exact H]. exact (preserves_handleMessage message _ _ _ Hs E).
  - inv H. exact (preserves_handleMessage message _ _ _ Hs E).
Qed.

Lemma on_data_preserves (chunk : string) (s : MCPServer.server) :
  I (MCPServer.db s) -> I (MCPServer.db (MCPServer.on_data P chunk s)).
Proof.
  intros Hs. unfold MCPServer.on_data.
  destruct (MCPServer.lines P _ _) as [[[u | e] s'] |] eqn:E.
  - eapply lines_preserve; [| exact E]. exact Hs.
  - cbn [MCPServer.sendError MCPServer.db].
    eapply lines_preserve; [| exact E]. exact Hs.
  - exact Hs.
Qed.

Lemma received_preserves (w : world) (chunks : list string) :
  I w -> I (MCPServer.db (received P w chunks)).
Proof.
  intros Hw. unfold received.
  assert (Hs : I (MCPServer.db (MCPServer.start w))) by exact Hw.
  revert Hs. generalize (MCPServer.start w).
  induction chunks as [| chunk r IH]; intros s Hs; [exact Hs |].
  cbn [fold_left]. apply IH. now apply on_data_preserves.
Qed.

End Preservation.

(* ---------------------------------------------------------------------- *)
(** The foreign key *)

Lemma sql_eq_sym (a b : Sqlite.sqlval) : Sqlite.sql_eq a b = Sqlite.sql_eq b a.
Proof.
  assert (Hq : forall x y, Qeq_bool x y = Qeq_bool y x).
  { intros x y. unfold Qeq_bool. apply Z.eqb_sym. }
  destruct a, b; simpl; auto using Z.eqb_sym, String.eqb_sym.
Qed.

Lemma set_project_column_id (c : string) (v : Sqlite.sqlval) (p : Sqlite.project) :
  Sqlite.p_id (Sqlite.set_project_column c v p) = Sqlite.p_id p.
Proof.
  unfold Sqlite.set_project_column.
  repeat match goal with |- context [if ?b then _ else _] => destruct b end; reflexivity.
Qed.

Lemma assign_project_id (sets : list (string * Sqlite.sqlval)) (p : Sqlite.project) :
  Sqlite.p_id (Sqlite.assign Sqlite.set_project_column sets p) = Sqlite.p_id p.
Proof.
  unfold Sqlite.assign. revert p.
  induction sets as [| [c v] r IH]; intros p; simpl; [reflexivity |].
  now rewrite IH, set_project_column_id.
Qed.

Lemma existsb_map_same {A : Type} (f : A -> bool) (g : A -> A) (l : list A) :
  (forall x, f (g x) = f x) -> existsb f (map g l) = existsb f l.
Proof.
  intros H. induction l as [| a r IH]; simpl; [reflexivity |]. now rewrite H, IH.
Qed.

Lemma foreign_keys_tick (w : world) :
  foreign_keys_hold (store w) ->
  foreign_keys_hold (store {| store := store w; statements := S (statements w) |}).
Proof. auto. Qed.

Lemma foreign_keys_insert_project (P : platform) (a b c : Sqlite.sqlval) :
  preserves (fun w => foreign_keys_hold (store w))
    (Database.run P (Sqlite.insert_project a b c)).
Proof.
  apply preserves_run; [exact foreign_keys_tick |].
  intros w r d Hw H. unfold Sqlite.insert_project in H.
  destruct (Sqlite.project_violation _); [discriminate |]. inv H.
  intros t Ht. cbn [store Sqlite.tasks] in Ht. specialize (Hw t Ht).
  unfold Sqlite.has_parent in *. cbn [store Sqlite.projects].
  rewrite existsb_app, Hw. reflexivity.
Qed.

Lemma foreign_keys_update_projects (P : platform) (sets : list (string * Sqlite.sqlval))
  (id : Sqlite.sqlval) :
  preserves (fun w => foreign_keys_hold (store w))
    (Database.run P (Sqlite.update_projects sets id)).
Proof.
  apply preserves_run; [exact foreign_keys_tick |].
  intros w r d Hw H. unfold Sqlite.update_projects in H.
  destruct (negb _); [discriminate |].
  destruct (Sqlite.first_violation _ _); [discriminate |]. inv H.
  intros t Ht. cbn [store Sqlite.tasks] in Ht. specialize (Hw t Ht).
  unfold Sqlite.has_parent in *. cbn [store Sqlite.projects].
  rewrite existsb_map_same; [exact Hw |].
  intros p. unfold Sqlite.project_matches.
  destruct (Sqlite.sql_eq (Sqlite.SInt (Sqlite.p_id p)) id); [| reflexivity].
  cbn [Sqlite.stamp_project Sqlite.p_id]. now rewrite assign_project_id.
Qed.

Lemma foreign_keys_delete_project (P : platform) (id : Sqlite.sqlval) :
  preserves (fun w => foreign_keys_hold (store w))
    (Database.run P (fun _ => Sqlite.delete_project id)).
Proof.
  apply preserves_run; [exact foreign_keys_tick |].
  intros w r d Hw H. unfold Sqlite.delete_project in H. inv H.
  intros t Ht. cbn [store Sqlite.tasks] in Ht. apply filter_In in Ht.
  destruct Ht as [Ht Hkept]. specialize (Hw t Ht).
  unfold Sqlite.has_parent in *. cbn [store Sqlite.projects].
  apply existsb_exists in Hw. destruct Hw as (p & Hp & Hmatch).
  apply existsb_exists. exists p. split; [| exact Hmatch].
  apply filter_In. split; [exact Hp |].
  apply negb_true_iff. apply not_true_is_false. intros Hgone.
  apply negb_true_iff in Hkept.
  assert (Horphan : existsb (fun p0 => Sqlite.task_of_project (Sqlite.SInt (Sqlite.p_id p0)) t)
                      (filter (Sqlite.project_matches id) (Sqlite.projects (store w)))
                    = true).
  { apply existsb_exists. exists p. split; [apply filter_In; auto |].
    unfold Sqlite.task_of_project, Sqlite.project_matches in *.
    now rewrite sql_eq_sym. }
  congruence.
Qed.

Lemma foreign_keys_insert_task (P : platform) (a b c d e f : Sqlite.sqlval) :
  preserves (fun w => foreign_keys_hold (store w))
    (Database.run P (Sqlite.insert_task a b c d e f)).
Proof.
  apply preserves_run; [exact foreign_keys_tick |].
  intros w r d0 Hw H. unfold Sqlite.insert_task in H.
  destruct (Sqlite.task_violation _); [discriminate |].
  destruct (Sqlite.has_parent _ _) eqn:Hparent; [| discriminate]. inv H.
  intros t Ht. cbn [store Sqlite.tasks] in Ht. apply in_app_or in Ht.
  destruct Ht as [Ht | [<- | []]]; [exact (Hw t Ht) | exact Hparent].
Qed.

Lemma foreign_keys_update_tasks (P : platform) (sets : list (string * Sqlite.sqlval))
  (id : Sqlite.sqlval) :
  preserves (fun w => foreign_keys_hold (store w))
    (Database.run P (Sqlite.update_tasks sets id)).
Proof.
  apply preserves_run; [exact foreign_keys_tick |].
  intros w r d Hw H. unfold Sqlite.update_tasks in H.
  destruct (negb _); [discriminate |].
  destruct (Sqlite.first_violation _ _); [discriminate |]. inv H.
  intros t Ht. cbn [store Sqlite.tasks] in Ht. apply in_map_iff in Ht.
  destruct Ht as (t0 & <- & Ht0). specialize (Hw t0 Ht0).
  unfold Sqlite.has_parent in *. cbn [store Sqlite.projects].
  destruct (Sqlite.task_matches id t0); [| exact Hw].
  cbn [Sqlite.stamp_task Sqlite.t_project_id].
  now destruct (assign_task_keeps sets t0) as [_ ->].
Qed.

Lemma foreign_keys_delete_task (P : platform) (id : Sqlite.sqlval) :
  preserves (fun w => foreign_keys_hold (store w))
    (Database.run P (fun _ => Sqlite.delete_task id)).
Proof.
  apply preserves_run; [exact foreign_keys_tick |].
  intros w r d Hw H. unfold Sqlite.delete_task in H. inv H.
  intros t Ht. cbn [store Sqlite.tasks] in Ht. apply filter_In in Ht.
  exact (Hw t (proj1 Ht)).
Qed.

(** The foreign key holds in every store the server reaches from an empty
    database. *)
Lemma foreign_keys_always_hold (P : platform) (chunks : list string) :
  foreign_keys_hold (store (MCPServer.db (received P fresh chunks))).
Proof.
  apply (received_preserves P (fun w => foreign_keys_hold (store w))).
  - exact foreign_keys_tick.
  - apply foreign_keys_insert_project.
  - apply foreign_keys_update_projects.
  - apply foreign_keys_delete_project.
  - apply foreign_keys_insert_task.
  - apply foreign_keys_update_tasks.
  - apply foreign_keys_delete_task.
  - intros t [].
Qed.

(* ---------------------------------------------------------------------- *)
(** No timestamp from the future *)

Section Stamps.
Variable P : platform.
Hypothesis clock : monotone_clock P.

Lemma stamps_tick (w : world) :
  stamps_in_past P w ->
  stamps_in_past P {| store := store w; statements := S (statements w) |}.
Proof.
  intros H p Hp. specialize (H p Hp). cbn [store statements] in *.
  pose proof (clock (statements w) (S (statements w)) ltac:(lia)). lia.
Qed.

(** A statement whose project rows are old rows or rows stamped now. *)
Lemma stamps_run
  (stmt : Z -> Sqlite.database -> outcome (Sqlite.run_result * Sqlite.database)) :
  (forall now d r d' p,
      stmt now d = Ok (r, d') -> In p (Sqlite.projects d') ->
      Sqlite.p_updated_at p = now
      \/ exists p0, In p0 (Sqlite.projects d)
                    /\ Sqlite.p_updated_at p = Sqlite.p_updated_at p0) ->
  preserves (stamps_in_past P) (Database.run P stmt).
Proof.
  intros Hstmt. apply preserves_run; [exact stamps_tick |].
  intros w r d Hw H p Hp. cbn [store statements] in *.
  pose proof (clock (statements w) (S (statements w)) ltac:(lia)) as Hclock.
  destruct (Hstmt _ _ _ _ p H Hp) as [-> | (p0 & Hp0 & ->)]; [lia |].
  specialize (Hw p0 Hp0). lia.
Qed.

Lemma stamps_always_in_past (chunks : list string) :
  stamps_in_past P (MCPServer.db (received P fresh chunks)).
Proof.
  apply (received_preserves P (stamps_in_past P)).
  - exact stamps_tick.
  - intros a b c. apply stamps_run. intros now d r d' p H Hp.
    unfold Sqlite.insert_project in H.
    destruct (Sqlite.project_violation _); [discriminate |]. inv H.
    cbn [Sqlite.projects] in Hp. apply in_app_or in Hp.
    destruct Hp as [Hp | [<- | []]]; [right; eauto | left; reflexivity].
  - intros sets id. apply stamps_run. intros now d r d' p H Hp.
    unfold Sqlite.update_projects in H.
    destruct (negb _); [discriminate |].
    destruct (Sqlite.first_violation _ _); [discriminate |]. inv H.
    cbn [Sqlite.projects] in Hp. apply in_map_iff in Hp.
    destruct Hp as (p0 & <- & Hp0).
    destruct (Sqlite.project_matches id p0); [left; reflexivity | right; eauto].
  - intros id. apply stamps_run. intros now d r d' p H Hp.
    unfold Sqlite.delete_project in H. inv H.
    cbn [Sqlite.projects] in Hp. apply filter_In in Hp. right. exists p. tauto.
  - intros a b c d e f. apply stamps_run. intros now d0 r d' p H Hp.
    rewrite (insert_task_projects _ _ _ _ _ _ _ _ _ _ H) in Hp. right. eauto.
  - intros sets id. apply stamps_run. intros now d r d' p H Hp.
    rewrite (update_tasks_projects _ _ _ _ _ _ H) in Hp. right. eauto.
  - intros id. apply stamps_run. intros now d r d' p H Hp.
    unfold Sqlite.delete_task in H. inv H. right. eauto.
  - intros p [].
Qed.

End Stamps.

(* ====================================================================== *)
(** ** Tools that only read *)

Lemma reads_only_ret {A : Type} (a : A) : reads_only (ret a).
Proof. intros w o w' H. now inv H. Qed.

Lemma reads_only_throw {A : Type} (e : error) : reads_only (@throw A e).
Proof. intros w o w' H. now inv H. Qed.

Lemma reads_only_lift {A : Type} (x : outcome A) : reads_only (lift x).
Proof. intros w o w' H. now inv H. Qed.

Lemma reads_only_query {A : Type} (q : Sqlite.database -> A) : reads_only (Database.query q).
Proof. intros w o w' H. unfold Database.query in H. now inv H. Qed.

Lemma reads_only_bind {A B : Type} (c : M A) (k : A -> M B) :
  reads_only c -> (forall a, reads_only (k a)) -> reads_only (bind c k).
Proof.
  intros Hc Hk w o w' H. unfold bind in H.
  destruct (c w) as [[a | e] w1] eqn:E.
  - rewrite (Hk a w1 o w' H). exact (Hc w _ _ E).
  - inv H. exact (Hc w _ _ E).
Qed.

Ltac reading :=
  repeat first
    [ apply reads_only_ret
    | apply reads_only_throw
    | apply reads_only_lift
    | apply reads_only_query
    | apply reads_only_bind; [| intros ?]
    | match goal with
      | |- reads_only (match ?x with _ => _ end) => destruct x
      | |- reads_only (if ?b then _ else _) => destruct b
      end ].

Lemma listProjects_reads_only (P : platform) (args : value) :
  reads_only (MCPServer.listProjects P args).
Proof. unfold MCPServer.listProjects, Database.getProjects. cbv zeta. reading. Qed.

Lemma getTasks_reads_only (P : platform) (args : value) :
  reads_only (MCPServer.getTasks P args).
Proof. unfold MCPServer.getTasks, Database.getTasks. cbv zeta. reading. Qed.

Lemma getProjectSummary_reads_only (P : platform) (args : value) :
  reads_only (MCPServer.getProjectSummary P args).
Proof.
  unfold MCPServer.getProjectSummary, Database.getProject, Database.getProjectSummary.
  cbv zeta. reading.
Qed.

(** X1: list_projects, get_tasks and get_project_summary never write:
    whatever their arguments and whether they answer or fail, the stored
    tables are the same afterwards.  initialize and tools/list do not
    even reach the database: the connection is left as it was and the
    request is answered with a result carrying the request's id. *)
Theorem X1_queries_never_write (P : platform) :
  (forall name args,
      In name ["list_projects"; "get_tasks"; "get_project_summary"]%string ->
      reads_only (MCPServer.tool P (VStr name) args))
  /\ (forall message method id w,
         JS.get message "method" = Ok (VStr method) ->
         JS.get message "id" = Ok id ->
         In method ["initialize"; "tools/list"]%string ->
         exists body,
           MCPServer.handleMessage P message w
           = (Ok {| MCPServer.jsonrpc := "2.0"; MCPServer.id := id;
                    MCPServer.result := Some body; MCPServer.error_ := None |}, w)).
Proof.
  split.
  - intros name args [<- | [<- | [<- | []]]]; cbn [MCPServer.tool String.eqb Ascii.eqb Bool.eqb].
    + apply listProjects_reads_only.
    + apply getTasks_reads_only.
    + apply getProjectSummary_reads_only.
  - intros message method id w Hm Hid Hin.
    destruct (get_total message _ "method" "params" Hm) as [params Hp].
    unfold MCPServer.handleMessage, bind, lift, ret. rewrite Hm, Hp, Hid.
    destruct Hin as [<- | [<- | []]]; cbn [String.eqb Ascii.eqb Bool.eqb];
      eexists; reflexivity.
Qed.

Lemma X1_witness :
  store (snd (MCPServer.tool (Reference.node 1000) (VStr "get_tasks")
                (VObj [("status", VStr "bogus")]%string) example_world))
  = store example_world.
Proof.
  apply (proj1 (X1_queries_never_write (Reference.node 1000)) "get_tasks"%string
           (VObj [("status", VStr "bogus")]%string)
           (or_intror (or_introl eq_refl)) example_world
           (fst (MCPServer.tool (Reference.node 1000) (VStr "get_tasks")
                   (VObj [("status", VStr "bogus")]%string) example_world))).
  apply surjective_pairing.
Defined.

(* ====================================================================== *)
(** ** The catalog and the dispatcher *)

Section Throws.
Variable Q : error -> Prop.

Lemma throws_only_ret {A : Type} (a : A) : throws_only Q (ret a).
Proof. intros w e w' H. inv H. Qed.

Lemma throws_only_throw {A : Type} (e : error) : Q e -> throws_only Q (@throw A e).
Proof. intros He w e' w' H. now inv H. Qed.

Lemma throws_only_lift {A : Type} (x : outcome A) :
  (forall e, x = Throw e -> Q e) -> throws_only Q (lift x).
Proof. intros Hx w e w' H. inv H. now apply Hx. Qed.

Lemma throws_only_query {A : Type} (q : Sqlite.database -> A) :
  throws_only Q (Database.query q).
Proof. intros w e w' H. inv H. Qed.

Lemma throws_only_run (P : platform)
  (stmt : Z -> Sqlite.database -> outcome (Sqlite.run_result * Sqlite.database)) :
  (forall now d e, stmt now d = Throw e -> Q e) -> throws_only Q (Database.run P stmt).
Proof.
  intros Hs w e w' H. unfold Database.run in H.
  destruct (stmt _ _) as [[r d] | e0] eqn:E; inv H. exact (Hs _ _ _ E).
Qed.

Lemma throws_only_bind {A B : Type} (c : M A) (k : A -> M B) :
  throws_only Q c -> (forall a, throws_only Q (k a)) -> throws_only Q (bind c k).
Proof.
  intros Hc Hk w e w' H. unfold bind in H.
  destruct (c w) as [[a | e0] w1] eqn:E.
  - exact (Hk a w1 e w' H).
  - inv H. exact (Hc w _ _ E).
Qed.

End Throws.

Lemma get_throws (v : value) (k : string) (e : error) : JS.get v k = Throw e -> e = TypeError.
Proof. destruct v; simpl; try discriminate; try congruence. destruct (String.eqb k "search"); discriminate. Qed.

Lemma validation_error_known (e : error) : is_validation_error e = true -> known_tool_error e.
Proof. destruct e; simpl; try discriminate; auto. Qed.

Lemma statement_error_known (e : error) :
  (exists c, e = SqliteConstraint c) \/ (exists r, e = SqliteError r) -> known_tool_error e.
Proof. intros [[c ->] | [r ->]]; exact I. Qed.

Lemma insert_project_throws (a b c : Sqlite.sqlval) (now : Z) (d : Sqlite.database) (e : error) :
  Sqlite.insert_project a b c now d = Throw e -> known_tool_error e.
Proof. unfold Sqlite.insert_project. destruct (Sqlite.project_violation _); intros H; inv H. exact I. Qed.

Lemma update_projects_throws (sets : list (string * Sqlite.sqlval)) (id : Sqlite.sqlval)
  (now : Z) (d : Sqlite.database) (e : error) :
  Sqlite.update_projects sets id now d = Throw e -> known_tool_error e.
Proof.
  unfold Sqlite.update_projects. destruct (negb _); [intros H; inv H; exact I |].
  destruct (Sqlite.first_violation _ _); intros H; inv H. exact I.
Qed.

Lemma insert_task_throws (a b c d0 e0 f : Sqlite.sqlval) (now : Z) (d : Sqlite.database)
  (e : error) :
  Sqlite.insert_task a b c d0 e0 f now d = Throw e -> known_tool_error e.
Proof.
  unfold Sqlite.insert_task. destruct (Sqlite.task_violation _); [intros H; inv H; exact I |].
  destruct (Sqlite.has_parent _ _); intros H; inv H. exact I.
Qed.

Lemma update_tasks_throws (sets : list (string * Sqlite.sqlval)) (id : Sqlite.sqlval)
  (now : Z) (d : Sqlite.database) (e : error) :
  Sqlite.update_tasks sets id now d = Throw e -> known_tool_error e.
Proof.
  unfold Sqlite.update_tasks. destruct (negb _); [intros H; inv H; exact I |].
  destruct (Sqlite.first_violation _ _); intros H; inv H. exact I.
Qed.

(** Follows the structure of a handler. *)
Ltac throwing :=
  repeat first
    [ apply throws_only_ret
    | apply throws_only_query
    | apply throws_only_throw; exact I
    | apply throws_only_lift; intros ? ?;
      first [ solve [apply validation_error_known; eauto with validation]
            | match goal with H : JS.get _ _ = Throw _ |- _ =>
                rewrite (get_throws _ _ _ H); exact I end ]
    | apply throws_only_run; intros ? ? ? ?;
      first [ eapply insert_project_throws; eassumption
            | eapply update_projects_throws; eassumption
            | eapply insert_task_throws; eassumption
            | eapply update_tasks_throws; eassumption
            | discriminate ]
    | apply throws_only_bind; [| intros ?]
    | match goal with
      | |- throws_only _ (match ?x with _ => _ end) => destruct x
      | |- throws_only _ (if ?b then _ else _) => destruct b
      end ].

Lemma tool_dispatch (P : platform) (n : string) (args : value) :
  In n MCPServer.tool_names -> throws_only known_tool_error (MCPServer.tool P (VStr n) args).
Proof.
  intros Hin. unfold MCPServer.tool_names in Hin.
  repeat (destruct Hin as [<- | Hin]); [.. | destruct Hin];
    cbn [MCPServer.tool String.eqb Ascii.eqb Bool.eqb];
    [ unfold MCPServer.createProject, Database.createProject
    | unfold MCPServer.listProjects, Database.getProjects
    | unfold MCPServer.addTask, Database.getProject, Database.addTask,
        Database.touch_project
    | unfold MCPServer.updateTask, Database.updateTask, Database.touch_project
    | unfold MCPServer.getTasks, Database.getTasks
    | unfold MCPServer.getProjectSummary, Database.getProject, Database.getProjectSummary
    | unfold MCPServer.deleteTask, Database.deleteTask, Database.touch_project,
        Sqlite.delete_task
    | unfold MCPServer.deleteProject, Database.getProject, Database.deleteProject,
        Sqlite.delete_project ];
    cbv zeta; throwing.
Qed.

Lemma tool_default (P : platform) (n : string) (args : value) (w : world) :
  ~ In n MCPServer.tool_names ->
  MCPServer.tool P (VStr n) args w = (Throw (UnknownTool (VStr n)), w).
Proof.
  intros Hno. unfold MCPServer.tool.
  repeat match goal with
         | |- context [String.eqb n ?s] =>
             destruct (String.eqb_spec n s) as [-> | _];
             [exfalso; apply Hno; unfold MCPServer.tool_names; simpl; tauto |]
         end.
  reflexivity.
Qed.

(** X2: the catalog of tools/list and the switch of tools/call agree.  A
    name is in the catalog exactly when a call to it is dispatched to a
    handler; a call to any other name changes nothing and is refused with
    'Unknown tool', an error that no handler of a listed tool produces. *)
Theorem X2_listed_tools_are_the_dispatched_ones
  (P : platform) (id : value) (n : string) :
  MCPServer.result (MCPServer.handleToolsList id) = Some (MCPServer.ToolsList MCPServer.tool_names)
  /\ (In n MCPServer.tool_names <->
      forall args w, fst (MCPServer.tool P (VStr n) args w) <> Throw (UnknownTool (VStr n)))
  /\ (In n MCPServer.tool_names \/
      forall args w,
        MCPServer.tool P (VStr n) args w = (Throw (UnknownTool (VStr n)), w)).
Proof.
  split; [reflexivity |].
  assert (Hdec : In n MCPServer.tool_names \/ ~ In n MCPServer.tool_names).
  { destruct (in_dec string_dec n MCPServer.tool_names); auto. }
  split.
  - split.
    + intros Hin args w Hthrow.
      destruct (MCPServer.tool P (VStr n) args w) as [o w'] eqn:E.
      cbn [fst] in Hthrow. subst o.
      exact (tool_dispatch P n args Hin w _ _ E).
    + intros Hall. destruct Hdec as [Hin | Hno]; [exact Hin |].
      exfalso. apply (Hall VUndefined fresh). now rewrite tool_default.
  - destruct Hdec as [Hin | Hno]; [left; exact Hin |].
    right. intros args w. now apply tool_default.
Qed.

(* ====================================================================== *)
(** ** Requests refused before a tool is dispatched *)

Lemma first_line_refused (P : platform) (s s' : MCPServer.server) (line rest : string)
  (message : value) (e : error) (w : world) :
  first_line P s line rest s' ->
  Str.is_empty (Str.trim line) = false ->
  JSON_parse P (Str.trim line) = Some message ->
  MCPServer.handleMessage P message (MCPServer.db s) = (Throw e, w) ->
  s' = MCPServer.sendError e VNull
         {| MCPServer.db := w; MCPServer.inputBuffer := rest;
            MCPServer.stdout := MCPServer.stdout s |}.
Proof. intros H He Hp Hh. inv H; congruence. Qed.

Lemma handleMessage_refuses (P : platform) (message : value) (e : error) (w : world) :
  refused_before_dispatch message = Some e ->
  MCPServer.handleMessage P message w = (Throw e, w).
Proof.
  unfold refused_before_dispatch, MCPServer.handleMessage, bind, lift, throw.
  destruct (JS.get message "method") as [method | e0] eqn:Em.
  2: { destruct message; simpl in Em; try discriminate;
       try (destruct (String.eqb _ _); discriminate);
       inv Em; intros H; inv H; reflexivity. }
  destruct (get_total message _ "method" "params" Em) as [params ->].
  destruct (get_total message _ "method" "id" Em) as [id ->].
  destruct method; try (intros H; inv H; reflexivity).
  destruct (String.eqb s "initialize"); [discriminate |].
  destruct (String.eqb s "tools/list"); [discriminate |].
  destruct (String.eqb s "tools/call"); [| intros H; inv H; reflexivity].
  destruct params; simpl; try discriminate. intros H; inv H. reflexivity.
Qed.

(** X3: a request that is refused before a tool is dispatched (the line
    holds JSON null, a method other than initialize, tools/list and
    tools/call, or a tools/call whose params is null) is answered with one
    error line of code -32000 whose id is null, whatever id the request
    carried; the store is untouched, and what follows the line in the
    buffer is left there, unread, until the next chunk arrives. *)
Theorem X3_requests_refused_before_dispatch_lose_their_id
  (P : platform) (s : MCPServer.server) (chunk line rest : string) (message : value)
  (e : error) :
  (MCPServer.inputBuffer s ++ chunk)%string = (line ++ newline ++ rest)%string ->
  Str.indexOf Str.LF line = None ->
  Str.is_empty (Str.trim line) = false ->
  JSON_parse P (Str.trim line) = Some message ->
  refused_before_dispatch message = Some e ->
  MCPServer.on_data P chunk s =
    {| MCPServer.db := MCPServer.db s; MCPServer.inputBuffer := rest;
       MCPServer.stdout := MCPServer.stdout s ++ [rejection VNull e] |}.
Proof.
  intros Hbuf Hline Hne Hparse Href.
  pose proof (on_data_first_line P s chunk line rest Hbuf Hline) as Hfirst.
  rewrite (first_line_refused P _ _ _ _ message e (MCPServer.db s) Hfirst Hne Hparse
             (handleMessage_refuses P message e _ Href)).
  reflexivity.
Qed.

Lemma X3_witness :
  let line := Json.text "{'jsonrpc':'2.0','id':5,'method':'tools/call','params':null}" in
  let next := Json.text "{'jsonrpc':'2.0','id':6,'method':'initialize'}" in
  MCPServer.on_data (Reference.node 1000) (line ++ newline ++ next ++ newline) example_server =
    {| MCPServer.db := MCPServer.db example_server;
       MCPServer.inputBuffer := (next ++ newline)%string;
       MCPServer.stdout := MCPServer.stdout example_server ++ [rejection VNull TypeError] |}.
Proof.
  intros line next.
  apply (X3_requests_refused_before_dispatch_lose_their_id (Reference.node 1000)
           example_server (line ++ newline ++ next ++ newline)%string line
           (next ++ newline)%string
           (VObj [("jsonrpc", VStr "2.0"); ("id", number 5); ("method", VStr "tools/call");
                  ("params", VNull)]%string) TypeError);
    vm_compute; reflexivity.
Defined.

(* ====================================================================== *)
(** ** Primary keys *)

Lemma max_id_nonneg (ids : list Z) : 0 <= Sqlite.max_id ids.
Proof. induction ids as [| a r IH]; simpl; lia. Qed.

Lemma next_rowid_above (seq : Z) (ids : list Z) :
  seq < Sqlite.next_rowid seq ids /\ 0 < Sqlite.next_rowid seq ids
  /\ forall x, In x ids -> x < Sqlite.next_rowid seq ids.
Proof.
  unfold Sqlite.next_rowid. pose proof (max_id_nonneg ids).
  repeat split; try lia.
  intros x Hx. pose proof (max_id_bound ids x Hx). lia.
Qed.

Lemma NoDup_snoc {A : Type} (l : list A) (x : A) : NoDup l -> ~ In x l -> NoDup (l ++ [x]).
Proof.
  intros Hl Hx. induction Hl as [| a r Ha Hr IH]; simpl.
  - constructor; [intros [] | constructor].
  - constructor.
    + rewrite in_app_iff. intros [Hin | [-> | []]]; [contradiction |].
      apply Hx. now left.
    + apply IH. intros Hin. apply Hx. now right.
Qed.

Lemma map_id_updated {A : Type} (key : A -> Z) (f : A -> bool) (g : A -> A) (l : list A) :
  (forall x, key (g x) = key x) ->
  map key (map (fun x => if f x then g x else x) l) = map key l.
Proof.
  intros Hg. rewrite map_map. apply map_ext. intros x. destruct (f x); auto.
Qed.

Lemma NoDup_map_filter_keys {A : Type} (key : A -> Z) (f : A -> bool) (l : list A) :
  NoDup (map key l) -> NoDup (map key (filter f l)).
Proof.
  induction l as [| a r IH]; simpl; intros H; [constructor |].
  inv H. destruct (f a); simpl; [constructor |]; auto.
  intros Hin. apply in_map_iff in Hin. destruct Hin as (x & Hx & Hin).
  apply filter_In in Hin. apply H2. apply in_map_iff. exists x. tauto.
Qed.

Lemma stamp_assign_project_id (now : Z) (sets : list (string * Sqlite.sqlval))
  (p : Sqlite.project) :
  Sqlite.p_id (Sqlite.stamp_project now (Sqlite.assign Sqlite.set_project_column sets p))
  = Sqlite.p_id p.
Proof. cbn [Sqlite.stamp_project Sqlite.p_id]. apply assign_project_id. Qed.

Lemma stamp_assign_task_id (now : Z) (sets : list (string * Sqlite.sqlval))
  (t : Sqlite.task) :
  Sqlite.t_id (Sqlite.stamp_task now (Sqlite.assign Sqlite.set_task_column sets t))
  = Sqlite.t_id t.
Proof.
  cbn [Sqlite.stamp_task Sqlite.t_id]. now destruct (assign_task_keeps sets t) as [-> _].
Qed.

Lemma in_updated {A : Type} (key : A -> Z) (f : A -> bool) (g : A -> A) (l : list A) (y : A) :
  (forall x, key (g x) = key x) ->
  In y (map (fun x => if f x then g x else x) l) ->
  exists x, In x l /\ key y = key x.
Proof.
  intros Hg Hin. apply in_map_iff in Hin. destruct Hin as (x & <- & Hx).
  exists x. split; [exact Hx |]. destruct (f x); auto.
Qed.

Lemma keys_tick (w : world) :
  keys_in_sequence (store w) ->
  keys_in_sequence (store {| store := store w; statements := S (statements w) |}).
Proof. auto. Qed.

Lemma keys_insert_project (P : platform) (a b c : Sqlite.sqlval) :
  preserves (fun w => keys_in_sequence (store w))
    (Database.run P (Sqlite.insert_project a b c)).
Proof.
  apply preserves_run; [exact keys_tick |].
  intros w r d (Hp & Hpb & Ht & Htb) H. unfold Sqlite.insert_project in H.
  destruct (Sqlite.project_violation _); [discriminate |]. inv H.
  destruct (next_rowid_above (Sqlite.seq_projects (store w))
              (map Sqlite.p_id (Sqlite.projects (store w)))) as (Hseq & Hpos & Hfresh).
  unfold keys_in_sequence.
  cbn [store Sqlite.projects Sqlite.tasks Sqlite.seq_projects Sqlite.seq_tasks].
  repeat split; try assumption; try (apply Htb; assumption).
  - rewrite map_app. apply NoDup_snoc; [exact Hp |].
    cbn [map Sqlite.p_id]. intros Hin. specialize (Hfresh _ Hin). lia.
  - apply in_app_or in H. destruct H as [H | [<- | []]]; [apply Hpb in H; lia | exact Hpos].
  - apply in_app_or in H. destruct H as [H | [<- | []]]; cbn [Sqlite.p_id]; [| lia].
    apply Hpb in H. lia.
Qed.

Lemma keys_update_projects (P : platform) (sets : list (string * Sqlite.sqlval))
  (id : Sqlite.sqlval) :
  preserves (fun w => keys_in_sequence (store w))
    (Database.run P (Sqlite.update_projects sets id)).
Proof.
  apply preserves_run; [exact keys_tick |].
  intros w r d (Hp & Hpb & Ht & Htb) H. unfold Sqlite.update_projects in H.
  destruct (negb _); [discriminate |].
  destruct (Sqlite.first_violation _ _); [discriminate |]. inv H.
  unfold keys_in_sequence.
  cbn [store Sqlite.projects Sqlite.tasks Sqlite.seq_projects Sqlite.seq_tasks].
  split; [| split; [| split; assumption]].
  - rewrite (map_id_updated Sqlite.p_id); [exact Hp |]. intros x. apply stamp_assign_project_id.
  - intros p Hin.
    destruct (in_updated Sqlite.p_id _ _ _ _ (stamp_assign_project_id _ sets) Hin)
      as (x & Hx & ->).
    exact (Hpb x Hx).
Qed.

Lemma keys_delete_project (P : platform) (id : Sqlite.sqlval) :
  preserves (fun w => keys_in_sequence (store w))
    (Database.run P (fun _ => Sqlite.delete_project id)).
Proof.
  apply preserves_run; [exact keys_tick |].
  intros w r d (Hp & Hpb & Ht & Htb) H. unfold Sqlite.delete_project in H. inv H.
  unfold keys_in_sequence.
  cbn [store Sqlite.projects Sqlite.tasks Sqlite.seq_projects Sqlite.seq_tasks].
  repeat split; try (now apply NoDup_map_filter_keys);
    match goal with H : In _ (filter _ _) |- _ => apply filter_In in H; destruct H as [H _] end;
    first [apply Hpb in H | apply Htb in H]; lia.
Qed.

Lemma keys_insert_task (P : platform) (a b c d e f : Sqlite.sqlval) :
  preserves (fun w => keys_in_sequence (store w))
    (Database.run P (Sqlite.insert_task a b c d e f)).
Proof.
  apply preserves_run; [exact keys_tick |].
  intros w r d0 (Hp & Hpb & Ht & Htb) H. unfold Sqlite.insert_task in H.
  destruct (Sqlite.task_violation _); [discriminate |].
  destruct (Sqlite.has_parent _ _); [| discriminate]. inv H.
  destruct (next_rowid_above (Sqlite.seq_tasks (store w))
              (map Sqlite.t_id (Sqlite.tasks (store w)))) as (Hseq & Hpos & Hfresh).
  unfold keys_in_sequence.
  cbn [store Sqlite.projects Sqlite.tasks Sqlite.seq_projects Sqlite.seq_tasks].
  repeat split; try assumption; try (apply Hpb; assumption).
  - rewrite map_app. apply NoDup_snoc; [exact Ht |].
    cbn [map Sqlite.t_id]. intros Hin. specialize (Hfresh _ Hin). lia.
  - apply in_app_or in H. destruct H as [H | [<- | []]]; [apply Htb in H; lia | exact Hpos].
  - apply in_app_or in H. destruct H as [H | [<- | []]]; cbn [Sqlite.t_id]; [| lia].
    apply Htb in H. lia.
Qed.

Lemma keys_update_tasks (P : platform) (sets : list (string * Sqlite.sqlval))
  (id : Sqlite.sqlval) :
  preserves (fun w => keys_in_sequence (store w))
    (Database.run P (Sqlite.update_tasks sets id)).
Proof.
  apply preserves_run; [exact keys_tick |].
  intros w r d (Hp & Hpb & Ht & Htb) H. unfold Sqlite.update_tasks in H.
  destruct (negb _); [discriminate |].
  destruct (Sqlite.first_violation _ _); [discriminate |]. inv H.
  unfold keys_in_sequence.
  cbn [store Sqlite.projects Sqlite.tasks Sqlite.seq_projects Sqlite.seq_tasks].
  split; [assumption | split; [assumption | split]].
  - rewrite (map_id_updated Sqlite.t_id); [exact Ht |]. intros x. apply stamp_assign_task_id.
  - intros t Hin.
    destruct (in_updated Sqlite.t_id _ _ _ _ (stamp_assign_task_id _ sets) Hin)
      as (x & Hx & ->).
    exact (Htb x Hx).
Qed.

Lemma keys_delete_task (P : platform) (id : Sqlite.sqlval) :
  preserves (fun w => keys_in_sequence (store w))
    (Database.run P (fun _ => Sqlite.delete_task id)).
Proof.
  apply preserves_run; [exact keys_tick |].
  intros w r d (Hp & Hpb & Ht & Htb) H. unfold Sqlite.delete_task in H. inv H.
  unfold keys_in_sequence.
  cbn [store Sqlite.projects Sqlite.tasks Sqlite.seq_projects Sqlite.seq_tasks].
  repeat split; try assumption; try (now apply NoDup_map_filter_keys);
    try (apply Hpb; assumption);
    match goal with H : In _ (filter _ _) |- _ => apply filter_In in H; destruct H as [H _] end;
    apply Htb in H; lia.
Qed.

(** The invariant holds of the empty database and every statement keeps it. *)
Lemma keys_received (P : platform) (chunks : list string) :
  keys_in_sequence (store (MCPServer.db (received P fresh chunks))).
Proof.
  apply (received_preserves P (fun w => keys_in_sequence (store w))).
  - exact keys_tick.
  - apply keys_insert_project.
  - apply keys_update_projects.
  - apply keys_delete_project.
  - apply keys_insert_task.
  - apply keys_update_tasks.
  - apply keys_delete_task.
  - unfold keys_in_sequence, fresh. cbn [store Sqlite.empty Sqlite.projects Sqlite.tasks map].
    split; [constructor | split; [intros x [] | split; [constructor | intros x []]]].
Qed.

(** X4: whatever the server has received since it started on an empty
    database, the ids of the stored projects are distinct positive
    integers, none above the sequence AUTOINCREMENT keeps for the table,
    and the same holds of the tasks: an id names at most one row. *)
Theorem X4_ids_are_distinct_and_positive (P : platform) (chunks : list string) :
  keys_in_sequence (store (MCPServer.db (received P fresh chunks))).
Proof. apply keys_received. Qed.

(* ---------------------------------------------------------------------- *)
(** Ids are handed out once *)

Lemma sequences_received (P : platform) (i j : Z) (w : world) (chunks : list string) :
  sequences_from i j w -> sequences_from i j (MCPServer.db (received P w chunks)).
Proof.
  assert (Htick : forall w0, sequences_from i j w0 ->
            sequences_from i j {| store := store w0; statements := S (statements w0) |})
    by auto.
  apply (received_preserves P (sequences_from i j)); try exact Htick;
    intros; (apply preserves_run; [exact Htick |]);
    intros w0 r0 d1 [Hi Hj] H; unfold sequences_from; cbn [store].
  - unfold Sqlite.insert_project in H.
    destruct (Sqlite.project_violation _); [discriminate |]. inv H.
    cbn [Sqlite.seq_projects Sqlite.seq_tasks].
    destruct (next_rowid_above (Sqlite.seq_projects (store w0))
                (map Sqlite.p_id (Sqlite.projects (store w0)))) as (Hseq & _). lia.
  - unfold Sqlite.update_projects in H.
    destruct (negb _); [discriminate |].
    destruct (Sqlite.first_violation _ _); [discriminate |]. inv H. auto.
  - unfold Sqlite.delete_project in H. inv H. auto.
  - unfold Sqlite.insert_task in H.
    destruct (Sqlite.task_violation _); [discriminate |].
    destruct (Sqlite.has_parent _ _); [| discriminate]. inv H.
    cbn [Sqlite.seq_projects Sqlite.seq_tasks].
    destruct (next_rowid_above (Sqlite.seq_tasks (store w0))
                (map Sqlite.t_id (Sqlite.tasks (store w0)))) as (Hseq & _). lia.
  - unfold Sqlite.update_tasks in H.
    destruct (negb _); [discriminate |].
    destruct (Sqlite.first_violation _ _); [discriminate |]. inv H. auto.
  - unfold Sqlite.delete_task in H. inv H. auto.
Qed.

Lemma createProject_sequence (P : platform) (args : value) (w w' : world) (id : Z)
  (name : value) :
  MCPServer.tool P (VStr "create_project") args w = (Ok (MCPServer.ProjectCreated id name), w') ->
  Sqlite.seq_projects (store w) < id /\ Sqlite.seq_projects (store w') = id
  /\ Sqlite.seq_tasks (store w') = Sqlite.seq_tasks (store w).
Proof.
  cbn [MCPServer.tool String.eqb Ascii.eqb Bool.eqb].
  unfold MCPServer.createProject, Database.createProject, bind, lift, ret, Database.run.
  intros H. run_hyp H. inv H.
  match goal with
  | Hrun : (let (_, _) := _ in _) = _ |- _ =>
      unfold Sqlite.insert_project in Hrun;
      destruct (Sqlite.project_violation _); cbv beta iota zeta in Hrun; inv Hrun
  end.
  cbn [store Sqlite.seq_projects Sqlite.seq_tasks Sqlite.lastID].
  destruct (next_rowid_above (Sqlite.seq_projects (store w))
              (map Sqlite.p_id (Sqlite.projects (store w)))) as (Hseq & _).
  auto.
Qed.

Lemma addTask_sequence (P : platform) (args : value) (w w' : world) (id : Z)
  (name : Sqlite.sqlval) :
  MCPServer.tool P (VStr "add_task") args w = (Ok (MCPServer.TaskAdded id name), w') ->
  Sqlite.seq_tasks (store w) < id /\ Sqlite.seq_tasks (store w') = id
  /\ Sqlite.seq_projects (store w') = Sqlite.seq_projects (store w).
Proof.
  cbn [MCPServer.tool String.eqb Ascii.eqb Bool.eqb].
  unfold MCPServer.addTask, Database.getProject, Database.addTask, Database.touch_project,
    Database.query, bind, lift, ret, throw.
  intros H. run_hyp H. inv H.
  match goal with
  | Hrun : (let (_, _) := Database.run _ _ _ in _) = _ |- _ =>
      unfold Database.run at 1 in Hrun; cbn [store statements] in Hrun;
      unfold Sqlite.insert_task in Hrun;
      destruct (Sqlite.task_violation _); cbv beta iota zeta in Hrun; [discriminate |];
      destruct (Sqlite.has_parent _ _); cbv beta iota zeta in Hrun; [| discriminate];
      unfold Database.run, Sqlite.update_projects in Hrun;
      cbn [store statements negb Sqlite.known_columns forallb] in Hrun;
      destruct (Sqlite.first_violation _ _); cbv beta iota zeta in Hrun; inv Hrun
  end.
  cbn [store Sqlite.seq_projects Sqlite.seq_tasks Sqlite.lastID].
  destruct (next_rowid_above (Sqlite.seq_tasks (store w))
              (map Sqlite.t_id (Sqlite.tasks (store w)))) as (Hseq & _).
  auto.
Qed.

(** X5: ids are handed out once.  A project created after another one,
    whatever the server received in between (the deletion of every
    project included), gets a larger id; so does a task added after
    another one. *)
Theorem X5_ids_are_never_reused
  (P : platform) (w0 w1 w3 : world) (chunks : list string) (args1 args2 : value) :
  (forall id1 n1 id2 n2,
      MCPServer.tool P (VStr "create_project") args1 w0
      = (Ok (MCPServer.ProjectCreated id1 n1), w1) ->
      MCPServer.tool P (VStr "create_project") args2 (MCPServer.db (received P w1 chunks))
      = (Ok (MCPServer.ProjectCreated id2 n2), w3) ->
      id1 < id2)
  /\ (forall id1 n1 id2 n2,
         MCPServer.tool P (VStr "add_task") args1 w0
         = (Ok (MCPServer.TaskAdded id1 n1), w1) ->
         MCPServer.tool P (VStr "add_task") args2 (MCPServer.db (received P w1 chunks))
         = (Ok (MCPServer.TaskAdded id2 n2), w3) ->
         id1 < id2).
Proof.
  split; intros id1 n1 id2 n2 H1 H2.
  - apply createProject_sequence in H1. apply createProject_sequence in H2.
    destruct H1 as (_ & H1 & _). destruct H2 as (H2 & _).
    destruct (sequences_received P id1 (Sqlite.seq_tasks (store w1)) w1 chunks) as [Hs _];
      [unfold sequences_from; lia | lia].
  - apply addTask_sequence in H1. apply addTask_sequence in H2.
    destruct H1 as (_ & H1 & _). destruct H2 as (H2 & _).
    destruct (sequences_received P (Sqlite.seq_projects (store w1)) id1 w1 chunks) as [_ Hs];
      [unfold sequences_from; lia | lia].
Qed.

Lemma X5_witness :
  let P := Reference.node 1000 in
  let w1 := snd (MCPServer.tool P (VStr "create_project")
                   (VObj [("name", VStr "second")]%string) example_world) in
  let forgotten :=
    request_line "{'jsonrpc':'2.0','id':8,'method':'tools/call','params':{'name':'delete_project','arguments':{'id':2}}}" in
  let w2 := MCPServer.db (received P w1 [forgotten]) in
  map Sqlite.p_id (Sqlite.projects (store w2)) = [1] /\ 2 < 3.
Proof.
  intros P w1 forgotten w2. split; [vm_compute; reflexivity |].
  apply (proj1 (X5_ids_are_never_reused P example_world w1
                  (snd (MCPServer.tool P (VStr "create_project")
                          (VObj [("name", VStr "third")]%string) w2))
                  [forgotten]
                  (VObj [("name", VStr "second")]%string)
                  (VObj [("name", VStr "third")]%string))
           2 (VStr "second") 3 (VStr "third")); vm_compute; reflexivity.
Defined.

(* ====================================================================== *)
(** ** Creation and update times *)

Lemma set_project_column_created (c : string) (v : Sqlite.sqlval) (p : Sqlite.project) :
  Sqlite.p_created_at (Sqlite.set_project_column c v p) = Sqlite.p_created_at p.
Proof.
  unfold Sqlite.set_project_column.
  repeat match goal with |- context [if ?b then _ else _] => destruct b end; reflexivity.
Qed.

Lemma assign_project_created (sets : list (string * Sqlite.sqlval)) (p : Sqlite.project) :
  Sqlite.p_created_at (Sqlite.assign Sqlite.set_project_column sets p) = Sqlite.p_created_at p.
Proof.
  unfold Sqlite.assign. revert p.
  induction sets as [| [c v] r IH]; intros p; simpl; [reflexivity |].
  now rewrite IH, set_project_column_created.
Qed.

Lemma set_task_column_created (c : string) (v : Sqlite.sqlval) (t : Sqlite.task) :
  Sqlite.t_created_at (Sqlite.set_task_column c v t) = Sqlite.t_created_at t.
Proof.
  unfold Sqlite.set_task_column.
  repeat match goal with |- context [if ?b then _ else _] => destruct b end; reflexivity.
Qed.

Lemma assign_task_created (sets : list (string * Sqlite.sqlval)) (t : Sqlite.task) :
  Sqlite.t_created_at (Sqlite.assign Sqlite.set_task_column sets t) = Sqlite.t_created_at t.
Proof.
  unfold Sqlite.assign. revert t.
  induction sets as [| [c v] r IH]; intros t; simpl; [reflexivity |].
  now rewrite IH, set_task_column_created.
Qed.

Section Timestamps.
Variable P : platform.
Hypothesis clock : monotone_clock P.

Lemma timestamps_tick (w : world) :
  timestamps_ordered P w ->
  timestamps_ordered P {| store := store w; statements := S (statements w) |}.
Proof.
  intros [Hp Ht].
  pose proof (clock (statements w) (S (statements w)) ltac:(lia)).
  split; [intros p Hin; specialize (Hp p Hin) | intros t Hin; specialize (Ht t Hin)];
    cbn [store statements] in *; lia.
Qed.

(** What a statement may do to the rows: leave a row's two times as they
    were, or keep its creation time and stamp it now, or insert it now. *)
Lemma timestamps_run
  (stmt : Z -> Sqlite.database -> outcome (Sqlite.run_result * Sqlite.database)) :
  (forall now d r d',
      stmt now d = Ok (r, d') ->
      (forall p, In p (Sqlite.projects d') ->
         (Sqlite.p_updated_at p = now
          /\ (Sqlite.p_created_at p = now
              \/ exists p0, In p0 (Sqlite.projects d)
                            /\ Sqlite.p_created_at p = Sqlite.p_created_at p0))
         \/ exists p0, In p0 (Sqlite.projects d)
                       /\ Sqlite.p_created_at p = Sqlite.p_created_at p0
                       /\ Sqlite.p_updated_at p = Sqlite.p_updated_at p0)
      /\ (forall t, In t (Sqlite.tasks d') ->
            (Sqlite.t_updated_at t = now
             /\ (Sqlite.t_created_at t = now
                 \/ exists t0, In t0 (Sqlite.tasks d)
                               /\ Sqlite.t_created_at t = Sqlite.t_created_at t0))
            \/ exists t0, In t0 (Sqlite.tasks d)
                          /\ Sqlite.t_created_at t = Sqlite.t_created_at t0
                          /\ Sqlite.t_updated_at t = Sqlite.t_updated_at t0)) ->
  preserves (timestamps_ordered P) (Database.run P stmt).
Proof.
  intros Hstmt. apply preserves_run; [exact timestamps_tick |].
  intros w r d [Hp Ht] H.
  pose proof (clock (statements w) (S (statements w)) ltac:(lia)) as Hclock.
  destruct (Hstmt _ _ _ _ H) as [Hp' Ht'].
  split; cbn [store statements].
  - intros p Hin. destruct (Hp' p Hin) as [(Hu & [Hc | (p0 & Hp0 & Hc)])
                                          | (p0 & Hp0 & Hc & Hu)].
    + lia.
    + specialize (Hp p0 Hp0). lia.
    + specialize (Hp p0 Hp0). lia.
  - intros t Hin. destruct (Ht' t Hin) as [(Hu & [Hc | (t0 & Ht0 & Hc)])
                                          | (t0 & Ht0 & Hc & Hu)].
    + lia.
    + specialize (Ht t0 Ht0). lia.
    + specialize (Ht t0 Ht0). lia.
Qed.

Lemma timestamps_received (chunks : list string) :
  timestamps_ordered P (MCPServer.db (received P fresh chunks)).
Proof.
  apply (received_preserves P (timestamps_ordered P)).
  - exact timestamps_tick.
  - intros a b c. apply timestamps_run. intros now d r d' H.
    unfold Sqlite.insert_project in H.
    destruct (Sqlite.project_violation _); [discriminate |]. inv H.
    cbn [Sqlite.projects Sqlite.tasks]. split.
    + intros p Hin. apply in_app_or in Hin.
      destruct Hin as [Hin | [<- | []]]; [right; eauto |].
      left. cbn [Sqlite.p_created_at Sqlite.p_updated_at]. auto.
    + intros t Hin. right. eauto.
  - intros sets id. apply timestamps_run. intros now d r d' H.
    unfold Sqlite.update_projects in H.
    destruct (negb _); [discriminate |].
    destruct (Sqlite.first_violation _ _); [discriminate |]. inv H.
    cbn [Sqlite.projects Sqlite.tasks]. split.
    + intros p Hin. apply in_map_iff in Hin. destruct Hin as (p0 & <- & Hp0).
      destruct (Sqlite.project_matches id p0); [| right; eauto].
      left. cbn [Sqlite.stamp_project Sqlite.p_created_at Sqlite.p_updated_at].
      rewrite assign_project_created. eauto.
    + intros t Hin. right. eauto.
  - intros id. apply timestamps_run. intros now d r d' H.
    unfold Sqlite.delete_project in H. inv H.
    cbn [Sqlite.projects Sqlite.tasks].
    split; intros x Hin; apply filter_In in Hin; right; exists x; tauto.
  - intros a b c d0 e f. apply timestamps_run. intros now d r d' H.
    unfold Sqlite.insert_task in H.
    destruct (Sqlite.task_violation _); [discriminate |].
    destruct (Sqlite.has_parent _ _); [| discriminate]. inv H.
    cbn [Sqlite.projects Sqlite.tasks]. split.
    + intros p Hin. right. eauto.
    + intros t Hin. apply in_app_or in Hin.
      destruct Hin as [Hin | [<- | []]]; [right; eauto |].
      left. cbn [Sqlite.t_created_at Sqlite.t_updated_at]. auto.
  - intros sets id. apply timestamps_run. intros now d r d' H.
    unfold Sqlite.update_tasks in H.
    destruct (negb _); [discriminate |].
    destruct (Sqlite.first_violation _ _); [discriminate |]. inv H.
    cbn [Sqlite.projects Sqlite.tasks]. split.
    + intros p Hin. right. eauto.
    + intros t Hin. apply in_map_iff in Hin. destruct Hin as (t0 & <- & Ht0).
      destruct (Sqlite.task_matches id t0); [| right; eauto].
      left. cbn [Sqlite.stamp_task Sqlite.t_created_at Sqlite.t_updated_at].
      rewrite assign_task_created. eauto.
  - intros id. apply timestamps_run. intros now d r d' H.
    unfold Sqlite.delete_task in H. inv H.
    cbn [Sqlite.projects Sqlite.tasks]. split.
    + intros p Hin. right. eauto.
    + intros t Hin. apply filter_In in Hin. right. exists t. tauto.
  - split; intros x [].
Qed.

End Timestamps.

(** X6: with a clock that does not run backwards, whatever the server has
    received since it started on an empty database, every stored project
    and every stored task was created no later than it was last updated,
    and updated no later than the present. *)
Theorem X6_rows_are_updated_after_they_are_created (P : platform) (chunks : list string) :
  monotone_clock P ->
  timestamps_ordered P (MCPServer.db (received P fresh chunks)).
Proof. intros Hclock. now apply timestamps_received. Qed.

Lemma X6_witness :
  timestamps_ordered (Reference.node 1000)
    (MCPServer.db (received (Reference.node 1000) fresh
       [request_line "{'jsonrpc':'2.0','id':1,'method':'tools/call','params':{'name':'create_project','arguments':{'name':'Smoke Project'}}}"])).
Proof.
  apply X6_rows_are_updated_after_they_are_created.
  intros m n Hmn. cbn [CURRENT_TIMESTAMP Reference.node]. lia.
Defined.

(* ====================================================================== *)
(** ** What update_task writes *)

(** One case for each member of the list a hypothesis [In x [a; b; ...]]
    names. *)
Ltac cases_in H := repeat (destruct H as [<- | H]); try (now destruct H).









(* ====================================================================== *)
(** ** What add_task and delete_task write *)

Lemma bind_default_null (P : platform) (v : value) :
  Database.bind_param P (Database.default VNull v) = Database.bind_param P v.
Proof. destruct v; reflexivity. Qed.






Lemma filter_one_out {A : Type} (key : A -> Z) (f : A -> bool) (l : list A) (x : A) :
  NoDup (map key l) -> In x l -> f x = true ->
  (forall y, f y = true -> key y = key x) ->
  length l = S (length (filter (fun y => negb (f y)) l)).
Proof.
  intros Hnd Hin Hx Hkey. induction l as [| a r IH]; [destruct Hin |].
  cbn [map] in Hnd. inv Hnd. cbn [filter length].
  destruct (f a) eqn:Ea; cbn [negb length].
  - f_equal. clear IH Hin.
    assert (Hnone : forall y, In y r -> f y = false).
    { intros y Hy. destruct (f y) eqn:Ey; [| reflexivity].
      exfalso. apply H1. rewrite (Hkey a Ea), <- (Hkey y Ey). now apply in_map. }
    induction r as [| b r IH]; [reflexivity |]. cbn [filter].
    rewrite (Hnone b (or_introl eq_refl)). cbn [negb length]. f_equal.
    apply IH.
    + intros Hin. apply H1. now right.
    + cbn [map] in H2. now inv H2.
    + intros y Hy. apply Hnone. now right.
  - f_equal. apply IH; [assumption |].
    destruct Hin as [-> | Hin]; [congruence | exact Hin].
Qed.

Lemma Database_deleteTask_effect (P : platform) (id : value) (w w' : world) (b : bool) :
  Database.deleteTask P id w = (Ok b, w') ->
  Sqlite.tasks (store w')
  = filter (fun t => negb (Sqlite.task_matches (Database.bind_param P id) t))
      (Sqlite.tasks (store w))
  /\ b = (Sqlite.count (Sqlite.task_matches (Database.bind_param P id))
            (Sqlite.tasks (store w)) >? 0).
Proof.
  intros H. unfold Database.deleteTask, bind, ret, Database.query, Database.run in H.
  cbn [Sqlite.delete_task store statements Sqlite.changes] in H.
  destruct (Sqlite.select_task_project_id _ _) as [pid |].
  - destruct (Sqlite.count _ _ >? 0).
    + destruct (Database.touch_project P _ _) as [[r' |] w2] eqn:Htouch; [| discriminate].
      inv H. destruct (touch_project_run P _ _ _ _ Htouch) as (_ & Htasks & _).
      rewrite Htasks. auto.
    + inv H. auto.
  - inv H. auto.
Qed.

(** X9: a successful delete_task removes the task it names and no other
    task row: with distinct ids, exactly one row fewer than before.  The
    same request made again finds nothing to delete: it fails with the
    not-found error and leaves the store as it is. *)
Theorem X9_delete_task_removes_the_task_it_names
  (P : platform) (args id : value) (w w' : world) :
  MCPServer.tool P (VStr "delete_task") args w = (Ok (MCPServer.TaskDeleted id), w') ->
  JS.get args "id" = Ok id
  /\ Sqlite.tasks (store w')
     = filter (fun t => negb (Sqlite.task_matches (Database.bind_param P id) t))
         (Sqlite.tasks (store w))
  /\ (NoDup (map Sqlite.t_id (Sqlite.tasks (store w))) ->
      length (Sqlite.tasks (store w)) = S (length (Sqlite.tasks (store w'))))
  /\ exists w'',
       MCPServer.tool P (VStr "delete_task") args w' = (Throw (TaskNotFound id), w'')
       /\ store w'' = store w'.
Proof.
  cbn [MCPServer.tool String.eqb Ascii.eqb Bool.eqb].
  intros H. unfold MCPServer.deleteTask, bind, lift, ret, throw in H.
  run_hyp H.
  match goal with
  | Hdelete : Database.deleteTask P _ w = (Ok ?b, ?w1) |- _ =>
      destruct b; [| discriminate]; inv H;
      apply Database_deleteTask_effect in Hdelete; destruct Hdelete as [Htasks Hcount]
  end.
  split; [reflexivity |]. split; [exact Htasks |]. split.
  - intros Hnd. rewrite Htasks. symmetry in Hcount.
    destruct (count_positive_find _ _ Hcount) as (t & Hfind & Hin).
    apply find_some in Hfind. destruct Hfind as [_ Hmatch].
    apply (filter_one_out Sqlite.t_id _ _ t Hnd Hin Hmatch).
    intros y Hy. unfold Sqlite.task_matches, Sqlite.sql_eq in *.
    destruct (Database.bind_param P id); try discriminate.
    + apply Z.eqb_eq in Hy, Hmatch. congruence.
    + apply Qeq_bool_iff in Hy, Hmatch. rewrite <- Hmatch in Hy.
      unfold Qeq in Hy. simpl in Hy. lia.
  - assert (Hnone : Sqlite.select_task_project_id (Database.bind_param P id) (store w') = None).
    { unfold Sqlite.select_task_project_id. rewrite Htasks.
      destruct (find _ _) as [t |] eqn:Hfind; [| reflexivity].
      apply find_some in Hfind. destruct Hfind as [Hin Hmatch].
      apply filter_In in Hin. destruct Hin as [_ Hno]. rewrite Hmatch in Hno. discriminate. }
    match goal with Hid : JS.get args "id" = Ok id |- _ =>
      destruct (deleteTask_missing P args id (store w') Hid Hnone) as (e & _ & He & Hrun)
    end.
    match goal with Hv : MCPServer.validateId id _ = Ok ?u |- _ =>
      destruct u; rewrite (He Hv) in Hrun
    end.
    apply (Hrun w' eq_refl).
Qed.

Lemma X9_witness :
  let P := Reference.node 1000 in
  let args := VObj [("id", number 2)]%string in
  let w' := snd (MCPServer.tool P (VStr "delete_task") args example_world) in
  JS.get args "id" = Ok (number 2)
  /\ Sqlite.tasks (store w')
     = filter (fun t => negb (Sqlite.task_matches (Database.bind_param P (number 2)) t))
         (Sqlite.tasks (store example_world))
  /\ (NoDup (map Sqlite.t_id (Sqlite.tasks (store example_world))) ->
      length (Sqlite.tasks (store example_world)) = S (length (Sqlite.tasks (store w'))))
  /\ exists w'',
       MCPServer.tool P (VStr "delete_task") args w' = (Throw (TaskNotFound (number 2)), w'')
       /\ store w'' = store w'.
Proof.
  intros P args w'.
  apply (X9_delete_task_removes_the_task_it_names P args (number 2) example_world w').
  vm_compute. reflexivity.
Defined.

(* ====================================================================== *)
(** ** The constraints of the schema *)

Lemma first_violation_none {A : Type} (f : A -> option string) (l : list A) :
  Sqlite.first_violation f l = None <-> forall x, In x l -> f x = None.
Proof.
  induction l as [| a r IH]; simpl; [tauto |].
  destruct (f a) eqn:E.
  - split; [discriminate |]. intros H. rewrite <- E. apply H. now left.
  - rewrite IH. split.
    + intros H x [<- | Hx]; auto.
    + intros H x Hx. apply H. now right.
Qed.

Lemma updated_rows_checked {A : Type} (f : A -> option string) (m : A -> bool) (g : A -> A)
  (l : list A) :
  (forall x, m (g x) = m x) ->
  (forall x, In x l -> f x = None) ->
  Sqlite.first_violation f (filter m (map (fun x => if m x then g x else x) l)) = None ->
  forall y, In y (map (fun x => if m x then g x else x) l) -> f y = None.
Proof.
  intros Hm Hl Hnone y Hy. pose proof (proj1 (first_violation_none _ _) Hnone) as Hall.
  apply in_map_iff in Hy. destruct Hy as (x & <- & Hx).
  destruct (m x) eqn:E; [| auto].
  apply Hall. apply filter_In. split.
  - apply in_map_iff. exists x. rewrite E. auto.
  - now rewrite Hm.
Qed.

Lemma project_matches_updated (id : Sqlite.sqlval) (now : Z)
  (sets : list (string * Sqlite.sqlval)) (p : Sqlite.project) :
  Sqlite.project_matches id
    (Sqlite.stamp_project now (Sqlite.assign Sqlite.set_project_column sets p))
  = Sqlite.project_matches id p.
Proof. unfold Sqlite.project_matches. now rewrite stamp_assign_project_id. Qed.

Lemma task_matches_updated (id : Sqlite.sqlval) (now : Z)
  (sets : list (string * Sqlite.sqlval)) (t : Sqlite.task) :
  Sqlite.task_matches id (Sqlite.stamp_task now (Sqlite.assign Sqlite.set_task_column sets t))
  = Sqlite.task_matches id t.
Proof. unfold Sqlite.task_matches. now rewrite stamp_assign_task_id. Qed.

Lemma constraints_tick (w : world) :
  constraints_hold (store w) ->
  constraints_hold (store {| store := store w; statements := S (statements w) |}).
Proof. auto. Qed.

Lemma constraints_preserved (P : platform) (name args : value) :
  preserves (fun w => constraints_hold (store w)) (MCPServer.tool P name args).
Proof.
  apply preserves_tool; try exact constraints_tick;
    intros; (apply preserves_run; [exact constraints_tick |]);
    intros w0 r0 d1 [Hp Ht] H; unfold constraints_hold; cbn [store].
  - unfold Sqlite.insert_project in H.
    destruct (Sqlite.project_violation _) eqn:E; [discriminate |]. inv H.
    cbn [Sqlite.projects Sqlite.tasks]. split; [| exact Ht].
    intros p Hin. apply in_app_or in Hin. destruct Hin as [Hin | [<- | []]]; auto.
  - unfold Sqlite.update_projects in H.
    destruct (negb _); [discriminate |].
    destruct (Sqlite.first_violation _ _) eqn:E; [discriminate |]. inv H.
    cbn [Sqlite.projects Sqlite.tasks]. split; [| exact Ht].
    apply (updated_rows_checked _ _ _ _ (project_matches_updated _ _ _) Hp E).
  - unfold Sqlite.delete_project in H. inv H.
    cbn [Sqlite.projects Sqlite.tasks].
    split; intros x Hin; apply filter_In in Hin; destruct Hin; auto.
  - unfold Sqlite.insert_task in H.
    destruct (Sqlite.task_violation _) eqn:E; [discriminate |].
    destruct (Sqlite.has_parent _ _); [| discriminate]. inv H.
    cbn [Sqlite.projects Sqlite.tasks]. split; [exact Hp |].
    intros t Hin. apply in_app_or in Hin. destruct Hin as [Hin | [<- | []]]; auto.
  - unfold Sqlite.update_tasks in H.
    destruct (negb _); [discriminate |].
    destruct (Sqlite.first_violation _ _) eqn:E; [discriminate |]. inv H.
    cbn [Sqlite.projects Sqlite.tasks]. split; [exact Hp |].
    apply (updated_rows_checked _ _ _ _ (task_matches_updated _ _ _) Ht E).
  - unfold Sqlite.delete_task in H. inv H.
    cbn [Sqlite.projects Sqlite.tasks]. split; [exact Hp |].
    intros x Hin; apply filter_In in Hin; destruct Hin; auto.
Qed.

(* ====================================================================== *)
(** ** Invariants of the handlers *)

Section Reachable.
Variable P : platform.
Variable I : world -> Prop.
Hypothesis I_tool : forall name args, preserves I (MCPServer.tool P name args).

Lemma handleMessage_keeps (message : value) : preserves I (MCPServer.handleMessage P message).
Proof.
  unfold MCPServer.handleMessage, MCPServer.handleToolCall. cbv zeta.
  repeat first
    [ apply preserves_ret
    | apply preserves_throw
    | apply preserves_lift
    | apply I_tool
    | apply preserves_bind; [| intros ?]
    | apply preserves_try_catch; [| intros ?]
    | match goal with
      | |- preserves _ (match ?x with _ => _ end) => destruct x
      | |- preserves _ (if ?b then _ else _) => destruct b
      end ].
Qed.

Lemma lines_keep (fuel : nat) (s : MCPServer.server) (o : outcome unit)
  (s' : MCPServer.server) :
  I (MCPServer.db s) -> MCPServer.lines P fuel s = Some (o, s') -> I (MCPServer.db s').
Proof.
  revert s. induction fuel as [| fuel IH]; intros s Hs H; [discriminate |].
  cbn [MCPServer.lines] in H.
  destruct (Str.indexOf Str.LF (MCPServer.inputBuffer s)) as [i |]; [| inv H; exact Hs].
  destruct (Str.is_empty _); [eapply IH; [| exact H]; exact Hs |].
  destruct (JSON_parse P _) as [message |]; [| inv H; exact Hs].
  cbn [MCPServer.db MCPServer.inputBuffer MCPServer.stdout] in H.
  destruct (MCPServer.handleMessage P message (MCPServer.db s)) as [[r | e] w] eqn:E.
  - eapply IH; [| exact H]. exact (handleMessage_keeps message _ _ _ Hs E).
  - inv H. exact (handleMessage_keeps message _ _ _ Hs E).
Qed.

Lemma on_data_keeps (chunk : string) (s : MCPServer.server) :
  I (MCPServer.db s) -> I (MCPServer.db (MCPServer.on_data P chunk s)).
Proof.
  intros Hs. unfold MCPServer.on_data.
  destruct (MCPServer.lines P _ _) as [[[u | e] s'] |] eqn:E.
  - eapply lines_keep; [| exact E]. exact Hs.
  - cbn [MCPServer.sendError MCPServer.db].
    eapply lines_keep; [| exact E]. exact Hs.
  - exact Hs.
Qed.

Lemma received_keeps (w : world) (chunks : list string) :
  I w -> I (MCPServer.db (received P w chunks)).
Proof.
  intros Hw. unfold received.
  assert (Hs : I (MCPServer.db (MCPServer.start w))) by exact Hw.
  revert Hs. generalize (MCPServer.start w).
  induction chunks as [| chunk r IH]; intros s Hs; [exact Hs |].
  cbn [fold_left]. apply IH. now apply on_data_keeps.
Qed.

End Reachable.

Lemma constraints_received (P : platform) (chunks : list string) :
  constraints_hold (store (MCPServer.db (received P fresh chunks))).
Proof.
  apply (received_keeps P (fun w => constraints_hold (store w))).
  - apply constraints_preserved.
  - split; intros x [].
Qed.

(* ====================================================================== *)
(** ** A call that fails has written nothing *)

Lemma touch_project_total (P : platform) (pid : Sqlite.sqlval) (w : world) :
  (forall p, In p (Sqlite.projects (store w)) -> Sqlite.project_violation p = None) ->
  exists r w', Database.touch_project P pid w = (Ok r, w').
Proof.
  intros Hp. unfold Database.touch_project, Database.run, Sqlite.update_projects.
  cbn [Sqlite.known_columns forallb negb].
  assert (Hnone : Sqlite.first_violation Sqlite.project_violation
            (filter (Sqlite.project_matches pid)
               (map (fun p => if Sqlite.project_matches pid p
                              then Sqlite.stamp_project (CURRENT_TIMESTAMP P (statements w))
                                     (Sqlite.assign Sqlite.set_project_column [] p)
                              else p)
                  (Sqlite.projects (store w)))) = None).
  { apply first_violation_none. intros x Hx. apply filter_In in Hx. destruct Hx as [Hx _].
    apply in_map_iff in Hx. destruct Hx as (p & <- & Hin).
    destruct (Sqlite.project_matches pid p); [| auto].
    specialize (Hp p Hin). unfold Sqlite.project_violation in *. exact Hp. }
  rewrite Hnone. eexists. eexists. reflexivity.
Qed.

Lemma count_zero_find {A : Type} (f : A -> bool) (l : list A) :
  (Sqlite.count f l >? 0) = false -> find f l = None.
Proof.
  unfold Sqlite.count. induction l as [| a r IH]; simpl; [reflexivity |].
  destruct (f a); [| exact IH].
  intros H. exfalso. cbn [length] in H.
  rewrite Z.gtb_ltb in H. apply Z.ltb_ge in H. lia.
Qed.

Lemma Database_createProject_fails (P : platform) (name client description : value)
  (w w' : world) (e : error) :
  Database.createProject P name client description w = (Throw e, w') -> store w' = store w.
Proof.
  unfold Database.createProject, bind, ret. intros H.
  destruct (Database.run P _ w) as [[r |] w1] eqn:Hrun; inv H.
  apply run_inv in Hrun. destruct Hrun as [_ Hrun].
  destruct (Sqlite.insert_project _ _ _ _ _) as [[r d] |]; destruct Hrun;
    [discriminate | assumption].
Qed.

Lemma Database_addTask_fails (P : platform)
  (projectId description priority category assignee dueDate : value)
  (w w' : world) (e : error) :
  (forall p, In p (Sqlite.projects (store w)) -> Sqlite.project_violation p = None) ->
  Database.addTask P projectId description priority category assignee dueDate w
  = (Throw e, w') ->
  store w' = store w.
Proof.
  intros Hp H. unfold Database.addTask, bind, ret in H.
  destruct (Database.run P _ w) as [[r |] w1] eqn:Hinsert.
  - exfalso. apply run_inv in Hinsert. destruct Hinsert as [_ Hinsert].
    unfold Sqlite.insert_task in Hinsert.
    destruct (Sqlite.task_violation _); [destruct Hinsert; discriminate |].
    destruct (Sqlite.has_parent _ _); [| destruct Hinsert; discriminate].
    destruct Hinsert as [_ Hstore].
    destruct (touch_project_total P (Database.bind_param P projectId) w1) as (r' & w2 & Ht).
    { rewrite Hstore. exact Hp. }
    rewrite Ht in H. discriminate.
  - inv H. apply run_inv in Hinsert. destruct Hinsert as [_ Hinsert].
    destruct (Sqlite.insert_task _ _ _ _ _ _ _ _) as [[r d] |]; destruct Hinsert;
      [discriminate | assumption].
Qed.

Lemma Database_updateTask_fails (P : platform) (id : value)
  (updates : list (string * value)) (w w' : world) (o : outcome bool) :
  (forall p, In p (Sqlite.projects (store w)) -> Sqlite.project_violation p = None) ->
  Database.updateTask P id updates w = (o, w') ->
  o <> Ok true ->
  store w' = store w.
Proof.
  intros Hp H Ho. unfold Database.updateTask in H.
  destruct (length _ =? 0)%nat eqn:Elen; [inv H; reflexivity |].
  unfold bind, ret, Database.query in H.
  destruct (Database.run P _ w) as [[r |] w1] eqn:Hupdate.
  2: { inv H. apply run_inv in Hupdate. destruct Hupdate as [_ Hupdate].
       destruct (Sqlite.update_tasks _ _ _ _) as [[r d] |]; destruct Hupdate;
         [discriminate | assumption]. }
  apply run_inv in Hupdate. destruct Hupdate as [_ Hupdate].
  unfold Sqlite.update_tasks in Hupdate.
  destruct (negb _); [destruct Hupdate; discriminate |].
  destruct (Sqlite.first_violation _ _); [destruct Hupdate; discriminate |].
  destruct Hupdate as [Hr Hstore]. inv Hr.
  cbn [Sqlite.changes store] in H.
  destruct (Sqlite.count _ _ >? 0) eqn:Hcount.
  - exfalso. destruct (Sqlite.select_task_project_id _ _) as [pid |].
    + destruct (touch_project_total P pid
                  {| store := store w1; statements := S (statements w1) |})
        as (r' & w2 & Ht).
      { cbn [store]. rewrite Hstore. exact Hp. }
      rewrite Ht in H. inv H. now apply Ho.
    + inv H. now apply Ho.
  - pose proof (count_zero_find _ _ Hcount) as Hfind.
    assert (Hsame : store w1 = store w).
    { rewrite Hstore. rewrite (map_unmatched _ _ _ Hfind). apply database_eta. }
    assert (Hnone : Sqlite.select_task_project_id (Database.bind_param P id) (store w1) = None).
    { rewrite Hsame. unfold Sqlite.select_task_project_id. now rewrite Hfind. }
    rewrite Hnone in H. inv H. exact Hsame.
Qed.

Lemma Database_deleteTask_fails (P : platform) (id : value) (w w' : world)
  (o : outcome bool) :
  (forall p, In p (Sqlite.projects (store w)) -> Sqlite.project_violation p = None) ->
  Database.deleteTask P id w = (o, w') ->
  o <> Ok true ->
  store w' = store w.
Proof.
  intros Hp H Ho. unfold Database.deleteTask, bind, ret, Database.query, Database.run in H.
  cbn [Sqlite.delete_task store statements Sqlite.changes] in H.
  destruct (Sqlite.count _ _ >? 0) eqn:Hcount.
  - exfalso. destruct (Sqlite.select_task_project_id _ _) as [pid |].
    + match type of H with
      | context [Database.touch_project P pid ?w1] =>
          destruct (touch_project_total P pid w1) as (r' & w2 & Ht); [exact Hp |];
          rewrite Ht in H
      end.
      inv H. now apply Ho.
    + inv H. now apply Ho.
  - pose proof (count_zero_find _ _ Hcount) as Hfind.
    destruct (find_none_filter _ _ Hfind) as (_ & Hn & _).
    destruct (Sqlite.select_task_project_id _ _); inv H; cbn [store];
      rewrite Hn; apply database_eta.
Qed.

Lemma tool_failure (P : platform) (name args : value) (w w' : world) (e : error) :
  (forall p, In p (Sqlite.projects (store w)) -> Sqlite.project_violation p = None) ->
  MCPServer.tool P name args w = (Throw e, w') ->
  store w' = store w.
Proof.
  intros Hp H. unfold MCPServer.tool in H.
  destruct name; try (inv H; reflexivity).
  repeat match type of H with
         | (if ?b then _ else _) _ = _ => destruct b eqn:?
         end.
  - unfold MCPServer.createProject, bind, lift, ret, throw in H. run_hyp H;
      try (inv H; reflexivity).
    inv H. eapply Database_createProject_fails; eassumption.
  - exact (listProjects_reads_only P args w _ _ H).
  - unfold MCPServer.addTask, bind, lift, ret, throw, Database.getProject, Database.query in H.
    run_hyp H; try (inv H; reflexivity).
    match goal with
    | Hadd : Database.addTask P _ _ _ _ _ _ _ = _ |- _ =>
        inv H; apply Database_addTask_fails in Hadd; [exact Hadd | exact Hp]
    end.
  - unfold MCPServer.updateTask, bind, lift, ret, throw in H. run_hyp H;
      try (inv H; reflexivity);
      match goal with
      | Hupdate : Database.updateTask P _ _ w = _ |- _ =>
          inv H; apply Database_updateTask_fails in Hupdate;
          [exact Hupdate | exact Hp | intros Hx; inv Hx; discriminate]
      end.
  - exact (getTasks_reads_only P args w _ _ H).
  - exact (getProjectSummary_reads_only P args w _ _ H).
  - unfold MCPServer.deleteTask, bind, lift, ret, throw in H. run_hyp H;
      try (inv H; reflexivity);
      match goal with
      | Hdelete : Database.deleteTask P _ w = _ |- _ =>
          inv H; apply Database_deleteTask_fails in Hdelete;
          [exact Hdelete | exact Hp | intros Hx; inv Hx; discriminate]
      end.
  - unfold MCPServer.deleteProject, bind, lift, ret, throw, Database.getProject,
      Database.query, Database.deleteProject, Database.run in H.
    cbn [Sqlite.delete_project] in H.
    run_hyp H; try (inv H; reflexivity).
  - inv H. reflexivity.
Qed.

(** X10: a tool call that fails has written nothing.  Whatever the server
    has received since it started on an empty database, and whatever the
    tool name and the arguments are, a call that ends in an error leaves
    every stored row as it was. *)
Theorem X10_a_failed_tool_call_writes_nothing
  (P : platform) (chunks : list string) (name args : value) (e : error) (w' : world) :
  MCPServer.tool P name args (MCPServer.db (received P fresh chunks)) = (Throw e, w') ->
  store w' = store (MCPServer.db (received P fresh chunks)).
Proof.
  apply tool_failure. apply constraints_received.
Qed.

Lemma X10_witness :
  store (snd (MCPServer.tool (Reference.node 1000) (VStr "update_task")
                (VObj [("id", number 1); ("status", VStr "")]%string)
                (MCPServer.db (received (Reference.node 1000) fresh
                   [request_line "{'jsonrpc':'2.0','id':1,'method':'tools/call','params':{'name':'create_project','arguments':{'name':'Smoke Project'}}}";
                    request_line "{'jsonrpc':'2.0','id':2,'method':'tools/call','params':{'name':'add_task','arguments':{'project_id':1,'description':'x'}}}"]))))
  = store (MCPServer.db (received (Reference.node 1000) fresh
             [request_line "{'jsonrpc':'2.0','id':1,'method':'tools/call','params':{'name':'create_project','arguments':{'name':'Smoke Project'}}}";
              request_line "{'jsonrpc':'2.0','id':2,'method':'tools/call','params':{'name':'add_task','arguments':{'project_id':1,'description':'x'}}}"])).
Proof.
  apply (X10_a_failed_tool_call_writes_nothing (Reference.node 1000) _ (VStr "update_task")
           (VObj [("id", number 1); ("status", VStr "")]%string)
           (SqliteConstraint "CHECK constraint failed: status")).
  vm_compute. reflexivity.
Defined.

(* ====================================================================== *)
(** ** What create_project writes *)




(* ====================================================================== *)
(** ** The values the columns hold *)











Lemma task_violation_none (t : Sqlite.task) :
  Sqlite.task_violation t = None ->
  Sqlite.is_null (Sqlite.t_project_id t) = false
  /\ Sqlite.is_null (Sqlite.t_description t) = false
  /\ Sqlite.check_in Sqlite.priorities (Sqlite.t_priority t) = true
  /\ Sqlite.check_in Sqlite.statuses (Sqlite.t_status t) = true.
Proof.
  unfold Sqlite.task_violation.
  destruct (Sqlite.is_null (Sqlite.t_project_id t)); [discriminate |].
  destruct (Sqlite.is_null (Sqlite.t_description t)); [discriminate |].
  destruct (Sqlite.check_in Sqlite.priorities _); [| discriminate].
  destruct (Sqlite.check_in Sqlite.statuses _); [| discriminate]. auto.
Qed.







(* ====================================================================== *)
(** ** ORDER BY ... DESC *)

Lemma insert_desc_permutation {A : Type} (key : A -> Z) (x : A) (l : list A) :
  Permutation (Sqlite.insert_desc key x l) (x :: l).
Proof.
  induction l as [| y r IH]; simpl; [apply Permutation_refl |].
  destruct (key y <=? key x); [apply Permutation_refl |].
  apply perm_trans with (y :: x :: r); [now apply perm_skip | apply perm_swap].
Qed.

Lemma order_by_desc_permutation {A : Type} (key : A -> Z) (l : list A) :
  Permutation (Sqlite.order_by_desc key l) l.
Proof.
  unfold Sqlite.order_by_desc. induction l as [| x r IH]; simpl; [constructor |].
  apply perm_trans with (x :: fold_right (Sqlite.insert_desc key) [] r);
    [apply insert_desc_permutation | now apply perm_skip].
Qed.

Lemma insert_desc_descending {A : Type} (key : A -> Z) (x : A) (l : list A) :
  descending key l -> descending key (Sqlite.insert_desc key x l).
Proof.
  unfold descending. induction l as [| y r IH]; simpl; intros H.
  - constructor; constructor.
  - destruct (key y <=? key x) eqn:E.
    + apply Z.leb_le in E. constructor; [exact H |].
      inv H. constructor; [exact E |].
      eapply Forall_impl; [| eassumption]. cbv beta. intros z Hz. lia.
    + apply Z.leb_gt in E. inv H. constructor; [now apply IH |].
      apply (Permutation_Forall (Permutation_sym (insert_desc_permutation key x r))).
      constructor; [lia | assumption].
Qed.

Lemma order_by_desc_descending {A : Type} (key : A -> Z) (l : list A) :
  descending key (Sqlite.order_by_desc key l).
Proof.
  unfold Sqlite.order_by_desc. induction l as [| x r IH]; simpl; [constructor |].
  now apply insert_desc_descending.
Qed.

(* ====================================================================== *)
(** ** What get_tasks returns *)

Lemma forallb_app_true {A : Type} (x : A) (a b : list (A -> bool)) :
  forallb (fun c => c x) (a ++ b) = forallb (fun c => c x) a && forallb (fun c => c x) b.
Proof. apply forallb_app. Qed.

(** X13: get_tasks answers with exactly the stored tasks that pass its
    filters, each once, newest first.  A filter counts only if its value
    is truthy (an absent, null or empty filter is ignored); project_id,
    status, priority, category and assignee must equal the task's column,
    and a search text must be found by LIKE in the description or in the
    notes.  The store is left as it was. *)
Theorem X13_get_tasks_returns_the_matching_tasks_newest_first
  (P : platform) (args : value) (ts : list Sqlite.task) (w w' : world) :
  MCPServer.tool P (VStr "get_tasks") args w = (Ok (MCPServer.TaskList ts), w') ->
  store w' = store w
  /\ descending Sqlite.t_created_at ts
  /\ exists keep,
       Permutation ts (filter keep (Sqlite.tasks (store w)))
       /\ forall t, keep t = true <-> passes_filters P args t.
Proof.
  intros H. split; [exact (getTasks_reads_only P args w _ _ H) |].
  cbn [MCPServer.tool String.eqb Ascii.eqb Bool.eqb] in H.
  unfold MCPServer.getTasks, bind, lift, ret in H. run_hyp H.
  match goal with
  | Hid : (if negb _ then _ else _) _ = (Ok _, ?w0),
    Hdb : Database.getTasks P args ?w0 = (Ok _, _) |- _ =>
      assert (w0 = w) by (destruct (negb _); inv Hid; reflexivity); subst w0; clear Hid;
      inv H; unfold Database.getTasks, bind, lift, Database.query in Hdb;
      assert (Hargs : Database.default (VObj []) args = args)
        by (destruct args; try reflexivity; discriminate);
      rewrite Hargs in Hdb;
      repeat match goal with
             | Hg : JS.get args ?k = Ok _ |- _ => rewrite Hg in Hdb
             end;
      cbv beta iota zeta in Hdb; inv Hdb
  end.
  split; [apply order_by_desc_descending |].
  eexists. split; [apply order_by_desc_permutation |].
  intros t. cbv beta. rewrite !forallb_app. rewrite !andb_true_iff.
  unfold passes_filters. split.
  - intros (F1 & F2 & F3 & F4 & F5 & F6). split.
    + intros k v Hk Hv Htruthy. cases_in Hk; unfold filtered_column, task_column;
        cbn [String.eqb Ascii.eqb Bool.eqb];
        match goal with
        | Hg : JS.get args ?key = Ok ?x, Hv : JS.get args ?key = Ok v |- _ =>
            rewrite Hg in Hv; inv Hv
        end;
        match goal with
        | F : forallb _ (if JS.truthy v then _ else _) = true |- _ =>
            rewrite Htruthy in F; cbn [forallb] in F; rewrite andb_true_r in F; exact F
        end.
    + intros v Hv Htruthy.
      match goal with
      | Hg : JS.get args "search" = Ok ?x, Hv : JS.get args "search" = Ok v |- _ =>
          rewrite Hg in Hv; inv Hv
      end.
      rewrite Htruthy in F6. cbn [forallb] in F6. rewrite andb_true_r in F6. exact F6.
  - intros [Hcols Hsearch].
    repeat split;
      match goal with
      | |- forallb _ (if JS.truthy ?x then _ else _) = true =>
          destruct (JS.truthy x) eqn:Htruthy; [| reflexivity];
          cbn [forallb]; rewrite andb_true_r
      end.
    + apply (Hcols "project_id"%string); [simpl; tauto | assumption | assumption].
    + apply (Hcols "status"%string); [simpl; tauto | assumption | assumption].
    + apply (Hcols "priority"%string); [simpl; tauto | assumption | assumption].
    + apply (Hcols "category"%string); [simpl; tauto | assumption | assumption].
    + apply (Hcols "assignee"%string); [simpl; tauto | assumption | assumption].
    + apply Hsearch; assumption.
Qed.

Lemma X13_witness :
  let P := Reference.node 1000 in
  let args := VObj [("status", VStr "pending"); ("category", VStr "")]%string in
  let ts := match fst (MCPServer.tool P (VStr "get_tasks") args example_world) with
            | Ok (MCPServer.TaskList l) => l
            | _ => []
            end in
  map Sqlite.t_id ts = [2]
  /\ descending Sqlite.t_created_at ts
  /\ exists keep,
       Permutation ts (filter keep (Sqlite.tasks (store example_world)))
       /\ forall t, keep t = true <-> passes_filters P args t.
Proof.
  intros P args ts. split; [vm_compute; reflexivity |].
  apply (X13_get_tasks_returns_the_matching_tasks_newest_first P args ts example_world
           (snd (MCPServer.tool P (VStr "get_tasks") args example_world))).
  vm_compute. reflexivity.
Defined.

(* ====================================================================== *)
(** ** What list_projects returns *)

(** X14: list_projects answers with one row for each stored project (for
    each project of the given client, when a truthy client is given), the
    most recently updated first; total_tasks of a row is the number of
    tasks stored for its project.  The store is left as it was. *)
Theorem X14_list_projects_returns_every_project_latest_first
  (P : platform) (args : value) (rows : list Sqlite.project_row) (w w' : world) :
  MCPServer.tool P (VStr "list_projects") args w = (Ok (MCPServer.ProjectList rows), w') ->
  store w' = store w
  /\ descending (fun r => Sqlite.p_updated_at (Sqlite.pr_project r)) rows
  /\ exists client,
       JS.get args "client" = Ok client
       /\ Permutation (map Sqlite.pr_project rows)
            (filter (of_client P client) (Sqlite.projects (store w)))
       /\ forall r, In r rows ->
            Sqlite.total_tasks r
            = Sqlite.count (Sqlite.task_of_project (Sqlite.SInt (Sqlite.p_id (Sqlite.pr_project r))))
                (Sqlite.tasks (store w)).
Proof.
  intros H. split; [exact (listProjects_reads_only P args w _ _ H) |].
  cbn [MCPServer.tool String.eqb Ascii.eqb Bool.eqb] in H.
  unfold MCPServer.listProjects, bind, lift, ret in H. run_hyp H.
  match goal with
  | Hdb : Database.getProjects P ?c w = (Ok _, _) |- _ =>
      inv H; unfold Database.getProjects, Database.query in Hdb; inv Hdb;
      split; [apply order_by_desc_descending |]; exists c
  end.
  split; [reflexivity |].
  unfold Sqlite.select_projects. split.
  - eapply perm_trans; [apply Permutation_map; apply order_by_desc_permutation |].
    rewrite map_map. cbn [Sqlite.pr_project]. rewrite map_id.
    match goal with
    | |- Permutation (filter ?f _) (filter ?g _) =>
        rewrite (filter_ext f g); [apply Permutation_refl |]
    end.
    intros p. unfold of_client.
    match goal with
    | |- context [Database.default VNull ?c] =>
        assert (Hc : JS.truthy (Database.default VNull c) = JS.truthy c)
          by (destruct c; reflexivity);
        rewrite Hc, bind_default_null; destruct (JS.truthy c); reflexivity
    end.
  - intros r Hin.
    apply (Permutation_in _ (order_by_desc_permutation _ _)) in Hin.
    apply in_map_iff in Hin. destruct Hin as (p & <- & _). reflexivity.
Qed.

Lemma X14_witness :
  let P := Reference.node 1000 in
  let args := VObj [("client", VStr "VSCode")]%string in
  let rows := match fst (MCPServer.tool P (VStr "list_projects") args example_world) with
              | Ok (MCPServer.ProjectList l) => l
              | _ => []
              end in
  map Sqlite.total_tasks rows = [2]
  /\ descending (fun r => Sqlite.p_updated_at (Sqlite.pr_project r)) rows
  /\ exists client,
       JS.get args "client" = Ok client
       /\ Permutation (map Sqlite.pr_project rows)
            (filter (of_client P client) (Sqlite.projects (store example_world)))
       /\ forall r, In r rows ->
            Sqlite.total_tasks r
            = Sqlite.count (Sqlite.task_of_project (Sqlite.SInt (Sqlite.p_id (Sqlite.pr_project r))))
                (Sqlite.tasks (store example_world)).
Proof.
  intros P args rows. split; [vm_compute; reflexivity |].
  apply (X14_list_projects_returns_every_project_latest_first P args rows example_world
           (snd (MCPServer.tool P (VStr "list_projects") args example_world))).
  vm_compute. reflexivity.
Defined.

(* ====================================================================== *)
(** ** Counts by status and by priority *)

Lemma count_cons {A : Type} (f : A -> bool) (x : A) (l : list A) :
  Sqlite.count f (x :: l) = Sqlite.count f l + (if f x then 1 else 0).
Proof. unfold Sqlite.count. simpl. destruct (f x); cbn [length]; lia. Qed.

Lemma statuses_partition (ts : list Sqlite.task) :
  (forall t, In t ts -> Sqlite.check_in Sqlite.statuses (Sqlite.t_status t) = true) ->
  by_status (Sqlite.count (Sqlite.has_status "pending") ts)
    (Sqlite.count (Sqlite.has_status "in-progress") ts)
    (Sqlite.count (Sqlite.has_status "developed") ts)
    (Sqlite.count (Sqlite.has_status "tested") ts)
    (Sqlite.count (Sqlite.has_status "deployed") ts)
    (Sqlite.count (Sqlite.has_status "blocked") ts)
  + without_status ts
  = Z.of_nat (length ts).
Proof.
  unfold by_status, without_status.
  induction ts as [| t r IH]; intros Hall; [reflexivity |].
  rewrite !count_cons. cbn [length]. rewrite Nat2Z.inj_succ.
  specialize (IH (fun x Hx => Hall x (or_intror Hx))).
  specialize (Hall t (or_introl eq_refl)).
  unfold Sqlite.has_status in *. destruct (Sqlite.t_status t) as [| z | q | s];
    cbn [Sqlite.check_in Sqlite.is_null Sqlite.sql_eq] in *; try discriminate; [lia |].
  apply existsb_eqb_In in Hall. unfold Sqlite.statuses in Hall.
  cases_in Hall; cbn [String.eqb Ascii.eqb Bool.eqb]; lia.
Qed.

Lemma priorities_partition (ts : list Sqlite.task) :
  (forall t, In t ts -> Sqlite.check_in Sqlite.priorities (Sqlite.t_priority t) = true) ->
  Sqlite.count (Sqlite.has_priority "critical") ts
  + Sqlite.count (Sqlite.has_priority "high") ts
  + Sqlite.count (Sqlite.has_priority "medium") ts
  + Sqlite.count (Sqlite.has_priority "low") ts
  + without_priority ts
  = Z.of_nat (length ts).
Proof.
  unfold without_priority.
  induction ts as [| t r IH]; intros Hall; [reflexivity |].
  rewrite !count_cons. cbn [length]. rewrite Nat2Z.inj_succ.
  specialize (IH (fun x Hx => Hall x (or_intror Hx))).
  specialize (Hall t (or_introl eq_refl)).
  unfold Sqlite.has_priority in *. destruct (Sqlite.t_priority t) as [| z | q | s];
    cbn [Sqlite.check_in Sqlite.is_null Sqlite.sql_eq] in *; try discriminate; [lia |].
  apply existsb_eqb_In in Hall. unfold Sqlite.priorities in Hall.
  cases_in Hall; cbn [String.eqb Ascii.eqb Bool.eqb]; lia.
Qed.

(** X15: the counts of a summary add up.  Whatever the server has
    received since it started on an empty database, in the answer of
    get_project_summary the six counts by status and the number of the
    project's tasks whose status is NULL add up to total, and so do the
    four counts by priority and the number of its tasks whose priority is
    NULL; in every row of list_projects the six counts by status and the
    number of tasks without status add up to total_tasks. *)
Theorem X15_the_counts_add_up_to_the_total
  (P : platform) (chunks : list string) (args : value) :
  let w := MCPServer.db (received P fresh chunks) in
  (forall name project_id s w',
      MCPServer.tool P (VStr "get_project_summary") args w
      = (Ok (MCPServer.ProjectSummary name project_id s), w') ->
      let c := Database.row s in
      let ts := filter (Sqlite.task_of_project (Database.bind_param P project_id))
                  (Sqlite.tasks (store w)) in
      by_status (Sqlite.c_pending c) (Sqlite.c_in_progress c) (Sqlite.c_developed c)
        (Sqlite.c_tested c) (Sqlite.c_deployed c) (Sqlite.c_blocked c)
      + without_status ts = Sqlite.c_total c
      /\ Sqlite.c_critical c + Sqlite.c_high c + Sqlite.c_medium c + Sqlite.c_low c
         + without_priority ts = Sqlite.c_total c)
  /\ (forall rows w',
         MCPServer.tool P (VStr "list_projects") args w
         = (Ok (MCPServer.ProjectList rows), w') ->
         forall r, In r rows ->
           by_status (Sqlite.pending_tasks r) (Sqlite.in_progress_tasks r)
             (Sqlite.developed_tasks r) (Sqlite.tested_tasks r) (Sqlite.deployed_tasks r)
             (Sqlite.blocked_tasks r)
           + without_status
               (filter (Sqlite.task_of_project (Sqlite.SInt (Sqlite.p_id (Sqlite.pr_project r))))
                  (Sqlite.tasks (store w)))
           = Sqlite.total_tasks r).
Proof.
  intros w.
  assert (Hchecked : forall f t, In t (filter f (Sqlite.tasks (store w))) ->
            Sqlite.check_in Sqlite.priorities (Sqlite.t_priority t) = true
            /\ Sqlite.check_in Sqlite.statuses (Sqlite.t_status t) = true).
  { intros f t Hin. apply filter_In in Hin. destruct Hin as [Hin _].
    apply (proj2 (constraints_received P chunks)) in Hin.
    apply task_violation_none in Hin. tauto. }
  split.
  - intros name project_id s w' H.
    cbn [MCPServer.tool String.eqb Ascii.eqb Bool.eqb] in H.
    unfold MCPServer.getProjectSummary, Database.getProject, Database.getProjectSummary,
      Database.query, bind, lift, ret, throw in H.
    run_hyp H. inv H. cbn [Database.row store].
    unfold Sqlite.select_counts.
    cbn [Sqlite.c_total Sqlite.c_pending Sqlite.c_in_progress Sqlite.c_developed
         Sqlite.c_tested Sqlite.c_deployed Sqlite.c_blocked Sqlite.c_critical Sqlite.c_high
         Sqlite.c_medium Sqlite.c_low].
    split.
    + apply statuses_partition. intros t Hin. apply (Hchecked _ t Hin).
    + rewrite <- (priorities_partition
                    (filter (Sqlite.task_of_project (Database.bind_param P project_id))
                       (Sqlite.tasks (store w)))); [lia |].
      intros t Hin. apply (Hchecked _ t Hin).
  - intros rows w' H r Hin.
    cbn [MCPServer.tool String.eqb Ascii.eqb Bool.eqb] in H.
    unfold MCPServer.listProjects, Database.getProjects, Database.query, bind, lift, ret in H.
    run_hyp H. inv H. unfold Sqlite.select_projects in Hin.
    apply (Permutation_in _ (order_by_desc_permutation _ _)) in Hin.
    apply in_map_iff in Hin. destruct Hin as (p & <- & _).
    cbn [Sqlite.pr_project Sqlite.total_tasks Sqlite.pending_tasks Sqlite.in_progress_tasks
         Sqlite.developed_tasks Sqlite.tested_tasks Sqlite.deployed_tasks
         Sqlite.blocked_tasks].
    apply statuses_partition. intros t Ht. apply (Hchecked _ t Ht).
Qed.

Lemma X15_witness :
  let P := Reference.node 1000 in
  let chunks :=
    [request_line "{'jsonrpc':'2.0','id':1,'method':'tools/call','params':{'name':'create_project','arguments':{'name':'Smoke Project'}}}";
     request_line "{'jsonrpc':'2.0','id':2,'method':'tools/call','params':{'name':'add_task','arguments':{'project_id':1,'description':'x'}}}";
     request_line "{'jsonrpc':'2.0','id':3,'method':'tools/call','params':{'name':'update_task','arguments':{'id':1,'status':null}}}"] in
  let w := MCPServer.db (received P fresh chunks) in
  let c := {| Sqlite.c_total := 1; Sqlite.c_pending := 0; Sqlite.c_in_progress := 0;
              Sqlite.c_developed := 0; Sqlite.c_tested := 0; Sqlite.c_deployed := 0;
              Sqlite.c_blocked := 0; Sqlite.c_critical := 0; Sqlite.c_high := 0;
              Sqlite.c_medium := 1; Sqlite.c_low := 0 |} in
  let ts := filter (Sqlite.task_of_project (Database.bind_param P (number 1)))
              (Sqlite.tasks (store w)) in
  by_status (Sqlite.c_pending c) (Sqlite.c_in_progress c) (Sqlite.c_developed c)
    (Sqlite.c_tested c) (Sqlite.c_deployed c) (Sqlite.c_blocked c)
  + without_status ts = Sqlite.c_total c
  /\ Sqlite.c_critical c + Sqlite.c_high c + Sqlite.c_medium c + Sqlite.c_low c
     + without_priority ts = Sqlite.c_total c.
Proof.
  intros P chunks w c ts.
  apply (proj1 (X15_the_counts_add_up_to_the_total P chunks
                  (VObj [("project_id", number 1)]%string))
           (Sqlite.SText "Smoke Project") (number 1)
           {| Database.row := c; Database.completion_percentage := 0;
              Database.progress_percentage := 0 |}
           (snd (MCPServer.tool P (VStr "get_project_summary")
                   (VObj [("project_id", number 1)]%string) w))).
  vm_compute. reflexivity.
Defined.

(* ====================================================================== *)
(** ** The stream may be cut anywhere *)

Lemma string_app_assoc (a b c : string) : ((a ++ b) ++ c)%string = (a ++ (b ++ c))%string.
Proof. induction a as [| x r IH]; simpl; [reflexivity | now rewrite IH]. Qed.

Lemma indexOf_lt (c : ascii) (a : string) (i : nat) :
  Str.indexOf c a = Some i -> (i < String.length a)%nat.
Proof.
  revert i. induction a as [| x r IH]; simpl; intros i H; [discriminate |].
  destruct (Ascii.eqb x c); [inv H; lia |].
  destruct (Str.indexOf c r) as [j |]; [| discriminate].
  inv H. specialize (IH j eq_refl). lia.
Qed.

Lemma indexOf_app (c : ascii) (a b : string) (i : nat) :
  Str.indexOf c a = Some i -> Str.indexOf c (a ++ b) = Some i.
Proof.
  revert i. induction a as [| x r IH]; simpl; intros i H; [discriminate |].
  destruct (Ascii.eqb x c); [exact H |].
  destruct (Str.indexOf c r) as [j |]; [| discriminate].
  now rewrite (IH j eq_refl).
Qed.

Lemma slice_to_app (i : nat) (a b : string) :
  (i < String.length a)%nat -> Str.slice_to i (a ++ b) = Str.slice_to i a.
Proof.
  revert a. induction i as [| i IH]; intros [| x r]; simpl; intros H; try lia; try reflexivity.
  f_equal. apply IH. lia.
Qed.

Lemma slice_from_app (i : nat) (a b : string) :
  (i <= String.length a)%nat -> Str.slice_from i (a ++ b) = (Str.slice_from i a ++ b)%string.
Proof.
  revert a. induction i as [| i IH]; intros a H.
  - destruct a; simpl; [destruct b |]; reflexivity.
  - destruct a as [| x r]; simpl in *; [lia |]. apply IH. lia.
Qed.

Lemma lines_step (P : platform) (fuel : nat) (s : MCPServer.server) :
  MCPServer.lines P (S fuel) s =
  match Str.indexOf Str.LF (MCPServer.inputBuffer s) with
  | None => Some (Ok tt, s)
  | Some i =>
      let rest := Str.slice_from (S i) (MCPServer.inputBuffer s) in
      let line := Str.trim (Str.slice_to i (MCPServer.inputBuffer s)) in
      if Str.is_empty line
      then MCPServer.lines P fuel
             {| MCPServer.db := MCPServer.db s; MCPServer.inputBuffer := rest;
                MCPServer.stdout := MCPServer.stdout s |}
      else
        match JSON_parse P line with
        | None =>
            Some (Throw SyntaxError,
                  {| MCPServer.db := MCPServer.db s; MCPServer.inputBuffer := rest;
                     MCPServer.stdout := MCPServer.stdout s |})
        | Some message =>
            match MCPServer.handleMessage P message (MCPServer.db s) with
            | (Ok response, w) =>
                MCPServer.lines P fuel
                  {| MCPServer.db := w; MCPServer.inputBuffer := rest;
                     MCPServer.stdout := MCPServer.stdout s ++ [response] |}
            | (Throw e, w) =>
                Some (Throw e,
                      {| MCPServer.db := w; MCPServer.inputBuffer := rest;
                         MCPServer.stdout := MCPServer.stdout s |})
            end
        end
  end.
Proof. reflexivity. Qed.

Lemma lines_shrink (P : platform) (n : nat) (s s' : MCPServer.server) (o : outcome unit) :
  MCPServer.lines P n s = Some (o, s') ->
  (String.length (MCPServer.inputBuffer s') <= String.length (MCPServer.inputBuffer s))%nat.
Proof.
  revert s. induction n as [| n IH]; intros s H; [discriminate |].
  rewrite lines_step in H.
  destruct (Str.indexOf Str.LF (MCPServer.inputBuffer s)) as [i |] eqn:Ei; [| inv H; lia].
  pose proof (Nat.lt_le_incl _ _ (slice_from_S_shorter _ _ Ei)) as Hle. cbv zeta in H.
  destruct (Str.is_empty _).
  { eapply Nat.le_trans; [exact (IH _ H) | exact Hle]. }
  destruct (JSON_parse P _) as [message |].
  2: { injection H as _ <-. exact Hle. }
  destruct (MCPServer.handleMessage P message (MCPServer.db s)) as [[r | e] w].
  - eapply Nat.le_trans; [exact (IH _ H) | exact Hle].
  - injection H as _ <-. exact Hle.
Qed.




(* ====================================================================== *)
(** ** The client reads the stream however it is cut *)

Lemma client_lines_step (P : platform) (fuel : nat) (c : MCPTestClient.client) :
  MCPTestClient.lines P (S fuel) c =
  match Str.indexOf Str.LF (MCPTestClient.stdoutBuffer c) with
  | None => Some c
  | Some i =>
      let line := Str.trim (Str.slice_to i (MCPTestClient.stdoutBuffer c)) in
      let c' := MCPTestClient.set_stdoutBuffer
                  (Str.slice_from (S i) (MCPTestClient.stdoutBuffer c)) c in
      if Str.is_empty line then MCPTestClient.lines P fuel c'
      else MCPTestClient.lines P fuel (MCPTestClient.on_line P line c')
  end.
Proof. reflexivity. Qed.

Lemma on_line_set_buffer (P : platform) (line b : string) (c : MCPTestClient.client) :
  MCPTestClient.on_line P line (MCPTestClient.set_stdoutBuffer b c)
  = MCPTestClient.set_stdoutBuffer b (MCPTestClient.on_line P line c).
Proof.
  unfold MCPTestClient.on_line.
  destruct (JSON_parse P line) as [message |]; [| reflexivity].
  destruct (JS.get message "id") as [id |]; [| reflexivity].
  cbn [MCPTestClient.set_stdoutBuffer MCPTestClient.pending].
  destruct (JS.truthy id && _); [| reflexivity].
  destruct (MCPTestClient.Map_get _ id) as [cb |]; [| reflexivity].
  unfold MCPTestClient.resolve, MCPTestClient.settle, MCPTestClient.is_settled.
  cbn [MCPTestClient.clearTimeout MCPTestClient.set_pending MCPTestClient.set_stdoutBuffer
       MCPTestClient.settled MCPTestClient.nextId MCPTestClient.pending
       MCPTestClient.stdoutBuffer MCPTestClient.timers MCPTestClient.stdin MCPTestClient.now].
  destruct (existsb _ _); reflexivity.
Qed.

Lemma on_line_buffer (P : platform) (line : string) (c : MCPTestClient.client) :
  MCPTestClient.stdoutBuffer (MCPTestClient.on_line P line c) = MCPTestClient.stdoutBuffer c.
Proof.
  unfold MCPTestClient.on_line.
  destruct (JSON_parse P line) as [message |]; [| reflexivity].
  destruct (JS.get message "id") as [id |]; [| reflexivity].
  destruct (JS.truthy id && _); [| reflexivity].
  destruct (MCPTestClient.Map_get _ id) as [cb |]; [| reflexivity].
  unfold MCPTestClient.resolve, MCPTestClient.settle.
  destruct (MCPTestClient.is_settled _ _); reflexivity.
Qed.

Lemma client_lines_fuel (P : platform) (n m : nat) (c : MCPTestClient.client) :
  (String.length (MCPTestClient.stdoutBuffer c) < n)%nat ->
  (String.length (MCPTestClient.stdoutBuffer c) < m)%nat ->
  MCPTestClient.lines P n c = MCPTestClient.lines P m c
  /\ exists c', MCPTestClient.lines P n c = Some c'.
Proof.
  revert m c. induction n as [| n IH]; intros m c Hn Hm; [lia |].
  destruct m as [| m]; [lia |].
  rewrite !client_lines_step.
  destruct (Str.indexOf Str.LF (MCPTestClient.stdoutBuffer c)) as [i |] eqn:Ei.
  2: { split; [reflexivity | eexists; reflexivity]. }
  pose proof (slice_from_S_shorter _ _ Ei) as Hlt. cbv zeta.
  destruct (Str.is_empty _).
  - apply IH;
      change (MCPTestClient.stdoutBuffer (MCPTestClient.set_stdoutBuffer ?b c)) with b; lia.
  - apply IH; rewrite on_line_buffer;
      change (MCPTestClient.stdoutBuffer (MCPTestClient.set_stdoutBuffer ?b c)) with b; lia.
Qed.

Lemma client_lines_shrink (P : platform) (n : nat) (c c' : MCPTestClient.client) :
  MCPTestClient.lines P n c = Some c' ->
  (String.length (MCPTestClient.stdoutBuffer c')
   <= String.length (MCPTestClient.stdoutBuffer c))%nat.
Proof.
  revert c. induction n as [| n IH]; intros c H; [discriminate |].
  rewrite client_lines_step in H.
  destruct (Str.indexOf Str.LF (MCPTestClient.stdoutBuffer c)) as [i |] eqn:Ei; [| inv H; lia].
  pose proof (Nat.lt_le_incl _ _ (slice_from_S_shorter _ _ Ei)) as Hle. cbv zeta in H.
  destruct (Str.is_empty _); apply IH in H.
  - eapply Nat.le_trans; [exact H | exact Hle].
  - rewrite on_line_buffer in H. eapply Nat.le_trans; [exact H | exact Hle].
Qed.

Lemma client_lines_app (P : platform) (y : string) (n : nat) (c c' : MCPTestClient.client) :
  MCPTestClient.lines P n c = Some c' ->
  forall m m',
    (String.length (MCPTestClient.stdoutBuffer c ++ y) < m)%nat ->
    (String.length (MCPTestClient.stdoutBuffer c' ++ y) < m')%nat ->
    MCPTestClient.lines P m
      (MCPTestClient.set_stdoutBuffer (MCPTestClient.stdoutBuffer c ++ y) c)
    = MCPTestClient.lines P m'
        (MCPTestClient.set_stdoutBuffer (MCPTestClient.stdoutBuffer c' ++ y) c').
Proof.
  revert c. induction n as [| n IH]; intros c H m m' Hm Hm'; [discriminate |].
  rewrite client_lines_step in H.
  destruct (Str.indexOf Str.LF (MCPTestClient.stdoutBuffer c)) as [i |] eqn:Ei.
  2: { inv H. apply client_lines_fuel; assumption. }
  pose proof (slice_from_S_shorter _ _ Ei) as Hlt.
  pose proof (indexOf_lt _ _ _ Ei) as Hi. cbv zeta in H.
  destruct m as [| m]; [lia |].
  rewrite client_lines_step.
  change (MCPTestClient.stdoutBuffer
            (MCPTestClient.set_stdoutBuffer (MCPTestClient.stdoutBuffer c ++ y) c))
    with (MCPTestClient.stdoutBuffer c ++ y)%string.
  rewrite (indexOf_app _ _ y _ Ei). cbv zeta.
  rewrite slice_to_app, slice_from_app by lia.
  change (MCPTestClient.set_stdoutBuffer
            (Str.slice_from (S i) (MCPTestClient.stdoutBuffer c) ++ y)
            (MCPTestClient.set_stdoutBuffer (MCPTestClient.stdoutBuffer c ++ y) c))
    with (MCPTestClient.set_stdoutBuffer
            (Str.slice_from (S i) (MCPTestClient.stdoutBuffer c) ++ y) c).
  rewrite length_append in Hm.
  assert (Hfuel : (String.length (Str.slice_from (S i) (MCPTestClient.stdoutBuffer c) ++ y)
                   < m)%nat) by (rewrite length_append; lia).
  destruct (Str.is_empty _).
  - specialize (IH _ H m m'). apply IH; assumption.
  - specialize (IH _ H m m'). rewrite on_line_buffer in IH.
    rewrite on_line_set_buffer in IH |- *.
    change (MCPTestClient.stdoutBuffer
              (MCPTestClient.set_stdoutBuffer
                 (Str.slice_from (S i) (MCPTestClient.stdoutBuffer c)) c))
      with (Str.slice_from (S i) (MCPTestClient.stdoutBuffer c)) in IH.
    rewrite <- IH by assumption. reflexivity.
Qed.

(** X18: the client decodes the server's output however the stream is
    cut into chunks: receiving two chunks one after the other comes to
    the same as receiving them as one.  A line that is cut in two is
    completed by the next chunk, and no line is handled twice or lost. *)
Theorem X18_the_client_reads_the_stream_however_it_is_cut
  (P : platform) (c : MCPTestClient.client) (a b : string) :
  MCPTestClient.on_data P b (MCPTestClient.on_data P a c)
  = MCPTestClient.on_data P (a ++ b) c.
Proof.
  unfold MCPTestClient.on_data at 2.
  change (MCPTestClient.stdoutBuffer
            (MCPTestClient.set_stdoutBuffer (MCPTestClient.stdoutBuffer c ++ a) c))
    with (MCPTestClient.stdoutBuffer c ++ a)%string.
  destruct (client_lines_fuel P (S (String.length (MCPTestClient.stdoutBuffer c ++ a)))
              (S (String.length (MCPTestClient.stdoutBuffer c ++ a)))
              (MCPTestClient.set_stdoutBuffer (MCPTestClient.stdoutBuffer c ++ a) c))
    as [_ [c' Hc']];
    try (change (MCPTestClient.stdoutBuffer
                   (MCPTestClient.set_stdoutBuffer (MCPTestClient.stdoutBuffer c ++ a) c))
           with (MCPTestClient.stdoutBuffer c ++ a)%string; lia).
  rewrite Hc'.
  unfold MCPTestClient.on_data.
  change (MCPTestClient.stdoutBuffer
            (MCPTestClient.set_stdoutBuffer (MCPTestClient.stdoutBuffer c' ++ b) c'))
    with (MCPTestClient.stdoutBuffer c' ++ b)%string.
  change (MCPTestClient.stdoutBuffer
            (MCPTestClient.set_stdoutBuffer (MCPTestClient.stdoutBuffer c ++ a ++ b) c))
    with (MCPTestClient.stdoutBuffer c ++ a ++ b)%string.
  pose proof (client_lines_app P b _ _ _ Hc'
                (S (String.length (MCPTestClient.stdoutBuffer c ++ a ++ b)))
                (S (String.length (MCPTestClient.stdoutBuffer c' ++ b)))) as Happ.
  change (MCPTestClient.stdoutBuffer
            (MCPTestClient.set_stdoutBuffer (MCPTestClient.stdoutBuffer c ++ a) c))
    with (MCPTestClient.stdoutBuffer c ++ a)%string in Happ.
  change (MCPTestClient.set_stdoutBuffer ((MCPTestClient.stdoutBuffer c ++ a) ++ b)
            (MCPTestClient.set_stdoutBuffer (MCPTestClient.stdoutBuffer c ++ a) c))
    with (MCPTestClient.set_stdoutBuffer ((MCPTestClient.stdoutBuffer c ++ a) ++ b) c)
    in Happ.
  rewrite string_app_assoc in Happ.
  rewrite <- Happ by lia.
  destruct (client_lines_fuel P (S (String.length (MCPTestClient.stdoutBuffer c ++ a ++ b)))
              (S (String.length (MCPTestClient.stdoutBuffer c ++ a ++ b)))
              (MCPTestClient.set_stdoutBuffer (MCPTestClient.stdoutBuffer c ++ a ++ b) c))
    as [_ [c2 Hc2]];
    try (change (MCPTestClient.stdoutBuffer
                   (MCPTestClient.set_stdoutBuffer
                      (MCPTestClient.stdoutBuffer c ++ a ++ b) c))
           with (MCPTestClient.stdoutBuffer c ++ a ++ b)%string; lia).
  rewrite Hc2. reflexivity.
Qed.

(* ====================================================================== *)
(** ** A promise is settled once *)

Section Settlement.
Import MCPTestClient.

Lemma clearTimeout_outcome (h id : Z) (c : client) :
  outcome_of (clearTimeout h c) id = outcome_of c id.
Proof. reflexivity. Qed.

Lemma on_line_outcome_kept (P : platform) (line : string) (c : client) (id : Z)
  (s : settlement) :
  outcome_of c id = Some s -> outcome_of (on_line P line c) id = Some s.
Proof.
  intros H. unfold on_line.
  destruct (JSON_parse P line) as [message |]; [| exact H].
  destruct (JS.get message "id") as [idv |]; [| exact H].
  destruct (JS.truthy idv && _); [| exact H].
  destruct (Map_get _ idv) as [cb |]; [| exact H].
  unfold resolve. apply settle_outcome_kept. exact H.
Qed.

Lemma client_lines_outcome_kept (P : platform) (fuel : nat) (c c' : client) (id : Z)
  (s : settlement) :
  lines P fuel c = Some c' -> outcome_of c id = Some s -> outcome_of c' id = Some s.
Proof.
  revert c. induction fuel as [| fuel IH]; intros c H Hs; [discriminate |].
  rewrite client_lines_step in H.
  destruct (Str.indexOf Str.LF (stdoutBuffer c)) as [i |]; [| inv H; exact Hs].
  cbv zeta in H. destruct (Str.is_empty _).
  - apply (IH _ H). exact Hs.
  - apply (IH _ H). apply on_line_outcome_kept. exact Hs.
Qed.

Lemma step_outcome_kept (P : platform) (c : client) (e : event) (id : Z) (s : settlement) :
  outcome_of c id = Some s -> outcome_of (step P c e) id = Some s.
Proof.
  intros H. destruct e as [method params | chunk | ms | code]; cbn [step].
  - exact H.
  - unfold on_data. destruct (lines P _ _) as [c' |] eqn:E; [| exact H].
    apply (client_lines_outcome_kept P _ _ _ _ _ E). exact H.
  - rewrite elapse_fire. apply fire_outcome_kept. exact H.
  - unfold on_exit. change (outcome_of (reject_all code (pending c) c) id = Some s).
    apply reject_all_outcome_kept. exact H.
Qed.

End Settlement.

(** X19: a promise is settled once.  When the promise of a call is
    settled, resolved with a response or rejected with an error, nothing
    that happens to the client afterwards changes that: not a second
    response with the same id, not the timer of the call, not the exit
    of the server. *)
Theorem X19_a_settled_promise_stays_as_it_was_settled
  (P : platform) (t : Z) (history later : list event) (id : Z)
  (s : MCPTestClient.settlement) :
  MCPTestClient.outcome_of (after P t history) id = Some s ->
  MCPTestClient.outcome_of (after P t (history ++ later)) id = Some s.
Proof.
  unfold after. rewrite fold_left_app. generalize (fold_left (step P) history (MCPTestClient.new t)).
  induction later as [| e r IH]; intros c H; [exact H |].
  cbn [fold_left]. apply IH. now apply step_outcome_kept.
Qed.

Lemma X19_witness :
  let P := Reference.node 0 in
  let history :=
    [Call "initialize" (VObj []);
     Data (request_line "{'jsonrpc':'2.0','id':1,'result':{'ok':true}}")] in
  let later :=
    [Data (request_line "{'jsonrpc':'2.0','id':1,'result':{'ok':false}}");
     Elapse 9000; Exit (number 1)] in
  MCPTestClient.outcome_of (after P 0 (history ++ later)) 1
  = Some (MCPTestClient.Resolved
            (VObj [("jsonrpc", VStr "2.0"); ("id", number 1);
                   ("result", VObj [("ok", VBool true)])]%string)).
Proof.
  intros P history later.
  apply (X19_a_settled_promise_stays_as_it_was_settled P 0 history later 1).
  vm_compute. reflexivity.
Defined.

(* ====================================================================== *)
(** ** No call waits for ever *)

Section Deadline.
Import MCPTestClient.

Lemma is_settled_outcome (c : client) (id : Z) :
  is_settled c id = true <-> exists s, outcome_of c id = Some s.
Proof.
  unfold is_settled, outcome_of. split.
  - intros H. apply existsb_exists in H. destruct H as (x & Hx & Hid).
    destruct (find (fun e => fst e =? id) (settled c)) as [y |] eqn:E.
    + exists (snd y). reflexivity.
    + apply (find_none _ _ E) in Hx. congruence.
  - intros [s H].
    destruct (find (fun e => fst e =? id) (settled c)) as [y |] eqn:E; [| discriminate].
    apply find_some in E. apply existsb_exists. exists y. exact E.
Qed.

Lemma step_settled (P : platform) (c : client) (e : event) (id : Z) :
  is_settled c id = true -> is_settled (step P c e) id = true.
Proof.
  rewrite !is_settled_outcome. intros [s H]. exists s. now apply step_outcome_kept.
Qed.

Lemma settle_settles (id : Z) (how : settlement) (c : client) :
  is_settled (settle id how c) id = true.
Proof.
  unfold settle. destruct (is_settled c id) eqn:E; [exact E |].
  unfold is_settled. cbn [settled]. rewrite existsb_app.
  cbn [existsb fst]. rewrite Z.eqb_refl. apply orb_true_r.
Qed.

Lemma settle_keeps_settled (id k : Z) (how : settlement) (c : client) :
  is_settled c id = true -> is_settled (settle k how c) id = true.
Proof.
  rewrite !is_settled_outcome. intros [s H]. exists s. now apply settle_outcome_kept.
Qed.

Lemma fire_settles (fired : list timer) (c : client) (tm : timer) :
  In tm fired -> is_settled (fire fired c) (handle tm) = true.
Proof.
  revert c. induction fired as [| x r IH]; intros c Hin; [destruct Hin |].
  unfold fire. cbn [fold_left]. fold (fire r (on_timeout (handle x) (waiting_for x) c)).
  destruct Hin as [-> | Hin]; [| now apply IH].
  apply is_settled_outcome.
  assert (Hnow : is_settled (on_timeout (handle tm) (waiting_for tm) c) (handle tm) = true)
    by apply settle_settles.
  apply is_settled_outcome in Hnow. destruct Hnow as [s Hs].
  exists s. now apply fire_outcome_kept.
Qed.

Lemma fire_timers (fired : list timer) (c : client) :
  timers (fire fired c) = timers c /\ now (fire fired c) = now c.
Proof.
  revert c. induction fired as [| x r IH]; intros c; [auto |].
  unfold fire. cbn [fold_left]. fold (fire r (on_timeout (handle x) (waiting_for x) c)).
  destruct (IH (on_timeout (handle x) (waiting_for x) c)) as [-> ->].
  unfold on_timeout, settle. destruct (is_settled _ _); auto.
Qed.

Lemma on_line_cases (P : platform) (line : string) (c : client) :
  client_invariant c ->
  on_line P line c = c
  \/ exists k message, on_line P line c = answered k message c.
Proof.
  intros Hinv. unfold on_line.
  destruct (JSON_parse P line) as [message |] eqn:Hparse; [| now left].
  destruct (JS.get message "id") as [idv |] eqn:Hget; [| now left].
  destruct (JS.truthy idv && Map_has (pending c) idv) eqn:Hmatch; [| now left].
  apply andb_true_iff in Hmatch. destruct Hmatch as [Htruthy Hhas].
  pose proof Hhas as Hhas'.
  unfold Map_has in Hhas. apply existsb_exists in Hhas.
  destruct Hhas as ([id cb] & Hin & Hkey). simpl in Hkey.
  pose proof (on_line_matched P c line message idv id cb Hinv Hparse Hget Hin Hkey) as E.
  unfold on_line in E. rewrite Hparse, Hget, Htruthy, Hhas' in E. cbn [andb] in E.
  right. eauto.
Qed.

Lemma answered_settled_or_armed (id deadline k : Z) (message : value) (c : client) :
  settled_or_armed id deadline c -> settled_or_armed id deadline (answered k message c).
Proof.
  unfold settled_or_armed, answered, is_settled. cbn [settled now timers].
  intros [H | (Hnow & tm & Hin & Hh & Hd)].
  - left. rewrite existsb_app, H. reflexivity.
  - destruct (Z.eq_dec k id) as [-> | Hne].
    + left. rewrite existsb_app. cbn [existsb fst]. rewrite Z.eqb_refl. apply orb_true_r.
    + right. split; [exact Hnow |]. exists tm. repeat split; try assumption.
      apply filter_In. split; [exact Hin |].
      apply negb_true_iff, Z.eqb_neq. congruence.
Qed.

Lemma client_lines_settled_or_armed (P : platform) (id deadline : Z) (fuel : nat)
  (c c' : client) :
  client_invariant c -> lines P fuel c = Some c' ->
  settled_or_armed id deadline c -> settled_or_armed id deadline c'.
Proof.
  revert c. induction fuel as [| fuel IH]; intros c Hinv H K; [discriminate |].
  rewrite client_lines_step in H.
  destruct (Str.indexOf Str.LF (stdoutBuffer c)) as [i |]; [| inv H; exact K].
  cbv zeta in H. destruct (Str.is_empty _).
  - apply (IH _ (set_stdoutBuffer_invariant _ c Hinv) H). exact K.
  - apply (IH _ (on_line_invariant P _ _ (set_stdoutBuffer_invariant _ c Hinv)) H).
    destruct (on_line_cases P (Str.trim (Str.slice_to i (stdoutBuffer c)))
                (set_stdoutBuffer (Str.slice_from (S i) (stdoutBuffer c)) c)
                (set_stdoutBuffer_invariant _ c Hinv)) as [-> | (k & message & ->)].
    + exact K.
    + apply answered_settled_or_armed. exact K.
Qed.

Lemma step_settled_or_armed (P : platform) (id deadline : Z) (c : client) (e : event) :
  client_invariant c ->
  settled_or_armed id deadline c -> settled_or_armed id deadline (step P c e).
Proof.
  intros Hinv K. destruct K as [K | (Hnow & tm & Hin & Hh & Hd)].
  { left. now apply step_settled. }
  destruct e as [method params | chunk | ms | code]; cbn [step].
  - right. unfold call. cbn [snd now timers]. split; [exact Hnow |].
    exists tm. repeat split; try assumption. apply in_or_app. now left.
  - unfold on_data. destruct (lines P _ _) as [c' |] eqn:E.
    + apply (client_lines_settled_or_armed P id deadline _ _ _
               (set_stdoutBuffer_invariant _ c Hinv) E).
      right. split; [exact Hnow |]. exists tm. auto.
    + right. split; [exact Hnow |]. exists tm. auto.
  - rewrite elapse_fire. destruct (due tm <=? now c + ms) eqn:Edue.
    + left. rewrite <- Hh. apply fire_settles. apply filter_In. auto.
    + right. apply Z.leb_gt in Edue.
      match goal with
      | |- context [fire ?f ?c0] => destruct (fire_timers f c0) as [Ht Hn]
      end.
      rewrite Hn, Ht. cbn [now timers]. split; [lia |].
      exists tm. repeat split; try assumption.
      apply filter_In. split; [exact Hin |]. apply negb_true_iff, Z.leb_gt. lia.
  - left. destruct Hinv as (I0 & I1 & I2 & I3 & I4).
    destruct (I2 tm Hin) as [cb Hcb]. rewrite Hh in Hcb.
    apply is_settled_outcome. eexists.
    apply (on_exit_rejects code c id cb (conj I0 (conj I1 (conj I2 (conj I3 I4)))) Hcb).
Qed.

Lemma history_settled_or_armed (P : platform) (id deadline : Z) (later : list event)
  (c : client) :
  client_invariant c ->
  settled_or_armed id deadline c ->
  settled_or_armed id deadline (fold_left (step P) later c).
Proof.
  revert c. induction later as [| e r IH]; intros c Hinv K; [exact K |].
  cbn [fold_left]. apply IH.
  - now apply step_invariant.
  - now apply step_settled_or_armed.
Qed.

End Deadline.

(** X20: no call waits for ever.  Whatever happens to the client after a
    call is made (responses that match or do not, other calls, the exit
    of the server, or nothing at all), once REQUEST_TIMEOUT_MS
    milliseconds have passed since the call its promise is settled. *)
Theorem X20_every_call_is_settled_when_its_timeout_has_passed
  (P : platform) (t : Z) (history later : list event) (method : string) (params : value) :
  let c0 := after P t history in
  let c := after P t (history ++ Call method params :: later) in
  MCPTestClient.now c0 + MCPTestClient.REQUEST_TIMEOUT_MS <= MCPTestClient.now c ->
  exists s, MCPTestClient.outcome_of c (MCPTestClient.nextId c0) = Some s.
Proof.
  intros c0 c Hlate. apply is_settled_outcome.
  assert (K : settled_or_armed (MCPTestClient.nextId c0)
                (MCPTestClient.now c0 + MCPTestClient.REQUEST_TIMEOUT_MS) c).
  { unfold c, after. rewrite fold_left_app. cbn [fold_left].
    fold (after P t history). fold c0.
    assert (Hinv : client_invariant (step P c0 (Call method params)))
      by (apply step_invariant, after_invariant).
    assert (K1 : settled_or_armed (MCPTestClient.nextId c0)
                   (MCPTestClient.now c0 + MCPTestClient.REQUEST_TIMEOUT_MS)
                   (step P c0 (Call method params))).
    { right. cbn [step MCPTestClient.call snd MCPTestClient.now MCPTestClient.timers].
      split; [unfold MCPTestClient.REQUEST_TIMEOUT_MS; lia |].
      eexists. split; [apply in_or_app; right; left; reflexivity |]. split; reflexivity. }
    now apply history_settled_or_armed. }
  destruct K as [K | [Hnow _]]; [exact K | lia].
Qed.

Lemma X20_witness :
  let P := Reference.node 0 in
  exists s,
    MCPTestClient.outcome_of
      (after P 0 ([Call "initialize" (VObj [])]
                  ++ Call "tools/list" (VObj []) :: [Elapse 5000; Elapse 3000]))
      (MCPTestClient.nextId (after P 0 [Call "initialize" (VObj [])]))
    = Some s.
Proof.
  intros P.
  apply (X20_every_call_is_settled_when_its_timeout_has_passed P 0
           [Call "initialize" (VObj [])] [Elapse 5000; Elapse 3000] "tools/list" (VObj [])).
  vm_compute. discriminate.
Defined.

(* ====================================================================== *)
(** ** What the server writes *)








(* ====================================================================== *)
(** ** The client's tool call and the server's answer *)

Lemma Map_has_set (m : list (Z * MCPTestClient.callbacks)) (id : Z)
  (cb : MCPTestClient.callbacks) :
  MCPTestClient.Map_has (MCPTestClient.Map_set m id cb) (number id) = true.
Proof.
  unfold MCPTestClient.Map_has.
  induction m as [| [k v] r IH]; cbn [MCPTestClient.Map_set existsb fst].
  - rewrite same_key_number, Z.eqb_refl. reflexivity.
  - destruct (k =? id) eqn:E; cbn [existsb fst].
    + rewrite same_key_number, E. reflexivity.
    + rewrite IH. apply orb_true_r.
Qed.

(** X22: the request that callTool sends is one the server answers under
    the id the client waits for.  Given the request object the client
    wrote, handleMessage does not throw: it dispatches the named tool on
    the arguments (an empty object when callTool was given none) and
    returns one envelope whose id is the id of the call, for which the
    client holds a pending entry; the envelope carries the tool's result
    when the tool returns and an error of code -32000 when it throws. *)
Theorem X22_a_tool_call_is_answered_under_the_id_the_client_waits_for
  (P : platform) (name : string) (args : value) (c : MCPTestClient.client) (w : world) :
  let id := fst (MCPTestClient.callTool (VStr name) args c) in
  let c' := snd (MCPTestClient.callTool (VStr name) args c) in
  exists payload r w',
    MCPTestClient.stdin c' = MCPTestClient.stdin c ++ [payload]
    /\ MCPServer.handleMessage P payload w = (Ok r, w')
    /\ MCPServer.id r = number id
    /\ MCPTestClient.Map_has (MCPTestClient.pending c') (MCPServer.id r) = true
    /\ match MCPServer.tool P (VStr name) (Database.default (VObj []) args) w with
       | (Ok result, w1) =>
           w' = w1 /\ MCPServer.result r = Some (MCPServer.ToolContent result)
           /\ MCPServer.error_ r = None
       | (Throw e, w1) =>
           w' = w1 /\ MCPServer.result r = None
           /\ MCPServer.error_ r = Some {| MCPServer.code := -32000; MCPServer.message := e |}
       end.
Proof.
  intros id c'. unfold id, c', MCPTestClient.callTool, MCPTestClient.call.
  cbn [fst snd MCPTestClient.stdin MCPTestClient.pending].
  destruct (MCPServer.tool P (VStr name) (Database.default (VObj []) args) w)
    as [[result | e] w1] eqn:E;
    eexists; eexists; exists w1; (split; [reflexivity |]);
    unfold MCPServer.handleMessage, MCPServer.handleToolCall, bind, lift, ret, try_catch;
    cbn [JS.get JS.lookup String.eqb Ascii.eqb Bool.eqb Database.default JS.is_undefined];
    rewrite E; cbn [MCPServer.id MCPServer.result MCPServer.error_];
    (split; [reflexivity |]); (split; [reflexivity |]);
    (split; [apply Map_has_set | auto]).
Qed.

(* ====================================================================== *)
(** ** Every task has its project *)

(** X16: in every store the server reaches from an empty database, each
    task row names a project row that is stored: no request, accepted or
    refused, leaves a task without its project. *)
Theorem X16_every_task_belongs_to_a_stored_project (P : platform) (chunks : list string) :
  foreign_keys_hold (store (MCPServer.db (received P fresh chunks))).
Proof. apply foreign_keys_always_hold. Qed.

(* ====================================================================== *)
(** ** What delete_project removes from the projects *)

Lemma filter_all {A : Type} (f : A -> bool) (l : list A) :
  (forall x, In x l -> f x = true) -> filter f l = l.
Proof.
  induction l as [| a r IH]; intros H; cbn [filter]; [reflexivity |].
  rewrite (H a (or_introl eq_refl)). f_equal. apply IH. intros x Hx. apply H. now right.
Qed.

(** Among rows with distinct keys, removing the rows of one key removes
    one row. *)
Lemma filter_out_key {A : Type} (key : A -> Z) (l : list A) (x : A) :
  NoDup (map key l) -> In x l ->
  exists before after,
    l = before ++ x :: after
    /\ filter (fun y => negb (key y =? key x)) l = before ++ after.
Proof.
  induction l as [| a r IH]; intros Hnd Hin; [destruct Hin |].
  cbn [map] in Hnd. inversion Hnd as [| k ks Hnotin Hnd' ]; subst.
  assert (Hrest : forall y, In y r -> key y = key a -> False).
  { intros y Hy Hk. apply Hnotin. rewrite <- Hk. now apply in_map. }
  destruct Hin as [-> | Hin].
  - exists [], r. split; [reflexivity |].
    cbn [filter app]. rewrite Z.eqb_refl. cbn [negb].
    apply filter_all. intros y Hy.
    destruct (key y =? key x) eqn:E; [| reflexivity].
    apply Z.eqb_eq in E. destruct (Hrest y Hy E).
  - destruct (IH Hnd' Hin) as (before & after & -> & Hfilter).
    exists (a :: before), after. split; [reflexivity |].
    cbn [filter app].
    destruct (key a =? key x) eqn:E.
    + apply Z.eqb_eq in E. destruct (Hrest x Hin (eq_sym E)).
    + cbn [negb]. now rewrite Hfilter.
Qed.

Lemma deleteProject_effect (P : platform) (args : value) (name : Sqlite.sqlval)
  (w w' : world) :
  NoDup (map Sqlite.p_id (Sqlite.projects (store w))) ->
  MCPServer.tool P (VStr "delete_project") args w
  = (Ok (MCPServer.ProjectDeleted name), w') ->
  exists id before p after,
    JS.get args "id" = Ok id
    /\ Database.bind_param P id = Sqlite.SInt (Sqlite.p_id p)
    /\ name = Sqlite.p_name p
    /\ Sqlite.projects (store w) = before ++ p :: after
    /\ Sqlite.projects (store w') = before ++ after.
Proof.
  intros Hnd H.
  change (MCPServer.deleteProject P args w = (Ok (MCPServer.ProjectDeleted name), w')) in H.
  destruct (JS.get args "id") as [id | e] eqn:Hget;
    [| unfold MCPServer.deleteProject, bind, lift in H; rewrite Hget in H; discriminate].
  destruct (deleteProject_store P args id _ w w' Hget H) as (Hv & _ & Hprojects).
  unfold MCPServer.deleteProject, bind, lift, ret, throw in H.
  rewrite Hget, Hv in H.
  unfold Database.getProject, Database.query in H.
  destruct (Sqlite.select_project (Database.bind_param P id) (store w)) as [p |] eqn:Hp;
    [| discriminate].
  unfold Database.deleteProject, bind, Database.run, ret in H.
  cbn [Sqlite.delete_project store statements] in H.
  injection H as Hname _.
  destruct (validateId_bind P id _ Hv) as (_ & _ & n & _ & Hn).
  unfold Sqlite.select_project in Hp. apply find_some in Hp. destruct Hp as [Hin Hmatch].
  rewrite Hn in Hmatch. unfold Sqlite.project_matches in Hmatch.
  cbn [Sqlite.sql_eq] in Hmatch. apply Z.eqb_eq in Hmatch.
  destruct (filter_out_key Sqlite.p_id _ p Hnd Hin) as (before & after & Hsplit & Hfilter).
  exists id, before, p, after.
  split; [reflexivity |]. split; [now rewrite Hn, Hmatch |].
  split; [now symmetry |]. split; [exact Hsplit |].
  rewrite Hprojects, <- Hfilter. apply filter_ext. intros y.
  rewrite Hn, Hmatch. reflexivity.
Qed.

(** X23: on a store the server has reached, a successful delete_project
    removes one project row, the one whose id the request names, and
    reports that row's name; every other project row stays, in its place. *)
Theorem X23_delete_project_removes_the_one_project_it_names
  (P : platform) (chunks : list string) (args : value) (name : Sqlite.sqlval) (w' : world) :
  MCPServer.tool P (VStr "delete_project") args (MCPServer.db (received P fresh chunks))
  = (Ok (MCPServer.ProjectDeleted name), w') ->
  exists id before p after,
    JS.get args "id" = Ok id
    /\ Database.bind_param P id = Sqlite.SInt (Sqlite.p_id p)
    /\ name = Sqlite.p_name p
    /\ Sqlite.projects (store (MCPServer.db (received P fresh chunks))) = before ++ p :: after
    /\ Sqlite.projects (store w') = before ++ after.
Proof.
  apply deleteProject_effect.
  apply (keys_received P chunks).
Qed.

Lemma X23_witness :
  let P := Reference.node 1000 in
  let chunks :=
    [request_line "{'jsonrpc':'2.0','id':1,'method':'tools/call','params':{'name':'create_project','arguments':{'name':'first'}}}";
     request_line "{'jsonrpc':'2.0','id':2,'method':'tools/call','params':{'name':'create_project','arguments':{'name':'second'}}}"] in
  let args := VObj [("id", number 1)]%string in
  let w' := snd (MCPServer.tool P (VStr "delete_project") args
                   (MCPServer.db (received P fresh chunks))) in
  exists id before p after,
    JS.get args "id" = Ok id
    /\ Database.bind_param P id = Sqlite.SInt (Sqlite.p_id p)
    /\ Sqlite.SText "first" = Sqlite.p_name p
    /\ Sqlite.projects (store (MCPServer.db (received P fresh chunks))) = before ++ p :: after
    /\ Sqlite.projects (store w') = before ++ after.
Proof.
  cbv zeta.
  apply (X23_delete_project_removes_the_one_project_it_names (Reference.node 1000)).
  vm_compute. reflexivity.
Defined.

(* ====================================================================== *)
(** ** What updateProject writes *)








